(** * Bird 4480A wattmeter scripts

    A shallow embedding of the two scripts that poll a Bird 4480A wattmeter
    ([bird_4480_wattmeter_datalogging.py], the interactive monitor, and
    [ex01_bird4480a_log_data_to_csv.py], the batch logger), and the
    properties of their unit-conversion helpers and polling loops.

    Python's [float] is IEEE 754 binary64: it is modelled by Rocq's
    primitive [float], whose operations are specified by [SpecFloat].
    The only arithmetic the scripts use that binary64 does not define is
    the C library's [log10]; it is a parameter of the development. *)

From Stdlib Require Import ZArith List String Ascii Bool Lia.
From Stdlib Require Import Floats DecimalString.
Import ListNotations.

Open Scope Z_scope.

(** ** Exceptions and results *)

(** The exception classes that the built-in conversions, the arithmetic
    and the instrument link of the scripts can raise. *)
Inductive exn : Type :=
| ValueError
| TypeError
| OverflowError
| ZeroDivisionError
| VisaIOError.

(** A computation returns a value or raises. *)
Inductive result (A : Type) : Type :=
| Ok (a : A)
| Raise (e : exn).

Arguments Ok {A} a.
Arguments Raise {A} e.

Definition bind {A B : Type} (c : result A) (k : A -> result B) : result B :=
  match c with
  | Ok a => k a
  | Raise e => Raise e
  end.

Declare Scope py_scope.
Delimit Scope py_scope with py.
Notation "x <- c ;; k" := (bind c (fun x => k))
  (at level 61, c at next level, right associativity) : py_scope.
Open Scope py_scope.

(** [try: c except: h]: a bare [except] clause catches every exception. *)
Definition try_except {A : Type} (c : result A) (h : A) : A :=
  match c with
  | Ok a => a
  | Raise _ => h
  end.

Definition raises {A : Type} (c : result A) : Prop :=
  exists e, c = Raise e.

(** ** Python values *)

(** The values that reach the helpers: the scripts pass them [int]s and
    [float]s, a caller may pass anything. A [str] is the string of the code
    points of its characters, all below 256: text with characters beyond
    Latin-1 is not modelled. *)
Inductive pyval : Type :=
| PyNone
| PyBool (b : bool)
| PyInt (z : Z)
| PyFloat (f : float)
| PyStr (s : string).

(** ** Text *)

(** The whitespace of [str.strip()] among the characters below 256: TAB to
    CR, FS to US, the space, NEL and the no-break space. *)
Definition is_space (c : ascii) : bool :=
  let n := N_of_ascii c in
  (((9 <=? n) && (n <=? 13)) || ((28 <=? n) && (n <=? 32))
   || (n =? 133) || (n =? 160))%N.

(** The whitespace around a numeral that [int()] and [float()] skip: the
    same characters without FS to US (the C library's [isspace] and, mapped
    to the space before the numeral is read, NEL and the no-break space). *)
Definition is_numeral_space (c : ascii) : bool :=
  let n := N_of_ascii c in
  (((9 <=? n) && (n <=? 13)) || (n =? 32) || (n =? 133) || (n =? 160))%N.

Fixpoint lstrip_with (space : ascii -> bool) (l : list ascii) : list ascii :=
  match l with
  | c :: l' => if space c then lstrip_with space l' else l
  | [] => []
  end.

Definition lstrip (l : list ascii) : list ascii := lstrip_with is_space l.

(** [str.strip()] on the characters of a string. *)
Definition strip_chars (l : list ascii) : list ascii :=
  rev (lstrip (rev (lstrip l))).

Definition strip (s : string) : string :=
  string_of_list_ascii (strip_chars (list_ascii_of_string s)).

(** The characters of a numeral without the whitespace around it. *)
Definition numeral_chars (s : string) : list ascii :=
  rev (lstrip_with is_numeral_space
         (rev (lstrip_with is_numeral_space (list_ascii_of_string s)))).

Definition digit_of (c : ascii) : option Z :=
  let n := N_of_ascii c in
  if ((48 <=? n) && (n <=? 57))%N then Some (Z.of_N n - 48) else None.

Definition is_digit (c : ascii) : bool :=
  match digit_of c with Some _ => true | None => false end.

(** The rest of a run of decimal digits in which single underscores may
    separate digits: the value so far, the number of digits read so far, and
    the text; returns the value, the digit count and the unread text. *)
Fixpoint more_digits (acc : Z) (n : Z) (l : list ascii) {struct l}
  : Z * Z * list ascii :=
  match l with
  | c :: l' =>
      match digit_of c with
      | Some d => more_digits (10 * acc + d) (n + 1) l'
      | None =>
          if Ascii.eqb c "_"%char then
            match l' with
            | c' :: _ => if is_digit c' then more_digits acc n l' else (acc, n, l)
            | [] => (acc, n, l)
            end
          else (acc, n, l)
      end
  | [] => (acc, n, [])
  end.

(** A digit part: one digit, then [more_digits]. *)
Definition digitpart (l : list ascii) : option (Z * Z * list ascii) :=
  match l with
  | c :: l' =>
      match digit_of c with
      | Some d => Some (more_digits d 1 l')
      | None => None
      end
  | [] => None
  end.

(** An optional sign: [true] for a minus. *)
Definition take_sign (l : list ascii) : bool * list ascii :=
  match l with
  | c :: l' =>
      if Ascii.eqb c "-"%char then (true, l')
      else if Ascii.eqb c "+"%char then (false, l')
      else (false, l)
  | [] => (false, [])
  end.

(** The most digits [int()] reads and [str()] writes
    ([sys.int_max_str_digits]). *)
Definition int_max_str_digits : Z := 4300.

(** [int(s)] for a string, in base ten: surrounding whitespace, an optional
    sign, a digit part of at most 4300 digits, and nothing else. *)
Definition int_of_string (s : string) : result Z :=
  let '(neg, l) := take_sign (numeral_chars s) in
  match digitpart l with
  | Some (v, n, []) =>
      if int_max_str_digits <? n then Raise ValueError
      else Ok (if neg then - v else v)
  | _ => Raise ValueError
  end.

Definition lower (c : ascii) : ascii :=
  let n := N_of_ascii c in
  if ((65 <=? n) && (n <=? 90))%N then ascii_of_N (n + 32) else c.

Definition lower_string (l : list ascii) : string :=
  string_of_list_ascii (map lower l).

(** The decimal digits of a natural number, ["0"] for zero. *)
Definition digits_of_Z (z : Z) : string :=
  NilZero.string_of_uint (N.to_uint (Z.to_N z)).

Fixpoint zeros (n : nat) : string :=
  match n with
  | O => EmptyString
  | S n' => String "0" (zeros n')
  end.

(** Pad with zeros on the left up to [w] characters. *)
Definition zfill (w : nat) (s : string) : string :=
  (zeros (w - String.length s) ++ s)%string.

(** The format [{z:02d}]: the sign counts in the width, the digits are padded
    with zeros. (For an [int] of at most 4300 digits, as every [int] made
    from a [float] is.) *)
Definition format_02d (z : Z) : string :=
  if z <? 0 then ("-" ++ zfill 1 (digits_of_Z (- z)))%string
  else zfill 2 (digits_of_Z z).

(** ** Binary64 arithmetic beyond the primitive operations *)

(** The binary64 number nearest to [a / b] (ties to even), for positive
    integers of any size: the quotient is taken with enough bits and rounded
    once, as [SFdiv] does for two mantissas. *)
Definition SFquot (s : bool) (a b : positive) : spec_float :=
  let '(q, e, l) := SFdiv_core_binary prec emax (Zpos a) 0 (Zpos b) 0 in
  binary_round_aux prec emax s q e l.

(** [float(z)] for an [int]: the nearest binary64 number, [OverflowError]
    when that is an infinity. *)
Definition float_of_Z (z : Z) : result float :=
  match binary_normalize prec emax z 0 false with
  | S754_infinity _ => Raise OverflowError
  | x => Ok (SF2Prim x)
  end.

(** [a / b] for two [int]s: the correctly rounded quotient. *)
Definition int_true_div (a b : Z) : result float :=
  let neg := xorb (a <? 0) (b <? 0) in
  match a, b with
  | _, 0 => Raise ZeroDivisionError
  | 0, _ => Ok (if neg then neg_zero else zero)
  | _, _ =>
      match SFquot neg (Z.to_pos (Z.abs a)) (Z.to_pos (Z.abs b)) with
      | S754_infinity _ => Raise OverflowError
      | x => Ok (SF2Prim x)
      end
  end.

(** The binary64 number nearest to [n * 10 ^ k], with the sign [neg], for a
    natural number [n]: what reading a decimal numeral gives. *)
Definition SF_of_decimal (neg : bool) (n k : Z) : spec_float :=
  match n with
  | Zpos p =>
      if 0 <=? k then binary_normalize prec emax ((if neg then -1 else 1) * (n * 10 ^ k)) 0 neg
      else SFquot neg p (Z.to_pos (10 ^ (- k)))
  | _ => S754_zero neg
  end.

Definition float_of_decimal (neg : bool) (n k : Z) : float :=
  SF2Prim (SF_of_decimal neg n k).

(** The digit part that may follow, with [(0, 0)] when there is none. *)
Definition opt_digitpart (l : list ascii) : option (Z * Z) * list ascii :=
  match digitpart l with
  | Some (v, n, l') => (Some (v, n), l')
  | None => (None, l)
  end.

(** The exponent that may follow a decimal numeral: [e] or [E], a sign, a
    digit part. *)
Definition exponent_part (l : list ascii) : option (Z * list ascii) :=
  match l with
  | c :: l' =>
      if Ascii.eqb (lower c) "e"%char then
        let '(neg, l'') := take_sign l' in
        match digitpart l'' with
        | Some (v, _, rest) => Some (if neg then - v else v, rest)
        | None => None
        end
      else Some (0, l)
  | [] => Some (0, [])
  end.

(** A decimal numeral [digits[.digits][e[+-]digits]] or [.digits[e...]]:
    its digits as a natural number and its power of ten. *)
Definition decimal_numeral (l : list ascii) : option (Z * Z) :=
  let '(ip, l1) := opt_digitpart l in
  let '(fp, l2) :=
    match l1 with
    | c :: l1' => if Ascii.eqb c "."%char then opt_digitpart l1' else (None, l1)
    | [] => (None, l1)
    end in
  let numeral :=
    match ip, fp with
    | None, None => None
    | Some (vi, _), None => Some (vi, 0)
    | None, Some (vf, nf) => Some (vf, nf)
    | Some (vi, _), Some (vf, nf) => Some (vi * 10 ^ nf + vf, nf)
    end in
  match numeral, exponent_part l2 with
  | Some (v, nf), Some (ex, []) => Some (v, ex - nf)
  | _, _ => None
  end.

(** [float(s)] for a string: surrounding whitespace, an optional sign, then
    [inf], [infinity], [nan] in any case, or a decimal numeral, read with
    correct rounding; [ValueError] otherwise. *)
Definition float_of_string (s : string) : result float :=
  let '(neg, l) := take_sign (numeral_chars s) in
  let w := lower_string l in
  if (String.eqb w "inf" || String.eqb w "infinity")%bool then
    Ok (if neg then neg_infinity else infinity)
  else if String.eqb w "nan" then Ok nan
  else
    match decimal_numeral l with
    | Some (n, k) => Ok (float_of_decimal neg n k)
    | None => Raise ValueError
    end.

(** [int(x)] for a [float]: truncation towards zero. *)
Definition int_of_float (x : float) : result Z :=
  match Prim2SF x with
  | S754_nan => Raise ValueError
  | S754_infinity _ => Raise OverflowError
  | S754_zero _ => Ok 0
  | S754_finite s m e =>
      let t := Z.shiftl (Zpos m) e in
      Ok (if s then - t else t)
  end.

(** The C library's [floor]: the result is an integer of at most 53 bits,
    so no rounding takes place. *)
Definition SFfloor (x : spec_float) : spec_float :=
  match x with
  | S754_finite s m e =>
      if 0 <=? e then x
      else
        let q := Z.shiftl (Zpos m) e in
        if s then
          binary_normalize prec emax
            (- (if Zpos m mod 2 ^ (- e) =? 0 then q else q + 1)) 0 true
        else binary_normalize prec emax q 0 false
  | _ => x
  end.

(** The C library's [fmod]: the remainder has the sign of [x] and is exact. *)
Definition SFfmod (x y : spec_float) : spec_float :=
  match x, y with
  | S754_nan, _ | _, S754_nan => S754_nan
  | S754_infinity _, _ => S754_nan
  | _, S754_zero _ => S754_nan
  | S754_zero _, _ => x
  | S754_finite _ _ _, S754_infinity _ => x
  | S754_finite sx mx ex, S754_finite _ my ey =>
      let e := Z.min ex ey in
      let a := Zpos mx * 2 ^ (ex - e) in
      let b := Zpos my * 2 ^ (ey - e) in
      binary_normalize prec emax (cond_Zopp sx (Z.rem a b)) e sx
  end.

Definition floor (x : float) : float := SF2Prim (SFfloor (Prim2SF x)).
Definition fmod (x y : float) : float := SF2Prim (SFfmod (Prim2SF x) (Prim2SF y)).

(** [copysign(0.0, y)]. *)
Definition signed_zero (y : float) : float :=
  if get_sign y then neg_zero else zero.

(** [vx // wx] for two [float]s, as the interpreter computes it from [fmod]:
    the quotient of [vx - mod] is snapped to an integer. *)
Definition float_floordiv (vx wx : float) : result float :=
  if (wx =? 0)%float then Raise ZeroDivisionError
  else
    let md := fmod vx wx in
    let div := ((vx - md) / wx)%float in
    let div :=
      if negb (md =? 0)%float && xorb (wx <? 0)%float (md <? 0)%float
      then (div - 1)%float else div in
    if negb (div =? 0)%float then
      let fl := floor div in
      Ok (if (0.5 <? div - fl)%float then (fl + 1)%float else fl)
    else Ok (signed_zero (vx / wx)%float).

(** [vx % wx] for two [float]s: the remainder takes the sign of [wx]. *)
Definition float_mod (vx wx : float) : result float :=
  if (wx =? 0)%float then Raise ZeroDivisionError
  else
    let md := fmod vx wx in
    if negb (md =? 0)%float then
      Ok (if xorb (wx <? 0)%float (md <? 0)%float then (md + wx)%float else md)
    else Ok (signed_zero wx).

(** ** Formatting numbers *)

(** [a / b] rounded to the nearest integer, ties to even, for [0 <= a] and
    [0 < b]. *)
Definition round_half_even_div (a b : Z) : Z :=
  let q := a / b in
  match 2 * (a mod b) ?= b with
  | Lt => q
  | Gt => q + 1
  | Eq => if Z.even q then q else q + 1
  end.

(** [m * 2 ^ e * 10 ^ p] rounded to the nearest integer, ties to even. *)
Definition scaled_round (p : nat) (m : positive) (e : Z) : Z :=
  if 0 <=? e then Zpos m * 10 ^ Z.of_nat p * 2 ^ e
  else round_half_even_div (Zpos m * 10 ^ Z.of_nat p) (2 ^ (- e)).

(** The natural number [n] of units of [10 ^ - p], in fixed-point notation. *)
Definition fixed_digits (p : nat) (n : Z) : string :=
  let s := zfill (S p) (digits_of_Z n) in
  match p with
  | O => s
  | _ =>
      let k := (String.length s - p)%nat in
      (substring 0 k s ++ "." ++ substring k p s)%string
  end.

Definition sign_text (s : bool) : string := if s then "-" else EmptyString.

(** The format [{x:.pf}] of a [float]: the exact binary value rounded to [p]
    decimals, ties to even. *)
Definition format_f (p : nat) (x : float) : string :=
  match Prim2SF x with
  | S754_nan => "nan"
  | S754_infinity s => (sign_text s ++ "inf")%string
  | S754_zero s => (sign_text s ++ fixed_digits p 0)%string
  | S754_finite s m e => (sign_text s ++ fixed_digits p (scaled_round p m e))%string
  end.

(** [round(x, p)] for a [float] and a small natural [p]: the decimal numeral
    of [format_f] read back. Infinities and NaN round to themselves. *)
Definition py_round (p : nat) (x : float) : float :=
  match Prim2SF x with
  | S754_finite s m e => float_of_decimal s (scaled_round p m e) (- Z.of_nat p)
  | _ => x
  end.

(** The decimal text of an integer. *)
Definition str_of_Z (z : Z) : string :=
  if z <? 0 then ("-" ++ digits_of_Z (- z))%string else digits_of_Z z.

(** [str(z)] for an [int]: its decimal text, [ValueError] when that has
    more than 4300 digits, which is when [10 ^ 4300 <= |z|]. *)
Definition py_str (z : Z) : result string :=
  if 10 ^ int_max_str_digits <=? Z.abs z then Raise ValueError
  else Ok (str_of_Z z).

(** [float(v)]: the conversion the helpers apply to their argument. *)
Definition py_float (v : pyval) : result float :=
  match v with
  | PyNone => Raise TypeError
  | PyBool b => Ok (if b then 1%float else 0%float)
  | PyInt z => float_of_Z z
  | PyFloat f => Ok f
  | PyStr s => float_of_string s
  end.

(** [v == k] for an [int] literal [k] that binary64 represents exactly (the
    scripts compare with 0 and 1): numbers are compared by value, and a value
    that is not a number is equal to no number. *)
Definition py_eq_int (v : pyval) (k : Z) : bool :=
  match v with
  | PyNone => false
  | PyBool b => (if b then 1 else 0) =? k
  | PyInt z => z =? k
  | PyFloat f => (f =? SF2Prim (binary_normalize prec emax k 0 false))%float
  | PyStr _ => false
  end.

(** ** The C library *)

Section Libm.

(** The value [math.log10] returns for an argument in its domain: the C
    library's [log10]. *)
Variable log10 : float -> float.

(** [math.log10(x)]: a [ValueError] for zero and for negative numbers. *)
Definition math_log10 (x : float) : result float :=
  if (x <=? 0)%float then Raise ValueError else Ok (log10 x).

End Libm.

(** [vx / wx] for two [float]s. *)
Definition float_div (vx wx : float) : result float :=
  if (wx =? 0)%float then Raise ZeroDivisionError else Ok (vx / wx)%float.

(** ** The instrument and the program's world *)

(** What a query gets back: a line of text, or nothing before the timeout,
    which the VISA layer reports by raising. *)
Inductive reply : Type :=
| Reply (s : string)
| NoReply.

(** The instrument at the other end of the link: its reply to the [n]-th
    message depends on the message; [asked] counts the messages so far and
    [sent] keeps them, latest first. *)
Record instrument : Type := {
  answer : nat -> string -> reply;
  asked : nat;
  sent : list string
}.

Definition received (cmd : string) (d : instrument) : instrument :=
  {| answer := answer d; asked := S (asked d); sent := cmd :: sent d |}.

(** A computation in a world [W]: it may raise, and what it did to the world
    before raising stays done. *)
Definition M (W A : Type) : Type := W -> result A * W.

Definition ret {W A : Type} (a : A) : M W A := fun w => (Ok a, w).

Definition bindM {W A B : Type} (c : M W A) (k : A -> M W B) : M W B :=
  fun w =>
    match c w with
    | (Ok a, w') => k a w'
    | (Raise e, w') => (Raise e, w')
    end.

(** A pure computation that may raise, inside a world. *)
Definition lift {W A : Type} (r : result A) : M W A := fun w => (r, w).

Declare Scope io_scope.
Delimit Scope io_scope with io.
Notation "x <- c ;; k" := (bindM c (fun x => k))
  (at level 61, c at next level, right associativity) : io_scope.
Notation "c ;;; k" := (bindM c (fun _ => k))
  (at level 61, right associativity) : io_scope.

(** [my4480.query(cmd)] on the instrument itself. *)
Definition instrument_query (cmd : string) : M instrument string :=
  fun d =>
    match answer d (asked d) cmd with
    | Reply s => (Ok s, received cmd d)
    | NoReply => (Raise VisaIOError, received cmd d)
    end.

(** A row of the CSV file: the cells as the program hands them to the
    writer. *)
Definition row : Type := list pyval.

(** ** The interactive monitor, [bird_4480_wattmeter_datalogging.py] *)

Module Monitor.

Definition fieldnames : row :=
  [ PyStr "Measurment Band";
    PyStr "Forward Average Power (W)";
    PyStr "Reflected Average Power (W)";
    PyStr "Forward Average Power (dBm)";
    PyStr "Reflected Average Power (dBm)";
    PyStr "VSWR";
    PyStr "Return Loss (dB)";
    PyStr "Temp (C)";
    PyStr "Measurment Count";
    PyStr "TestTime (ms)";
    PyStr "System Up Time" ].

(** Milliseconds to [HH:MM:SS]. The division [ms / 1000] is the true
    division of an [int], so [seconds] is a [float], and so are the
    quotients and remainders taken from it. *)
Definition ms_to_hhmmss (ms : Z) : result string :=
  seconds <- int_true_div ms 1000 ;;
  h <- float_floordiv seconds 3600 ;;
  hours <- int_of_float h ;;
  r <- float_mod seconds 3600 ;;
  m <- float_floordiv r 60 ;;
  minutes <- int_of_float m ;;
  s <- float_mod seconds 60 ;;
  seconds <- int_of_float s ;;
  Ok (format_02d hours ++ ":" ++ format_02d minutes ++ ":" ++ format_02d seconds)%string.

(** Band reading to its label; a reading that is neither 1 nor 0 falls off
    the end of the function, which returns [None]. *)
Definition band_selection (Band : pyval) : pyval :=
  try_except
    (if py_eq_int Band 1 then Ok (PyStr "High Band 25 to 1000 MHz")
     else if py_eq_int Band 0 then Ok (PyStr "Low Band 2 to 30 MHz")
     else Ok PyNone)
    (PyStr "Error").

(** The text variables behind the labels of the window. *)
Inductive var : Type :=
| band_var
| forward_power_var
| reflected_power_var
| forward_power_dbm_var
| reflected_power_dbm_var
| vswr_var
| return_loss_var
| temp_var
| test_time_var
| iteration_var
| system_time_var.

Definition var_index (x : var) : nat :=
  match x with
  | band_var => 0
  | forward_power_var => 1
  | reflected_power_var => 2
  | forward_power_dbm_var => 3
  | reflected_power_dbm_var => 4
  | vswr_var => 5
  | return_loss_var => 6
  | temp_var => 7
  | test_time_var => 8
  | iteration_var => 9
  | system_time_var => 10
  end%nat.

(** The program's world: the iteration count [i], the window, the rows of
    [data_log.csv], the instrument, and whether the timer is armed. *)
Record world : Type := {
  i : Z;
  panel : var -> pyval;
  csvfile : list row;
  my4480 : instrument;
  timer : bool
}.

(** The world once the module-level statements have run: the file is
    truncated and holds the header row. *)
Definition start (d : instrument) : world :=
  {| i := 0;
     panel := fun _ => PyStr EmptyString;
     csvfile := [fieldnames];
     my4480 := d;
     timer := false |}.

Definition next_i : M world Z :=
  fun w =>
    (Ok (i w + 1),
     {| i := i w + 1; panel := panel w; csvfile := csvfile w;
        my4480 := my4480 w; timer := timer w |}).

Definition set (x : var) (v : pyval) : M world unit :=
  fun w =>
    (Ok tt,
     {| i := i w;
        panel := fun y => if Nat.eqb (var_index y) (var_index x) then v else panel w y;
        csvfile := csvfile w; my4480 := my4480 w; timer := timer w |}).

Definition query (cmd : string) : M world string :=
  fun w =>
    let '(r, d) := instrument_query cmd (my4480 w) in
    (r, {| i := i w; panel := panel w; csvfile := csvfile w;
           my4480 := d; timer := timer w |}).

(** [writer.writerow(...)]: one more row at the end of the file. *)
Definition writerow (r : row) : M world unit :=
  fun w =>
    (Ok tt,
     {| i := i w; panel := panel w; csvfile := csvfile w ++ [r];
        my4480 := my4480 w; timer := timer w |}).

(** [root.after(1000, update_readings)]. *)
Definition after : M world unit :=
  fun w =>
    (Ok tt,
     {| i := i w; panel := panel w; csvfile := csvfile w;
        my4480 := my4480 w; timer := true |}).

(** The timer fires: it is no longer armed. *)
Definition fired (w : world) : world :=
  {| i := i w; panel := panel w; csvfile := csvfile w;
     my4480 := my4480 w; timer := false |}.

(** [round(float(my4480.query(cmd).strip()), 2)]. *)
Definition fetch (cmd : string) : M world float :=
  (s <- query cmd ;;
   x <- lift (float_of_string (strip s)) ;;
   ret (py_round 2 x))%io.

(** [int(my4480.query(cmd))]. *)
Definition fetch_int (cmd : string) : M world Z :=
  (s <- query cmd ;;
   lift (int_of_string s))%io.

Section Helpers.

Variable log10 : float -> float.

(** Watts to dBm, "safely": every exception gives ['N/A']. *)
Definition watts_to_dbm (watts : pyval) : pyval :=
  try_except
    (watts <- py_float watts ;;
     if (watts <=? 0)%float then Ok (PyStr "N/A")
     else
       l <- math_log10 log10 (watts * 1000)%float ;;
       let dbm := (10 * l)%float in
       Ok (PyStr (format_f 2 dbm)))
    (PyStr "N/A").

(** VSWR to return loss. *)
Definition vswr_to_return_loss (VSWR : pyval) : pyval :=
  try_except
    (VSWR <- py_float VSWR ;;
     if (VSWR <=? 1)%float then Ok (PyStr "0")
     else
       q <- float_div (VSWR - 1)%float (VSWR + 1)%float ;;
       l <- math_log10 log10 q ;;
       let Return_Loss := (-20 * l)%float in
       Ok (PyStr (format_f 2 Return_Loss)))
    (PyStr "N/A").

(** The timer callback: one polling iteration. *)
Definition update_readings : M world unit :=
  (n <- next_i ;;
   count_text <- lift (py_str n) ;;
   set iteration_var (PyStr count_text) ;;;
   SystemTime_ms <- fetch_int "SYST:TIM?" ;;
   system_time_str <- lift (ms_to_hhmmss SystemTime_ms) ;;
   set system_time_var (PyStr system_time_str) ;;;
   forward_power <- fetch "FETC:FORW?" ;;
   reflected_power <- fetch "FETC:REFL?" ;;
   vswr <- fetch "FETC:VSWR?" ;;
   temp <- fetch "FETC:TEMP?" ;;
   t <- fetch_int "SYST:TIM?" ;;
   let TestTime_ms := t - SystemTime_ms in
   meas_band <- fetch_int "MEAS:BAND?" ;;
   let band := band_selection (PyInt meas_band) in
   let forward_power_dbm := watts_to_dbm (PyFloat forward_power) in
   let reflected_power_dbm := watts_to_dbm (PyFloat reflected_power) in
   let return_loss := vswr_to_return_loss (PyFloat vswr) in
   set band_var band ;;;
   set forward_power_var (PyFloat forward_power) ;;;
   set reflected_power_var (PyFloat reflected_power) ;;;
   set forward_power_dbm_var forward_power_dbm ;;;
   set reflected_power_dbm_var reflected_power_dbm ;;;
   set vswr_var (PyFloat vswr) ;;;
   set return_loss_var return_loss ;;;
   set temp_var (PyFloat temp) ;;;
   test_time_text <- lift (py_str TestTime_ms) ;;
   set test_time_var (PyStr test_time_text) ;;;
   writerow
     [ band; PyFloat forward_power; PyFloat reflected_power;
       forward_power_dbm; reflected_power_dbm; PyFloat vswr; return_loss;
       PyFloat temp; PyInt n; PyInt TestTime_ms; PyStr system_time_str ] ;;;
   after)%io.

(** The event loop until the window is closed, [n] timer periods later:
    an armed timer fires and runs the callback; a callback that raised
    did not arm the timer again, and the loop idles. The results of
    the callbacks are returned with the world. *)
Fixpoint mainloop (n : nat) (w : world) : list (result unit) * world :=
  match n with
  | O => ([], w)
  | S n' =>
      if timer w then
        let '(r, w') := update_readings (fired w) in
        let '(rs, w'') := mainloop n' w' in
        (r :: rs, w'')
      else ([], w)
  end.

(** The script: the first call of [update_readings], then the event
    loop. An exception in the first call ends the script. *)
Definition main (n : nat) (d : instrument) : list (result unit) * world :=
  let '(r, w) := update_readings (start d) in
  match r with
  | Ok _ => let '(rs, w') := mainloop n w in (r :: rs, w')
  | Raise _ => ([r], w)
  end.

End Helpers.

Definition is_ok {A : Type} (r : result A) : bool :=
  match r with Ok _ => true | Raise _ => false end.

(** The polling iterations that ran to their end. *)
Definition completed (rs : list (result unit)) : nat :=
  List.length (filter is_ok rs).

(** The rows of the file below the header. *)
Definition data_rows (w : world) : list row := tl (csvfile w).

End Monitor.

(** ** The batch logger, [ex01_bird4480a_log_data_to_csv.py] *)

Module Logger.

(** The binary64 number the literal [9.999e+37] denotes. *)
Definition sentinel : float := 0x1.2ce57e7a6f64fp+126%float.

Definition header : row :=
  [ PyStr "Time (s)"; PyStr "Fwd_Power (W)"; PyStr "Refl_Power (W)";
    PyStr "VSWR"; PyStr "Return Loss (dB)"; PyStr "Temperature (deg C)" ].

Definition log_duration : float := 1800%float.

(** The program's world: the instrument, the system clock ([clock n] is what
    the [n]-th call of [time.time()] returns, [now] counts the calls), the
    rows of the output file, and the lines printed. *)
Record world : Type := {
  my4480 : instrument;
  clock : nat -> float;
  now : nat;
  file : list row;
  stdout : list string
}.

(** The variables of the loop. *)
Record locals : Type := {
  t1 : float;
  elapsed_time : float;
  print_interval_flag : float
}.

Definition query (cmd : string) : M world string :=
  fun w =>
    let '(r, d) := instrument_query cmd (my4480 w) in
    (r, {| my4480 := d; clock := clock w; now := now w;
           file := file w; stdout := stdout w |}).

(** [my4480.write(cmd)]. *)
Definition write (cmd : string) : M world unit :=
  fun w =>
    (Ok tt,
     {| my4480 := received cmd (my4480 w); clock := clock w; now := now w;
        file := file w; stdout := stdout w |}).

(** [time.time()]. *)
Definition time : M world float :=
  fun w =>
    (Ok (clock w (now w)),
     {| my4480 := my4480 w; clock := clock w; now := S (now w);
        file := file w; stdout := stdout w |}).

(** [writer.writerow(...)]: one more row at the end of the file. *)
Definition writerow (r : row) : M world unit :=
  fun w =>
    (Ok tt,
     {| my4480 := my4480 w; clock := clock w; now := now w;
        file := file w ++ [r]; stdout := stdout w |}).

Definition print (s : string) : M world unit :=
  fun w =>
    (Ok tt,
     {| my4480 := my4480 w; clock := clock w; now := now w;
        file := file w; stdout := stdout w ++ [s] |}).

(** [round(float(my4480.query(cmd).strip()), 2)]. *)
Definition fetch (cmd : string) : M world float :=
  (s <- query cmd ;;
   x <- lift (float_of_string (strip s)) ;;
   ret (py_round 2 x))%io.

(** What running the loop comes to: it ended, an exception left it, or it
    is still running when the observation stops. [n] is the number of
    iterations that ran to their end; it is not a variable of the program. *)
Inductive outcome : Type :=
| Finished (n : nat) (l : locals) (w : world)
| Failed (n : nat) (e : exn) (w : world)
| Running (n : nat) (l : locals) (w : world).

Section Helpers.

Variable log10 : float -> float.

(** VSWR to return loss; annotated as returning a [float]. *)
Definition vswr_to_return_loss (VSWR : pyval) : pyval :=
  try_except
    (VSWR <- py_float VSWR ;;
     if (VSWR <=? 1)%float then Ok (PyFloat sentinel)
     else
       q <- float_div (VSWR - 1)%float (VSWR + 1)%float ;;
       l <- math_log10 log10 q ;;
       let Return_Loss := (-20 * l)%float in
       Ok (PyStr (format_f 2 Return_Loss)))
    (PyFloat sentinel).

(** The body of the [while] loop. *)
Definition body (l : locals) : M world locals :=
  (forward_power <- fetch "FETC:FORW?" ;;
   reflected_power <- fetch "FETC:REFL?" ;;
   vswr <- fetch "FETC:VSWR?" ;;
   let rl := vswr_to_return_loss (PyFloat vswr) in
   temp <- fetch "FETC:TEMP?" ;;
   t2 <- time ;;
   let elapsed := (t2 - t1 l)%float in
   let etime := format_f 3 elapsed in
   writerow
     [ PyStr etime; PyFloat forward_power; PyFloat reflected_power;
       PyFloat vswr; rl; PyFloat temp ] ;;;
   if (print_interval_flag l <? elapsed)%float then
     print ("Elapsed time: " ++ format_f 3 (t2 - t1 l)%float ++ " s")%string ;;;
     ret {| t1 := t1 l; elapsed_time := elapsed;
            print_interval_flag := (print_interval_flag l + 60)%float |}
   else
     ret {| t1 := t1 l; elapsed_time := elapsed;
            print_interval_flag := print_interval_flag l |})%io.

(** [while elapsed_time < log_duration: body], observed for at most [fuel]
    iterations, after [n] iterations that ran to their end. *)
Fixpoint while (fuel : nat) (n : nat) (l : locals) (w : world) : outcome :=
  if (elapsed_time l <? log_duration)%float then
    match fuel with
    | O => Running n l w
    | S fuel' =>
        match body l w with
        | (Ok l', w') => while fuel' (S n) l' w'
        | (Raise e, w') => Failed n e w'
        end
    end
  else Finished n l w.

(** The script up to the loop: the instrument is reset and set to band
    0, the header is written, the timer starts. *)
Definition setup : M world locals :=
  (write "*RST" ;;;
   write "*CLS" ;;;
   write "MEAS:BAND 0" ;;;
   writerow header ;;;
   t <- time ;;
   print "Testing started...." ;;;
   ret {| t1 := t; elapsed_time := 0; print_interval_flag := 60 |})%io.

Definition main (fuel : nat) (w : world) : outcome :=
  match setup w with
  | (Ok l, w') =>
      match while fuel O l w' with
      | Finished n l' w'' => Finished n l' (snd (print "Testing ended!!!" w''))
      | o => o
      end
  | (Raise e, w') => Failed O e w'
  end.

End Helpers.

(** The world in which the script starts on a new output file: no row in
    the file, nothing printed. The script opens the file in append mode, so
    on an existing file a run starts in a world whose [file] holds the rows
    that are already there. *)
Definition start (d : instrument) (c : nat -> float) : world :=
  {| my4480 := d; clock := c; now := O; file := []; stdout := [] |}.

(** The rows of the file below its first row: on a new file, the rows
    below the header. *)
Definition data_rows (w : world) : list row := tl (file w).

End Logger.

(** ** Auxiliary definitions: binary64 numbers as integers *)

(** Where [r / b], a fraction in [[0, 1)], lies with respect to one half. *)
Definition loc_of (r b : Z) : location :=
  if r =? 0 then loc_Exact else loc_Inexact (2 * r ?= b).

(** The integer [m] and the location [l] describe the rational [a / b]. *)
Definition located (a b m : Z) (l : location) : Prop :=
  0 < b /\ 0 <= a /\ m = a / b /\ l = loc_of (a mod b) b.


(** ** Rounding to a binary format, specified on rationals *)

(** Numbers are counted in units of the least positive number of the format,
    [2 ^ emin]: every finite number of the format is a whole number of
    units. *)

(** The bits of the integer part of [a / b] that do not fit in [prec] bits. *)
Definition bits_over (prec : Z) (a b : Z) : Z :=
  Z.max (Zdigits2 (a / b) - prec) 0.

(** The number of units nearest to the rational [a / b] among the numbers of
    the format, ties to even, when the exponent is not bounded above. *)
Definition round_units (prec : Z) (a b : Z) : Z :=
  let t := bits_over prec a b in
  round_half_even_div a (b * 2 ^ t) * 2 ^ t.

(** The float of sign [s] worth [v] units; an infinity past the largest
    finite number. *)
Definition pack (prec emax : Z) (s : bool) (v : Z) : spec_float :=
  let t := Z.max (Zdigits2 v - prec) 0 in
  match v / 2 ^ t with
  | Zpos m =>
      if t + SpecFloat.emin prec emax <=? emax - prec
      then S754_finite s m (t + SpecFloat.emin prec emax)
      else S754_infinity s
  | _ => S754_zero s
  end.

(** The units a finite float is worth, with its sign. *)
Definition units (prec emax : Z) (x : spec_float) : Z :=
  match x with
  | S754_finite s m e => cond_Zopp s (Zpos m * 2 ^ (e - SpecFloat.emin prec emax))
  | _ => 0
  end.

(** The rational [a / b * 2 ^ e] counted in units: numerator and
    denominator. *)
Definition units_num (prec emax : Z) (a e : Z) : Z :=
  if SpecFloat.emin prec emax <=? e then a * 2 ^ (e - SpecFloat.emin prec emax) else a.

Definition units_den (prec emax : Z) (b e : Z) : Z :=
  if SpecFloat.emin prec emax <=? e then b else b * 2 ^ (SpecFloat.emin prec emax - e).

(** A number of units that the format represents when the exponent is not
    bounded above: at most [prec] significant bits. *)
Definition fits (prec : Z) (v : Z) : Prop :=
  0 <= v /\ v mod 2 ^ (Z.max (Zdigits2 v - prec) 0) = 0.

(** The units an infinity is taken to be worth: more than any finite number
    of the format. *)
Definition top (prec emax : Z) : Z := 2 ^ (emax - SpecFloat.emin prec emax).

(** One, in units. *)
Definition one_units (prec emax : Z) : Z := 2 ^ (- SpecFloat.emin prec emax).

(** The place of a float on the number line, in units: infinities at
    [top] and [- top]. *)
Definition rank (prec emax : Z) (x : spec_float) : Z :=
  match x with
  | S754_infinity s => cond_Zopp s (top prec emax)
  | _ => units prec emax x
  end.

(** The signed rounding of the rational [a / b], with infinities at [top]. *)
Definition rnd (prec emax : Z) (a b : Z) : Z :=
  Z.sgn a * Z.min (round_units prec (Z.abs a) b) (top prec emax).

Definition is_nan_sf (x : spec_float) : bool :=
  match x with S754_nan => true | _ => false end.

Definition is_finite_sf (x : spec_float) : bool :=
  match x with S754_zero _ | S754_finite _ _ _ => true | _ => false end.

(** The rank of a binary64 float: its place on the number line, counted in
    units of [2 ^ -1074]. *)
Definition float_rank (x : float) : Z := rank prec emax (Prim2SF x).

(** A float that is not NaN. *)
Definition number (x : float) : Prop := is_nan_sf (Prim2SF x) = false.

(** A float that is neither NaN nor an infinity. *)
Definition finite (x : float) : Prop := is_finite_sf (Prim2SF x) = true.

(** The number that [format_f p] prints for a finite float, as a signed
    count of units of [10 ^ - p]. *)
Definition fixed_value (p : nat) (x : float) : Z :=
  match Prim2SF x with
  | S754_finite s m e => cond_Zopp s (scaled_round p m e)
  | _ => 0
  end.

(** The signed rounding of the rational [a / b] to the nearest integer. *)
Definition round_int (a b : Z) : Z := Z.sgn a * round_half_even_div (Z.abs a) b.

(** ** Sample worlds *)

(** A sample of the C library's [log10]: its values at the two arguments
    [0x1.e04ee348c0e30p-1] and [0x1.e04ee348c0e31p-1], extended to a
    monotone step function. *)
Definition log10_sample (x : float) : float :=
  if (x <? 0x1.e04ee348c0e31p-1)%float
  then (-0x1.c6a7ef9db22d5p-6)%float
  else (-0x1.c6a7ef9db22c6p-6)%float.

(** A coarse [log10]: the whole number of decades of its argument, from 0
    to 3. It is a monotone step function, and agrees with the C library's
    [log10] at 1, 10, 100 and 1000. *)
Definition log10_decades (x : float) : float :=
  if (x <? 10)%float then 0%float
  else if (x <? 100)%float then 1%float
  else if (x <? 1000)%float then 2%float
  else 3%float.

(** An instrument on the bench: it answers every query the scripts send with
    a reading, and the time query with its uptime. *)
Definition bench : instrument :=
  {| answer := fun n cmd =>
       if String.eqb cmd "SYST:TIM?" then Reply (str_of_Z (3725000 + 40 * Z.of_nat n))
       else if String.eqb cmd "FETC:FORW?" then Reply "2.512345E+01"
       else if String.eqb cmd "FETC:REFL?" then Reply "1.25E-01"
       else if String.eqb cmd "FETC:VSWR?" then Reply "1.152"
       else if String.eqb cmd "FETC:TEMP?" then Reply "31.5"
       else if String.eqb cmd "MEAS:BAND?" then Reply "1"
       else NoReply;
     asked := O;
     sent := [] |}.

(** The same instrument when the forward power is out of range: it answers
    the forward power query with a word. *)
Definition overrange : instrument :=
  {| answer := fun n cmd =>
       if String.eqb cmd "FETC:FORW?" then Reply "OVER" else answer bench n cmd;
     asked := O;
     sent := [] |}.

(** A clock that advances by 700.25 seconds between two readings. *)
Definition slow_clock (n : nat) : float :=
  (1700000000 + 700.25 * SF2Prim (binary_normalize prec emax (Z.of_nat n) 0 false))%float.

(** The queries of one iteration of the monitor, in order. *)
Definition monitor_queries : list string :=
  [ "SYST:TIM?"; "FETC:FORW?"; "FETC:REFL?"; "FETC:VSWR?"; "FETC:TEMP?";
    "SYST:TIM?"; "MEAS:BAND?" ]%string.

(** The queries of one iteration of the logger, in order. *)
Definition logger_queries : list string :=
  [ "FETC:FORW?"; "FETC:REFL?"; "FETC:VSWR?"; "FETC:TEMP?" ]%string.

(** The reply to a time or band query is read by [int], the reply to a
    [FETC] query by [float] after [strip]. *)
Definition readable (cmd : string) (r : reply) : Prop :=
  match r with
  | Reply s =>
      if (String.eqb cmd "SYST:TIM?" || String.eqb cmd "MEAS:BAND?")%bool
      then exists z, int_of_string s = Ok z
      else exists x, float_of_string (strip s) = Ok x
  | NoReply => False
  end.

(** The instrument answers the queries [cmds], sent one after the other from
    its present state, with readable replies. *)
Fixpoint all_readable (d : instrument) (k : nat) (cmds : list string) : Prop :=
  match cmds with
  | [] => True
  | cmd :: cmds' =>
      readable cmd (answer d (asked d + k)%nat cmd) /\ all_readable d (S k) cmds'
  end.

(** ** What a computation does to the file and to the link *)

(** A computation that leaves a part of the world as it is, whatever its
    result. *)
Definition keeps {W A X : Type} (f : W -> X) (c : M W A) : Prop :=
  forall w r w', c w = (r, w') -> f w' = f w.

Module MonitorSpec.

Import Monitor.

(** The iteration either runs to its end and appends one row, or raises
    and appends none. *)
Definition one_row_or_none {A : Type} (c : M world A) : Prop :=
  forall w r w', c w = (r, w') ->
    match r with
    | Ok _ => exists x, csvfile w' = csvfile w ++ [x]
    | Raise _ => csvfile w' = csvfile w
    end.

(** An iteration that runs to its end got readable replies to [cmds]. *)
Definition reads {A : Type} (cmds : list string) (c : M world A) : Prop :=
  forall w a w', c w = (Ok a, w') -> all_readable (my4480 w) 0 cmds.

End MonitorSpec.

Module LoggerSpec.

Import Logger.

(** The iteration either runs to its end and appends one row, or raises
    and appends none. *)
Definition one_row_or_none {A : Type} (c : M world A) : Prop :=
  forall w r w', c w = (r, w') ->
    match r with
    | Ok _ => exists x, file w' = file w ++ [x]
    | Raise _ => file w' = file w
    end.

(** An iteration that runs to its end got readable replies to [cmds]. *)
Definition reads {A : Type} (cmds : list string) (c : M world A) : Prop :=
  forall w a w', c w = (Ok a, w') -> all_readable (my4480 w) 0 cmds.

End LoggerSpec.

(** ** Tables and lines *)

(** Rows that carry their own number in cell [c]: the first row holds 1,
    the next one 2, and so on. *)
Definition numbered (c : nat) (rows : list row) : Prop :=
  forall k r, nth_error rows k = Some r ->
    nth_error r c = Some (PyInt (Z.of_nat k + 1)).

(** A table: a header row, and below it rows of as many cells. *)
Definition table (head : row) (f : list row) : Prop :=
  exists rows,
    f = head :: rows /\
    Forall (fun r => List.length r = List.length head) rows.

(** A progress line of the logger. *)
Definition progress_line (s : string) : Prop :=
  exists x : float, s = ("Elapsed time: " ++ format_f 3 x ++ " s")%string.

(** The messages of [n] iterations of the logger, in the order sent. *)
Fixpoint rounds (n : nat) (cmds : list string) : list string :=
  match n with
  | O => []
  | S n' => cmds ++ rounds n' cmds
  end.

(** * Properties *)

(** ** Binary64: the number of bits of a mantissa *)

Lemma digits2_pos_size (p : positive) : digits2_pos p = Pos.size p.
Proof. induction p; simpl; congruence. Qed.

Lemma Zdigits2_log2 (n : Z) : 0 < n -> Zdigits2 n = Z.log2 n + 1.
Proof.
  destruct n as [|p|p]; try lia. intros _. simpl.
  rewrite digits2_pos_size.
  destruct p; simpl; rewrite ?Pos.add_1_r; try reflexivity.
Qed.

Lemma Zdigits2_nonneg (n : Z) : 0 <= Zdigits2 n.
Proof. destruct n; simpl; lia. Qed.

Lemma Zdigits2_pos (n : Z) : 0 < n -> 0 < Zdigits2 n.
Proof. destruct n; simpl; lia. Qed.

Lemma Zdigits2_bounds (n : Z) :
  0 < n -> 2 ^ (Zdigits2 n - 1) <= n < 2 ^ Zdigits2 n.
Proof.
  intros H. rewrite (Zdigits2_log2 n H).
  replace (Z.log2 n + 1 - 1) with (Z.log2 n) by lia.
  replace (Z.log2 n + 1) with (Z.succ (Z.log2 n)) by lia.
  apply Z.log2_spec; assumption.
Qed.

Lemma Zdigits2_unique (n d : Z) :
  0 < d -> 2 ^ (d - 1) <= n < 2 ^ d -> Zdigits2 n = d.
Proof.
  intros Hd H.
  assert (0 < n) by (assert (0 < 2 ^ (d - 1)) by (apply Z.pow_pos_nonneg; lia); lia).
  rewrite (Zdigits2_log2 n) by assumption.
  rewrite (Z.log2_unique n (d - 1)); try lia.
  replace (Z.succ (d - 1)) with d by lia. assumption.
Qed.

Lemma Zdigits2_le (n m : Z) : 0 <= n -> n <= m -> Zdigits2 n <= Zdigits2 m.
Proof.
  intros Hn H. destruct (Z.eq_dec n 0) as [->|Hz].
  - apply Zdigits2_nonneg.
  - rewrite !Zdigits2_log2 by lia.
    apply Z.add_le_mono_r, Z.log2_le_mono; assumption.
Qed.

(** The bits that remain of [n] once [k] of them are shifted out. *)
Lemma Zdigits2_div_pow2 (n k : Z) :
  0 <= n -> 0 <= k -> Zdigits2 (n / 2 ^ k) = Z.max (Zdigits2 n - k) 0.
Proof.
  intros Hn Hk.
  assert (Hp : 0 < 2 ^ k) by (apply Z.pow_pos_nonneg; lia).
  destruct (Z.eq_dec n 0) as [->|Hz].
  { rewrite Z.div_0_l by lia. simpl. lia. }
  pose proof (Zdigits2_bounds n ltac:(lia)) as [Hlo Hhi].
  pose proof (Zdigits2_pos n ltac:(lia)) as Hd.
  destruct (Z_lt_le_dec k (Zdigits2 n)) as [Hlt|Hge].
  - rewrite Z.max_l by lia.
    apply Zdigits2_unique; [lia|].
    split.
    + apply Z.div_le_lower_bound; [lia|].
      rewrite <- Z.pow_add_r by lia.
      replace (k + (Zdigits2 n - k - 1)) with (Zdigits2 n - 1) by lia. assumption.
    + apply Z.div_lt_upper_bound; [lia|].
      rewrite <- Z.pow_add_r by lia.
      replace (k + (Zdigits2 n - k)) with (Zdigits2 n) by lia. assumption.
  - rewrite Z.max_r by lia.
    rewrite Z.div_small; [reflexivity|].
    split; [lia|].
    apply Z.lt_le_trans with (1 := Hhi).
    apply Z.pow_le_mono_r; lia.
Qed.

(** ** Binary64: shifting a mantissa to the right *)

Lemma shr_record_of_loc_inv (r : shr_record) :
  shr_record_of_loc (shr_m r) (loc_of_shr_record r) = r.
Proof. destruct r as [m [|] [|]]; reflexivity. Qed.

Lemma loc_of_shr_record_of_loc (m : Z) (l : location) :
  loc_of_shr_record (shr_record_of_loc m l) = l.
Proof. destruct l as [|[| |]]; reflexivity. Qed.

Lemma shr_m_record_of_loc (m : Z) (l : location) :
  shr_m (shr_record_of_loc m l) = m.
Proof. destruct l as [|[| |]]; reflexivity. Qed.

Lemma shr_1_m (r : shr_record) :
  0 <= shr_m r -> shr_m (shr_1 r) = shr_m r / 2.
Proof.
  destruct r as [m rb sb]; simpl. intros Hm.
  destruct m as [|[p|p|]|p]; simpl; try lia; try reflexivity.
  - rewrite Pos2Z.inj_xI. apply (Z.div_unique _ 2 _ 1); lia.
  - rewrite Pos2Z.inj_xO. apply (Z.div_unique _ 2 _ 0); lia.
Qed.

Lemma shr_1_loc (r : shr_record) :
  0 <= shr_m r ->
  loc_of_shr_record (shr_1 r) =
    match Z.odd (shr_m r), loc_of_shr_record r with
    | false, loc_Exact => loc_Exact
    | false, _ => loc_Inexact Lt
    | true, loc_Exact => loc_Inexact Eq
    | true, _ => loc_Inexact Gt
    end.
Proof.
  destruct r as [m rb sb]; simpl. intros Hm.
  destruct m as [|[p|p|]|p]; try lia; destruct rb, sb; reflexivity.
Qed.

Lemma located_shr_1 (a b : Z) (r : shr_record) :
  located a b (shr_m r) (loc_of_shr_record r) ->
  located a (2 * b) (shr_m (shr_1 r)) (loc_of_shr_record (shr_1 r)).
Proof.
  intros (Hb & Ha & Hm & Hl).
  assert (Hm0 : 0 <= shr_m r) by (rewrite Hm; apply Z.div_pos; lia).
  rewrite shr_1_m, shr_1_loc by assumption.
  rewrite Hl. clear Hl.
  pose proof (Z.div_mod a b ltac:(lia)) as Hdm.
  pose proof (Z.mod_pos_bound a b Hb) as Hr.
  pose proof (Z.div_mod (a / b) 2 ltac:(lia)) as Hdm2.
  pose proof (Z.mod_pos_bound (a / b) 2 ltac:(lia)) as Hr2.
  assert (Hq : a / (2 * b) = a / b / 2).
  { rewrite (Z.mul_comm 2 b). symmetry. apply Z.div_div; lia. }
  assert (Hrem : a mod (2 * b) = b * ((a / b) mod 2) + a mod b).
  { pose proof (Z.div_mod a (2 * b) ltac:(lia)) as H3. rewrite Hq in H3. nia. }
  repeat split; try lia.
  - rewrite Hm. symmetry. exact Hq.
  - rewrite Hrem, Hm. pose proof (Zmod_odd (a / b)) as Hodd.
    unfold loc_of.
    destruct (Z.odd (a / b)); rewrite Hodd.
    + rewrite Z.mul_1_r.
      destruct (Z.eqb_spec (a mod b) 0) as [E0|E0].
      * rewrite E0, Z.add_0_r.
        destruct (Z.eqb_spec b 0); [lia|].
        f_equal. symmetry. apply Z.compare_eq_iff. lia.
      * destruct (Z.eqb_spec (b + a mod b) 0); [lia|].
        destruct (2 * (a mod b) ?= b); f_equal; symmetry; apply Z.compare_gt_iff; lia.
    + rewrite Z.mul_0_r, Z.add_0_l.
      destruct (Z.eqb_spec (a mod b) 0) as [E0|E0]; [reflexivity|].
      destruct (2 * (a mod b) ?= b); f_equal; symmetry; apply Z.compare_lt_iff; lia.
Qed.

Lemma located_iter_shr_1 (p : positive) : forall (a b : Z) (r : shr_record),
  located a b (shr_m r) (loc_of_shr_record r) ->
  located a (b * 2 ^ Zpos p) (shr_m (iter_pos shr_1 p r))
    (loc_of_shr_record (iter_pos shr_1 p r)).
Proof.
  induction p as [p IH|p IH|]; intros a b r H; simpl iter_pos.
  - apply located_shr_1 in H. apply IH in H. apply IH in H.
    replace (b * 2 ^ Zpos p~1) with (2 * b * 2 ^ Zpos p * 2 ^ Zpos p); [exact H|].
    replace (Zpos p~1) with (Zpos p + Zpos p + 1) by lia.
    rewrite !Z.pow_add_r by lia. ring.
  - apply IH in H. apply IH in H.
    replace (b * 2 ^ Zpos p~0) with (b * 2 ^ Zpos p * 2 ^ Zpos p); [exact H|].
    replace (Zpos p~0) with (Zpos p + Zpos p) by lia.
    rewrite !Z.pow_add_r by lia. ring.
  - apply located_shr_1 in H. rewrite Z.pow_1_r, Z.mul_comm. exact H.
Qed.

Lemma located_shr (a b m : Z) (l : location) (e n : Z) :
  located a b m l -> 0 <= n ->
  exists r,
    shr (shr_record_of_loc m l) e n = (r, e + n) /\
    located a (b * 2 ^ n) (shr_m r) (loc_of_shr_record r).
Proof.
  intros H Hn. destruct n as [|p|p]; try lia.
  - exists (shr_record_of_loc m l). simpl.
    rewrite Z.add_0_r, Z.mul_1_r, shr_m_record_of_loc, loc_of_shr_record_of_loc.
    split; [reflexivity|exact H].
  - exists (iter_pos shr_1 p (shr_record_of_loc m l)). split; [reflexivity|].
    apply located_iter_shr_1.
    rewrite shr_m_record_of_loc, loc_of_shr_record_of_loc. exact H.
Qed.

Lemma shr_nonpos (r : shr_record) (e n : Z) : n <= 0 -> shr r e n = (r, e).
Proof. destruct n; try reflexivity; lia. Qed.

(** ** Rounding a rational to the nearest integer, ties to even *)

Lemma round_nearest_even_located (a b m : Z) (l : location) :
  located a b m l -> round_nearest_even m l = round_half_even_div a b.
Proof.
  intros (Hb & Ha & -> & ->).
  unfold round_half_even_div, loc_of, round_nearest_even.
  pose proof (Z.mod_pos_bound a b Hb) as Hr.
  destruct (Z.eqb_spec (a mod b) 0) as [E|E].
  - rewrite E. simpl (2 * 0).
    replace (0 ?= b) with Lt by (symmetry; apply Z.compare_lt_iff; lia).
    reflexivity.
  - destruct (2 * (a mod b) ?= b); reflexivity.
Qed.

Lemma round_half_even_div_bounds (a b : Z) :
  0 < b -> a / b <= round_half_even_div a b <= a / b + 1.
Proof.
  intros Hb. unfold round_half_even_div.
  destruct (2 * (a mod b) ?= b); try destruct (Z.even (a / b)); lia.
Qed.

(** The rounding is monotone in the rational it rounds. *)
Lemma round_half_even_div_mono (a b a' b' : Z) :
  0 < b -> 0 < b' -> a * b' <= a' * b ->
  round_half_even_div a b <= round_half_even_div a' b'.
Proof.
  intros Hb Hb' H.
  pose proof (Z.div_mod a b ltac:(lia)) as Hd.
  pose proof (Z.mod_pos_bound a b Hb) as Hr.
  pose proof (Z.div_mod a' b' ltac:(lia)) as Hd'.
  pose proof (Z.mod_pos_bound a' b' Hb') as Hr'.
  assert (Hq : a / b <= a' / b').
  { apply Z.div_le_lower_bound; [lia|].
    (* b' * (a / b) <= a' *)
    apply Z.mul_le_mono_pos_r with (p := b); [lia|].
    nia. }
  unfold round_half_even_div.
  destruct (Z.eq_dec (a / b) (a' / b')) as [E|E].
  - (* same integer part: compare the fractions *)
    rewrite <- E in *.
    assert (Hfrac : a mod b * b' <= a' mod b' * b) by nia.
    destruct (Z.compare_spec (2 * (a mod b)) b) as [C|C|C];
      destruct (Z.compare_spec (2 * (a' mod b')) b') as [C'|C'|C'];
      try destruct (Z.even (a / b)); try lia; exfalso; nia.
  - assert (a / b + 1 <= a' / b') by lia.
    destruct (2 * (a mod b) ?= b); destruct (2 * (a' mod b') ?= b');
      try destruct (Z.even (a / b)); try destruct (Z.even (a' / b')); lia.
Qed.

(** It depends on the rational only, not on the fraction that denotes it. *)
Lemma round_half_even_div_ratio (a b a' b' : Z) :
  0 < b -> 0 < b' -> a * b' = a' * b ->
  round_half_even_div a b = round_half_even_div a' b'.
Proof.
  intros Hb Hb' H. apply Z.le_antisymm; apply round_half_even_div_mono; lia.
Qed.

Lemma round_half_even_div_exact (q b : Z) :
  0 < b -> round_half_even_div (q * b) b = q.
Proof.
  intros Hb. unfold round_half_even_div.
  rewrite Z.mod_mul, Z.div_mul by lia. simpl (2 * 0).
  replace (0 ?= b) with Lt by (symmetry; apply Z.compare_lt_iff; lia).
  reflexivity.
Qed.

Lemma div_le_cross (a b a' b' : Z) :
  0 < b -> 0 < b' -> a * b' <= a' * b -> a / b <= a' / b'.
Proof.
  intros Hb Hb' H.
  pose proof (Z.div_mod a b ltac:(lia)) as Hd.
  pose proof (Z.mod_pos_bound a b Hb) as Hr.
  apply Z.div_le_lower_bound; [lia|].
  apply Z.mul_le_mono_pos_r with (p := b); [lia|]. nia.
Qed.

Lemma div_eq_cross (a b a' b' : Z) :
  0 < b -> 0 < b' -> a * b' = a' * b -> a / b = a' / b'.
Proof. intros. apply Z.le_antisymm; apply div_le_cross; lia. Qed.

Lemma iter_xO_pow2 (m d : positive) : Zpos (Pos.iter xO m d) = Zpos m * 2 ^ Zpos d.
Proof.
  induction d as [|d IH] using Pos.peano_ind.
  - simpl. lia.
  - rewrite Pos.iter_succ, Pos2Z.inj_xO, IH, Pos2Z.inj_succ, Z.pow_succ_r by lia. ring.
Qed.

Lemma shl_align_spec (m : positive) (e e0 : Z) :
  snd (shl_align m e e0) = Z.min e e0 /\
  Zpos (fst (shl_align m e e0)) = Zpos m * 2 ^ (e - Z.min e e0).
Proof.
  unfold shl_align. destruct (e0 - e) as [|d|d] eqn:E; cbn [fst snd].
  - rewrite Z.min_l by lia. rewrite Z.sub_diag. lia.
  - rewrite Z.min_l by lia. rewrite Z.sub_diag. lia.
  - rewrite Z.min_r by lia. split; [reflexivity|].
    rewrite iter_xO_pow2. f_equal. f_equal. lia.
Qed.


Lemma Zdigits2_mul_pow2 (m k : Z) :
  0 < m -> 0 <= k -> Zdigits2 (m * 2 ^ k) = Zdigits2 m + k.
Proof.
  intros Hm Hk. pose proof (Zdigits2_bounds m Hm) as [Hlo Hhi].
  pose proof (Zdigits2_pos m Hm) as Hd.
  assert (0 < 2 ^ k) by (apply Z.pow_pos_nonneg; lia).
  apply Zdigits2_unique; [lia|].
  replace (Zdigits2 m + k - 1) with (Zdigits2 m - 1 + k) by lia.
  rewrite !Z.pow_add_r by lia. split; nia.
Qed.

Lemma Zdigits2_pow2 (k : Z) : 0 <= k -> Zdigits2 (2 ^ k) = k + 1.
Proof.
  intros Hk. apply Zdigits2_unique; [lia|].
  replace (k + 1 - 1) with k by lia. split; [lia|].
  apply Z.pow_lt_mono_r; lia.
Qed.

Lemma Zdigits2_lt_pow2 (m k : Z) : 0 <= m -> 0 <= k -> Zdigits2 m <= k -> m < 2 ^ k.
Proof.
  intros Hm Hk H. destruct (Z.eq_dec m 0) as [->|Hz].
  - apply Z.pow_pos_nonneg; lia.
  - pose proof (Zdigits2_bounds m ltac:(lia)) as [_ Hhi].
    apply Z.lt_le_trans with (1 := Hhi). apply Z.pow_le_mono_r; lia.
Qed.

Lemma Zdigits2_ge_pow2 (m k : Z) : 0 < k -> k <= Zdigits2 m -> 0 <= m -> 2 ^ (k - 1) <= m.
Proof.
  intros Hk H Hm. destruct (Z.eq_dec m 0) as [->|Hz].
  - simpl in H. lia.
  - pose proof (Zdigits2_bounds m ltac:(lia)) as [Hlo _].
    apply Z.le_trans with (2 := Hlo). apply Z.pow_le_mono_r; lia.
Qed.


Lemma new_location_spec (nb k : Z) :
  0 <= k < nb -> new_location nb k = loc_of k nb.
Proof.
  intros Hk. unfold new_location, loc_of.
  destruct (Z.even nb) eqn:Ev.
  - reflexivity.
  - unfold new_location_odd. destruct (Z.eqb_spec k 0); [reflexivity|].
    pose proof (Zmod_even nb) as Hm. rewrite Ev in Hm.
    pose proof (Z.div_mod nb 2 ltac:(lia)) as Hd.
    f_equal.
    destruct (Z.compare_spec (2 * k + 1) nb) as [C|C|C]; symmetry;
      [apply Z.compare_lt_iff | apply Z.compare_lt_iff | apply Z.compare_gt_iff]; lia.
Qed.

(** The quotient of two positive integers keeps at least the difference of
    their numbers of bits. *)
Lemma Zdigits2_div_ge (a b : Z) :
  0 < a -> 0 < b -> Zdigits2 a - Zdigits2 b <= Zdigits2 (a / b).
Proof.
  intros Ha Hb.
  pose proof (Zdigits2_nonneg (a / b)) as Hq.
  destruct (Z_le_gt_dec (Zdigits2 a - Zdigits2 b) 0) as [|Hk]; [lia|].
  pose proof (Zdigits2_bounds a Ha) as [Hlo _].
  pose proof (Zdigits2_bounds b Hb) as [_ Hhi].
  pose proof (Zdigits2_pos b Hb) as Hdb.
  set (k := Zdigits2 a - Zdigits2 b) in *.
  assert (H : 2 ^ (k - 1) <= a / b).
  { apply Z.div_le_lower_bound; [lia|].
    apply Z.le_trans with (2 := Hlo).
    apply Z.le_trans with (m := 2 ^ Zdigits2 b * 2 ^ (k - 1)).
    - apply Z.mul_le_mono_nonneg_r; [apply Z.pow_nonneg|]; lia.
    - rewrite <- Z.pow_add_r by lia. apply Z.pow_le_mono_r; unfold k; lia. }
  pose proof (Zdigits2_le (2 ^ (k - 1)) (a / b)
                ltac:(apply Z.pow_nonneg; lia) H) as Hle.
  rewrite Zdigits2_pow2 in Hle by lia. lia.
Qed.

Lemma Zdigits2_mul_ge (a b : Z) :
  0 < a -> 0 < b -> Zdigits2 a + Zdigits2 b - 1 <= Zdigits2 (a * b).
Proof.
  intros Ha Hb.
  pose proof (Zdigits2_bounds a Ha) as [Hla _].
  pose proof (Zdigits2_bounds b Hb) as [Hlb _].
  pose proof (Zdigits2_pos a Ha) as Hda.
  pose proof (Zdigits2_pos b Hb) as Hdb.
  assert (H : 2 ^ (Zdigits2 a + Zdigits2 b - 2) <= a * b).
  { replace (Zdigits2 a + Zdigits2 b - 2) with ((Zdigits2 a - 1) + (Zdigits2 b - 1)) by lia.
    rewrite Z.pow_add_r by lia.
    apply Z.mul_le_mono_nonneg; try assumption; apply Z.pow_nonneg; lia. }
  pose proof (Zdigits2_le (2 ^ (Zdigits2 a + Zdigits2 b - 2)) (a * b)
                ltac:(apply Z.pow_nonneg; lia) H) as Hle.
  rewrite Zdigits2_pow2 in Hle by lia. lia.
Qed.

(** Powers of two with the same difference of exponents denote the same
    ratio. *)
Lemma pow2_cross (p q p' q' : Z) :
  0 <= p -> 0 <= q -> 0 <= p' -> 0 <= q' -> p + q' = p' + q ->
  2 ^ p * 2 ^ q' = 2 ^ p' * 2 ^ q.
Proof. intros. rewrite <- !Z.pow_add_r by lia. f_equal. assumption. Qed.
Section Format.

Variables prec emax : Z.
Hypothesis prec_gt_1 : 1 < prec.
Hypothesis prec_lt_emax : prec < emax.

Lemma prec_gt_0 : 0 < prec.
Proof. lia. Qed.

Abbreviation emin := (SpecFloat.emin prec emax).
Abbreviation fexp := (SpecFloat.fexp prec emax).

Lemma fexp_ge_emin (x : Z) : emin <= fexp x.
Proof. unfold SpecFloat.fexp. lia. Qed.

(** The number of bits that the rounding drops from [a / b * 2 ^ e]. *)
Lemma bits_over_units (a b m e : Z) (l : location) :
  located a b m l -> e <= fexp (Zdigits2 m + e) ->
  bits_over prec (units_num prec emax a e) (units_den prec emax b e)
  = fexp (Zdigits2 m + e) - emin.
Proof.
  intros (Hb & Ha & Hm & _) He.
  assert (Hm0 : 0 <= m) by (rewrite Hm; apply Z.div_pos; lia).
  pose proof (Zdigits2_nonneg m) as Hd0.
  unfold bits_over, units_num, units_den.
  destruct (Z.leb_spec emin e) as [Hle|Hlt].
  - (* e is at least emin *)
    set (k := e - emin). assert (Hk : 0 <= k) by (unfold k; lia).
    assert (H2k : 0 < 2 ^ k) by (apply Z.pow_pos_nonneg; lia).
    destruct (Z.eq_dec m 0) as [Hz|Hz].
    + rewrite Hz in *. simpl Zdigits2 in *.
      assert (e = emin) by (unfold SpecFloat.fexp in He; lia).
      assert (k = 0) by (unfold k; lia).
      replace (2 ^ k) with 1 by (subst k; rewrite H0; reflexivity).
      rewrite Z.mul_1_r, <- Hm. simpl Zdigits2.
      unfold SpecFloat.fexp. lia.
    + pose proof (Zdigits2_bounds m ltac:(lia)) as [Hlo Hhi].
      pose proof (Zdigits2_pos m ltac:(lia)) as Hd.
      pose proof (Z.div_mod a b ltac:(lia)) as Hdm.
      pose proof (Z.mod_pos_bound a b Hb) as Hr.
      rewrite <- Hm in Hdm.
      assert (HD : Zdigits2 (a * 2 ^ k / b) = Zdigits2 m + k).
      { apply Zdigits2_unique; [lia|]. split.
        - apply Z.div_le_lower_bound; [lia|].
          replace (Zdigits2 m + k - 1) with (Zdigits2 m - 1 + k) by lia.
          rewrite (Z.pow_add_r 2 (Zdigits2 m - 1) k) by lia.
          assert (b * 2 ^ (Zdigits2 m - 1) <= a) by nia.
          rewrite Z.mul_assoc. apply Z.mul_le_mono_nonneg_r; lia.
        - apply Z.div_lt_upper_bound; [lia|].
          rewrite (Z.pow_add_r 2 (Zdigits2 m) k) by lia.
          assert (a < b * 2 ^ Zdigits2 m) by nia.
          rewrite Z.mul_assoc. apply Z.mul_lt_mono_pos_r; lia. }
      rewrite HD. unfold SpecFloat.fexp, k. lia.
  - (* e is below emin *)
    set (k := emin - e). assert (Hk : 0 < k) by (unfold k; lia).
    assert (H2k : 0 < 2 ^ k) by (apply Z.pow_pos_nonneg; lia).
    rewrite <- Z.div_div by lia. rewrite <- Hm.
    rewrite Zdigits2_div_pow2 by lia.
    unfold SpecFloat.fexp, k. lia.
Qed.

(** The rational that the rounding rounds, as a number of units of the
    exponent the result takes. *)
Lemma round_half_even_div_units (a b e e1 : Z) :
  0 < b -> e <= e1 -> emin <= e1 ->
  round_half_even_div (units_num prec emax a e)
    (units_den prec emax b e * 2 ^ (e1 - emin))
  = round_half_even_div a (b * 2 ^ (e1 - e)).
Proof.
  intros Hb He He1.
  assert (0 < 2 ^ (e1 - emin)) by (apply Z.pow_pos_nonneg; lia).
  assert (0 < 2 ^ (e1 - e)) by (apply Z.pow_pos_nonneg; lia).
  unfold units_num, units_den.
  destruct (Z.leb_spec emin e) as [Hle|Hlt].
  - apply round_half_even_div_ratio; try nia.
    replace (e1 - emin) with ((e - emin) + (e1 - e)) by lia.
    rewrite Z.pow_add_r by lia. ring.
  - assert (0 < 2 ^ (emin - e)) by (apply Z.pow_pos_nonneg; lia).
    apply round_half_even_div_ratio; try nia.
    replace (e1 - e) with ((emin - e) + (e1 - emin)) by lia.
    rewrite Z.pow_add_r by lia. ring.
Qed.

(** What [binary_round_aux] computes: the mantissa [m] at the exponent [e]
    with the location [l] stands for the rational [a / b * 2 ^ e]; the
    result is the nearest number of the format, or an infinity. *)
Lemma binary_round_aux_spec (s : bool) (a b m e : Z) (l : location) :
  located a b m l -> e <= fexp (Zdigits2 m + e) ->
  binary_round_aux prec emax s m e l
  = pack prec emax s
      (round_units prec (units_num prec emax a e) (units_den prec emax b e)).
Proof.
  intros Hloc He.
  pose proof (bits_over_units a b m e l Hloc He) as Hbits.
  unfold round_units. rewrite Hbits.
  set (e1 := fexp (Zdigits2 m + e)) in *.
  assert (He1 : emin <= e1) by apply fexp_ge_emin.
  destruct Hloc as (Hb & Ha & Hm & Hl).
  rewrite round_half_even_div_units by lia.
  assert (Hm0 : 0 <= m) by (rewrite Hm; apply Z.div_pos; lia).
  unfold binary_round_aux, shr_fexp. fold e1.
  destruct (located_shr a b m l e (e1 - e)) as (r1 & Hs1 & Hl1);
    [repeat split; assumption | lia |].
  rewrite Hs1. replace (e + (e1 - e)) with e1 by lia.
  rewrite (round_nearest_even_located _ _ _ _ Hl1).
  destruct Hl1 as (Hb1 & _ & Hm1 & _).
  set (m2 := round_half_even_div a (b * 2 ^ (e1 - e))).
  set (t := e1 - emin). assert (Ht : 0 <= t) by (unfold t; lia).
  assert (H2t : 0 < 2 ^ t) by (apply Z.pow_pos_nonneg; lia).
  (* the mantissa after the first shift *)
  assert (Hm1' : shr_m r1 = m / 2 ^ (e1 - e)).
  { rewrite Hm1, Hm. symmetry. apply Z.div_div; [lia|]. apply Z.pow_pos_nonneg; lia. }
  assert (Hd1 : Zdigits2 (shr_m r1) = Z.max (Zdigits2 m - (e1 - e)) 0).
  { rewrite Hm1'. apply Zdigits2_div_pow2; lia. }
  assert (Hm1pos : 0 <= shr_m r1).
  { rewrite Hm1'. apply Z.div_pos; [lia|]. apply Z.pow_pos_nonneg; lia. }
  assert (Hd1le : Zdigits2 (shr_m r1) <= prec).
  { rewrite Hd1. unfold e1, SpecFloat.fexp. lia. }
  assert (Hm1lt : shr_m r1 < 2 ^ prec) by (apply Zdigits2_lt_pow2; lia).
  assert (Hm1big : 0 < t -> 2 ^ (prec - 1) <= shr_m r1).
  { intros Htpos. apply Zdigits2_ge_pow2; try lia.
    rewrite Hd1. unfold t, e1, SpecFloat.fexp in *. lia. }
  pose proof (round_half_even_div_bounds a (b * 2 ^ (e1 - e)) Hb1) as Hm2.
  fold m2 in Hm2. rewrite <- Hm1 in Hm2.
  change (shr_record_of_loc m2 loc_Exact)
    with {| shr_m := m2; shr_r := false; shr_s := false |}.
  unfold pack.
  destruct (Z.eq_dec m2 0) as [Hz|Hnz].
  - (* the result is zero *)
    rewrite Hz. simpl Zdigits2. rewrite Z.mul_0_l. simpl Zdigits2.
    rewrite shr_nonpos by (unfold SpecFloat.fexp; lia).
    simpl shr_m. rewrite Z.div_0_l; [reflexivity|].
    apply Z.pow_nonzero; lia.
  - assert (Hm2pos : 0 < m2) by lia.
    destruct (Z.eq_dec m2 (2 ^ prec)) as [Htop|Hntop].
    + (* the rounding carried into one more bit *)
      rewrite Htop, Zdigits2_pow2 by lia.
      replace (fexp (prec + 1 + e1) - e1) with 1 by (unfold SpecFloat.fexp; lia).
      cbv beta iota delta [shr iter_pos].
      rewrite <- Z.pow_add_r by lia.
      rewrite Zdigits2_pow2 by lia.
      replace (Z.max (prec + t + 1 - prec) 0) with (t + 1) by lia.
      replace (2 ^ (prec + t) / 2 ^ (t + 1)) with (2 ^ (prec - 1)).
      2:{ replace (prec + t) with ((prec - 1) + (t + 1)) by lia.
          rewrite Z.pow_add_r by lia. rewrite Z.div_mul; [reflexivity|].
          apply Z.pow_nonzero; lia. }
      assert (E : shr_m (shr_1 {| shr_m := 2 ^ prec; shr_r := false; shr_s := false |})
                  = 2 ^ (prec - 1)).
      { rewrite shr_1_m by (simpl; lia). simpl shr_m.
        replace prec with ((prec - 1) + 1) at 1 by lia.
        rewrite Z.pow_add_r by lia. apply Z.div_mul. lia. }
      rewrite E.
      replace (t + 1 + emin) with (e1 + 1) by (unfold t; lia).
      assert (Hp : 0 < 2 ^ (prec - 1)) by (apply Z.pow_pos_nonneg; lia).
      destruct (2 ^ (prec - 1)); try lia; reflexivity.
    + (* the mantissa fits *)
      assert (Hm2lt : m2 < 2 ^ prec) by lia.
      assert (Hd2 : Zdigits2 m2 <= prec).
      { destruct (Z_le_gt_dec (Zdigits2 m2) prec) as [|Hgt]; [assumption|].
        pose proof (Zdigits2_ge_pow2 m2 (prec + 1) ltac:(lia) ltac:(lia) ltac:(lia)).
        replace (prec + 1 - 1) with prec in * by lia. lia. }
      rewrite shr_nonpos by (unfold SpecFloat.fexp; lia).
      simpl shr_m.
      rewrite Zdigits2_mul_pow2 by lia.
      assert (Hd2' : 0 < t -> Zdigits2 m2 = prec).
      { intros Htpos. specialize (Hm1big Htpos).
        apply Zdigits2_unique; lia. }
      replace (Z.max (Zdigits2 m2 + t - prec) 0) with t by lia.
      rewrite Z.div_mul by lia.
      replace (t + emin) with e1 by (unfold t; lia).
      destruct m2; try lia; reflexivity.
Qed.



Lemma bits_over_nonneg (a b : Z) : 0 <= bits_over prec a b.
Proof. unfold bits_over. lia. Qed.

(** The shape of a rounded number: a mantissa of at most [prec] bits, of
    exactly [prec] bits when bits were dropped, or [2 ^ prec] after a carry. *)
Lemma round_units_shape (a b : Z) :
  0 <= a -> 0 < b ->
  let t := bits_over prec a b in
  let m := round_half_even_div a (b * 2 ^ t) in
  round_units prec a b = m * 2 ^ t /\
  a / b / 2 ^ t <= m <= a / b / 2 ^ t + 1 /\
  0 <= m <= 2 ^ prec /\
  (0 < t -> 2 ^ (prec - 1) <= m).
Proof.
  intros Ha Hb t m.
  assert (Ht : 0 <= t) by apply bits_over_nonneg.
  assert (H2t : 0 < 2 ^ t) by (apply Z.pow_pos_nonneg; lia).
  assert (Hq : 0 <= a / b) by (apply Z.div_pos; lia).
  assert (Hq' : 0 <= a / b / 2 ^ t) by (apply Z.div_pos; lia).
  pose proof (round_half_even_div_bounds a (b * 2 ^ t) ltac:(nia)) as Hm.
  fold m in Hm. rewrite <- Z.div_div in Hm by lia.
  assert (Hd : Zdigits2 (a / b / 2 ^ t) = Z.max (Zdigits2 (a / b) - t) 0)
    by (apply Zdigits2_div_pow2; lia).
  assert (Hdle : Zdigits2 (a / b / 2 ^ t) <= prec).
  { rewrite Hd. unfold t, bits_over. lia. }
  assert (Hlt : a / b / 2 ^ t < 2 ^ prec) by (apply Zdigits2_lt_pow2; lia).
  repeat split; try lia.
  intros Htpos. apply Z.le_trans with (m := a / b / 2 ^ t); [|lia].
  apply Zdigits2_ge_pow2; try lia.
  rewrite Hd. unfold t, bits_over in *. lia.
Qed.

Lemma round_units_nonneg (a b : Z) : 0 <= a -> 0 < b -> 0 <= round_units prec a b.
Proof.
  intros Ha Hb. destruct (round_units_shape a b Ha Hb) as (-> & _ & Hm & _).
  apply Z.mul_nonneg_nonneg; [lia|]. apply Z.pow_nonneg; lia.
Qed.

Lemma fits_mul_pow2 (m t : Z) :
  0 <= m -> 0 <= t -> Zdigits2 m <= prec -> fits prec (m * 2 ^ t).
Proof.
  intros Hm Ht Hd.
  assert (H2t : 0 < 2 ^ t) by (apply Z.pow_pos_nonneg; lia).
  split; [nia|].
  destruct (Z.eq_dec m 0) as [->|Hz].
  { rewrite Z.mul_0_l. apply Z.mod_0_l. apply Z.pow_nonzero; lia. }
  rewrite Zdigits2_mul_pow2 by lia.
  set (k := Z.max (Zdigits2 m + t - prec) 0).
  assert (Hk : 0 <= k <= t) by (unfold k; lia).
  replace t with ((t - k) + k) by lia.
  rewrite (Z.pow_add_r 2 (t - k) k) by lia.
  rewrite Z.mul_assoc. apply Z.mod_mul. apply Z.pow_nonzero; lia.
Qed.

Lemma fits_pow2 (k : Z) : 0 <= k -> fits prec (2 ^ k).
Proof.
  intros Hk. replace (2 ^ k) with (1 * 2 ^ k) by lia.
  apply fits_mul_pow2; simpl; lia.
Qed.

Lemma round_units_fits (a b : Z) : 0 <= a -> 0 < b -> fits prec (round_units prec a b).
Proof.
  intros Ha Hb.
  destruct (round_units_shape a b Ha Hb) as (-> & _ & Hm & _).
  pose proof (bits_over_nonneg a b) as Ht.
  set (t := bits_over prec a b) in *.
  set (m := round_half_even_div a (b * 2 ^ t)) in *.
  destruct (Z.eq_dec m (2 ^ prec)) as [->|Hne].
  - rewrite <- Z.pow_add_r by lia. apply fits_pow2. lia.
  - apply fits_mul_pow2; try lia.
    destruct (Z_le_gt_dec (Zdigits2 m) prec) as [|Hgt]; [assumption|].
    pose proof (Zdigits2_ge_pow2 m (prec + 1) ltac:(lia) ltac:(lia) ltac:(lia)).
    replace (prec + 1 - 1) with prec in * by lia. lia.
Qed.

(** Rounding is monotone. *)
Lemma round_units_mono (a b a' b' : Z) :
  0 <= a -> 0 < b -> 0 < b' -> a * b' <= a' * b ->
  round_units prec a b <= round_units prec a' b'.
Proof.
  intros Ha Hb Hb' H.
  assert (Ha' : 0 <= a') by nia.
  destruct (round_units_shape a b Ha Hb) as (-> & Hfl & Hm & _).
  destruct (round_units_shape a' b' Ha' Hb') as (-> & Hfl' & Hm' & Hbig').
  pose proof (bits_over_nonneg a b) as Ht.
  pose proof (bits_over_nonneg a' b') as Ht'.
  assert (Hq : a / b <= a' / b') by (apply div_le_cross; assumption).
  assert (Hq0 : 0 <= a / b) by (apply Z.div_pos; lia).
  assert (Htt : bits_over prec a b <= bits_over prec a' b').
  { unfold bits_over. pose proof (Zdigits2_le _ _ Hq0 Hq). lia. }
  set (t := bits_over prec a b) in *.
  set (t' := bits_over prec a' b') in *.
  set (m := round_half_even_div a (b * 2 ^ t)) in *.
  set (m' := round_half_even_div a' (b' * 2 ^ t')) in *.
  assert (H2t : 0 < 2 ^ t) by (apply Z.pow_pos_nonneg; lia).
  destruct (Z.eq_dec t t') as [E|E].
  - (* the same exponent *)
    apply Z.mul_le_mono_nonneg; try lia.
    + unfold m, m'. rewrite <- E. apply round_half_even_div_mono; [nia|nia|].
      rewrite !Z.mul_assoc. apply Z.mul_le_mono_nonneg_r; lia.
    + rewrite E. lia.
  - (* a larger exponent: the larger number has a full mantissa *)
    assert (Hlt : t < t') by lia.
    specialize (Hbig' ltac:(lia)).
    apply Z.le_trans with (m := 2 ^ prec * 2 ^ t).
    + apply Z.mul_le_mono_nonneg_r; lia.
    + apply Z.le_trans with (m := 2 ^ (prec - 1) * 2 ^ t').
      * rewrite <- !Z.pow_add_r by lia. apply Z.pow_le_mono_r; lia.
      * apply Z.mul_le_mono_nonneg_r; [|lia]. apply Z.pow_nonneg; lia.
Qed.

Lemma round_units_ratio (a b a' b' : Z) :
  0 <= a -> 0 <= a' -> 0 < b -> 0 < b' -> a * b' = a' * b ->
  round_units prec a b = round_units prec a' b'.
Proof. intros. apply Z.le_antisymm; apply round_units_mono; lia. Qed.

(** A number of the format rounds to itself. *)
Lemma round_units_id (v : Z) : fits prec v -> round_units prec v 1 = v.
Proof.
  intros (Hv & Hmod). unfold round_units, bits_over.
  rewrite Z.div_1_r, Z.mul_1_l.
  set (t := Z.max (Zdigits2 v - prec) 0) in *.
  assert (H2t : 0 < 2 ^ t) by (apply Z.pow_pos_nonneg; lia).
  pose proof (Z.div_mod v (2 ^ t) ltac:(lia)) as Hdm.
  rewrite Hmod, Z.add_0_r in Hdm.
  rewrite Hdm at 1. rewrite (Z.mul_comm (2 ^ t)).
  rewrite round_half_even_div_exact by lia. lia.
Qed.

Lemma round_units_0 (b : Z) : 0 < b -> round_units prec 0 b = 0.
Proof.
  intros Hb. unfold round_units, bits_over. rewrite Z.div_0_l by lia.
  simpl Zdigits2. replace (Z.max (0 - prec) 0) with 0 by lia.
  unfold round_half_even_div. rewrite Z.div_0_l, Z.mod_0_l by lia.
  simpl. destruct b; try lia; reflexivity.
Qed.

Lemma round_units_pos (a b : Z) : 0 < b -> b <= a -> 0 < round_units prec a b.
Proof.
  intros Hb H.
  assert (Hone : fits prec 1) by (apply (fits_pow2 0); lia).
  pose proof (round_units_mono 1 1 a b ltac:(lia) ltac:(lia) Hb ltac:(lia)) as Hm.
  rewrite (round_units_id 1 Hone) in Hm. lia.
Qed.



Lemma top_pos : 0 < top prec emax.
Proof. unfold top. apply Z.pow_pos_nonneg; unfold SpecFloat.emin; lia. Qed.

(** The mantissa and the exponent of a valid finite float. *)
Lemma bounded_canonical (m : positive) (e : Z) :
  bounded prec emax m e = true ->
  emin <= e <= emax - prec /\
  Zdigits2 (Zpos m) <= prec /\
  (emin < e -> Zdigits2 (Zpos m) = prec).
Proof.
  unfold bounded, canonical_mantissa. intros H.
  apply andb_prop in H. destruct H as [H1 H2].
  apply Z.eqb_eq in H1. apply Z.leb_le in H2.
  change (Zpos (digits2_pos m)) with (Zdigits2 (Zpos m)) in H1.
  unfold SpecFloat.fexp in H1. lia.
Qed.

Lemma units_lt_top (m : positive) (e : Z) :
  bounded prec emax m e = true -> Zpos m * 2 ^ (e - emin) < top prec emax.
Proof.
  intros H. destruct (bounded_canonical m e H) as (He & Hd & _).
  pose proof (Zdigits2_lt_pow2 (Zpos m) prec ltac:(lia) ltac:(lia) Hd) as Hm.
  assert (0 < 2 ^ (e - emin)) by (apply Z.pow_pos_nonneg; lia).
  apply Z.lt_le_trans with (m := 2 ^ prec * 2 ^ (e - emin)); [nia|].
  unfold top. rewrite <- Z.pow_add_r by lia. apply Z.pow_le_mono_r; lia.
Qed.

Lemma units_finite_pos (m : positive) (e : Z) :
  emin <= e -> 0 < Zpos m * 2 ^ (e - emin).
Proof.
  intros He. assert (0 < 2 ^ (e - emin)) by (apply Z.pow_pos_nonneg; lia). nia.
Qed.

(** Valid mantissas and exponents compare as the numbers they denote. *)
Lemma compare_units (m1 m2 : positive) (e1 e2 : Z) :
  bounded prec emax m1 e1 = true -> bounded prec emax m2 e2 = true ->
  match e1 ?= e2 with
  | Lt => Lt
  | Gt => Gt
  | Eq => Pos.compare_cont Eq m1 m2
  end = (Zpos m1 * 2 ^ (e1 - emin) ?= Zpos m2 * 2 ^ (e2 - emin)).
Proof.
  intros H1 H2.
  destruct (bounded_canonical m1 e1 H1) as (He1 & Hd1 & Hf1).
  destruct (bounded_canonical m2 e2 H2) as (He2 & Hd2 & Hf2).
  pose proof (Zdigits2_lt_pow2 (Zpos m1) prec ltac:(lia) ltac:(lia) Hd1) as Hm1.
  pose proof (Zdigits2_lt_pow2 (Zpos m2) prec ltac:(lia) ltac:(lia) Hd2) as Hm2.
  assert (Hcross : forall (ma mb : positive) (ea eb : Z),
             emin <= ea -> ea < eb -> Zpos ma < 2 ^ prec ->
             Zdigits2 (Zpos mb) = prec ->
             Zpos ma * 2 ^ (ea - emin) < Zpos mb * 2 ^ (eb - emin)).
  { intros ma mb ea eb Hea Hlt Hma Hdb.
    pose proof (Zdigits2_ge_pow2 (Zpos mb) prec prec_gt_0 ltac:(lia) ltac:(lia)) as Hmb.
    assert (0 < 2 ^ (ea - emin)) by (apply Z.pow_pos_nonneg; lia).
    assert (0 < 2 ^ (eb - emin)) by (apply Z.pow_pos_nonneg; lia).
    apply Z.lt_le_trans with (m := 2 ^ prec * 2 ^ (ea - emin)); [nia|].
    apply Z.le_trans with (m := 2 ^ (prec - 1) * 2 ^ (eb - emin)); [|nia].
    rewrite <- !Z.pow_add_r by lia. apply Z.pow_le_mono_r; lia. }
  destruct (Z.compare_spec e1 e2) as [E|E|E]; symmetry.
  - subst e2. rewrite Pos.compare_cont_spec.
    assert (0 < 2 ^ (e1 - emin)) by (apply Z.pow_pos_nonneg; lia).
    destruct (Pos.compare_spec m1 m2) as [C|C|C]; cbn [Pos.switch_Eq].
    + rewrite C. apply Z.compare_refl.
    + apply Z.compare_lt_iff. apply Z.mul_lt_mono_pos_r; lia.
    + apply Z.compare_gt_iff. apply Z.mul_lt_mono_pos_r; lia.
  - apply Z.compare_lt_iff. apply Hcross; lia.
  - apply Z.compare_gt_iff. apply Hcross; lia.
Qed.

(** Floats compare as their ranks. *)
Lemma SFcompare_rank (x y : spec_float) :
  SpecFloat.valid_binary prec emax x = true -> SpecFloat.valid_binary prec emax y = true ->
  is_nan_sf x = false -> is_nan_sf y = false ->
  SFcompare x y = Some (rank prec emax x ?= rank prec emax y).
Proof.
  pose proof top_pos as Htop.
  intros Vx Vy Nx Ny.
  destruct x as [sx|sx| |sx mx ex]; try discriminate Nx;
    destruct y as [sy|sy| |sy my ey]; try discriminate Ny;
    cbn [SpecFloat.valid_binary] in Vx, Vy;
    cbn [SFcompare rank units]; f_equal;
    try (pose proof (units_lt_top _ _ Vx) as Lx;
         pose proof (units_finite_pos mx ex
                       (proj1 (proj1 (bounded_canonical _ _ Vx)))) as Px);
    try (pose proof (units_lt_top _ _ Vy) as Ly;
         pose proof (units_finite_pos my ey
                       (proj1 (proj1 (bounded_canonical _ _ Vy)))) as Py).
  all: try solve
    [ repeat match goal with s : bool |- _ => destruct s end;
      cbn [cond_Zopp]; symmetry;
      solve [ apply Z.compare_refl | apply Z.compare_lt_iff; lia
            | apply Z.compare_gt_iff; lia ] ].
  pose proof (compare_units mx my ex ey Vx Vy) as C.
  pose proof (compare_units my mx ey ex Vy Vx) as C'.
  destruct sx, sy; cbn [cond_Zopp].
  - rewrite Z.compare_opp, <- C'.
    rewrite (Z.compare_antisym ey ex).
    destruct (ey ?= ex); cbn [CompOpp]; try reflexivity.
    rewrite !Pos.compare_cont_spec.
    rewrite (Pos.compare_antisym my mx).
    destruct (my ?= mx)%positive; reflexivity.
  - symmetry. apply Z.compare_lt_iff. lia.
  - symmetry. apply Z.compare_gt_iff. lia.
  - exact C.
Qed.

Lemma SFleb_rank (x y : spec_float) :
  SpecFloat.valid_binary prec emax x = true -> SpecFloat.valid_binary prec emax y = true ->
  is_nan_sf x = false -> is_nan_sf y = false ->
  SFleb x y = (rank prec emax x <=? rank prec emax y).
Proof.
  intros Vx Vy Nx Ny. unfold SFleb. rewrite SFcompare_rank by assumption.
  unfold Z.leb. destruct (rank prec emax x ?= rank prec emax y); reflexivity.
Qed.

Lemma SFltb_rank (x y : spec_float) :
  SpecFloat.valid_binary prec emax x = true -> SpecFloat.valid_binary prec emax y = true ->
  is_nan_sf x = false -> is_nan_sf y = false ->
  SFltb x y = (rank prec emax x <? rank prec emax y).
Proof.
  intros Vx Vy Nx Ny. unfold SFltb. rewrite SFcompare_rank by assumption.
  unfold Z.ltb. destruct (rank prec emax x ?= rank prec emax y); reflexivity.
Qed.

Lemma SFeqb_rank (x y : spec_float) :
  SpecFloat.valid_binary prec emax x = true -> SpecFloat.valid_binary prec emax y = true ->
  is_nan_sf x = false -> is_nan_sf y = false ->
  SFeqb x y = (rank prec emax x =? rank prec emax y).
Proof.
  intros Vx Vy Nx Ny. unfold SFeqb. rewrite SFcompare_rank by assumption.
  unfold Z.eqb at 1.
  destruct (Z.compare_spec (rank prec emax x) (rank prec emax y)) as [E|E|E];
    symmetry; try (apply Z.eqb_eq; assumption); apply Z.eqb_neq; lia.
Qed.

(** A comparison with NaN fails. *)
Lemma SFcompare_nan_l (y : spec_float) : SFcompare S754_nan y = None.
Proof. reflexivity. Qed.

Lemma SFcompare_nan_r (x : spec_float) : SFcompare x S754_nan = None.
Proof. destruct x; reflexivity. Qed.

(** The float of a number of the format. *)
Lemma pack_cases (s : bool) (v : Z) :
  fits prec v ->
  (v = 0 /\ pack prec emax s v = S754_zero s) \/
  (0 < v /\ v < top prec emax /\
   exists m e, pack prec emax s v = S754_finite s m e /\
     bounded prec emax m e = true /\ Zpos m * 2 ^ (e - emin) = v) \/
  (top prec emax <= v /\ pack prec emax s v = S754_infinity s).
Proof.
  intros (Hv & Hmod). unfold pack.
  destruct (Z.eq_dec v 0) as [->|Hz].
  { left. split; [reflexivity|]. simpl Zdigits2.
    rewrite Z.div_0_l; [reflexivity|]. apply Z.pow_nonzero; lia. }
  right.
  set (t := Z.max (Zdigits2 v - prec) 0) in *.
  assert (Ht : 0 <= t) by (unfold t; lia).
  assert (H2t : 0 < 2 ^ t) by (apply Z.pow_pos_nonneg; lia).
  pose proof (Z.div_mod v (2 ^ t) ltac:(lia)) as Hdm.
  rewrite Hmod, Z.add_0_r in Hdm.
  pose proof (Zdigits2_bounds v ltac:(lia)) as [Hlo Hhi].
  pose proof (Zdigits2_pos v ltac:(lia)) as Hd.
  assert (Hmpos : 0 < v / 2 ^ t) by nia.
  assert (Hdm' : Zdigits2 (v / 2 ^ t) = Zdigits2 v - t).
  { rewrite Zdigits2_div_pow2 by lia. unfold t. lia. }
  destruct (v / 2 ^ t) as [|m|m] eqn:Em; try lia.
  destruct (Z.leb_spec (t + emin) (emax - prec)) as [Hle|Hgt].
  - left. split; [lia|].
    assert (Hvt : v < top prec emax).
    { apply Z.lt_le_trans with (1 := Hhi). unfold top.
      apply Z.pow_le_mono_r; unfold t in *; lia. }
    split; [exact Hvt|].
    exists m, (t + emin). split; [reflexivity|]. split.
    + unfold bounded, canonical_mantissa.
      change (Zpos (digits2_pos m)) with (Zdigits2 (Zpos m)).
      rewrite Hdm'. apply andb_true_intro. split.
      * apply Z.eqb_eq. unfold SpecFloat.fexp, t. lia.
      * apply Z.leb_le. lia.
    + replace (t + emin - emin) with t by lia. lia.
  - right. split; [|reflexivity].
    apply Z.le_trans with (2 := Hlo). unfold top.
    apply Z.pow_le_mono_r; unfold t, SpecFloat.emin in *; lia.
Qed.

Lemma pack_valid (s : bool) (v : Z) :
  fits prec v -> SpecFloat.valid_binary prec emax (pack prec emax s v) = true.
Proof.
  intros H. destruct (pack_cases s v H)
    as [(_ & ->)|[(_ & _ & m & e & -> & Hb & _)|(_ & ->)]]; simpl; auto.
Qed.

Lemma pack_not_nan (s : bool) (v : Z) :
  fits prec v -> is_nan_sf (pack prec emax s v) = false.
Proof.
  intros H. destruct (pack_cases s v H)
    as [(_ & ->)|[(_ & _ & m & e & -> & Hb & _)|(_ & ->)]]; reflexivity.
Qed.

Lemma rank_pack (s : bool) (v : Z) :
  fits prec v ->
  rank prec emax (pack prec emax s v) = cond_Zopp s (Z.min v (top prec emax)).
Proof.
  pose proof top_pos as Htop.
  intros H. destruct (pack_cases s v H)
    as [(Hz & ->)|[(Hp & Hlt & m & e & -> & Hb & Hu)|(Hge & ->)]];
    cbn [rank units].
  - subst v. rewrite Z.min_l by lia. destruct s; reflexivity.
  - rewrite Hu, Z.min_l by lia. reflexivity.
  - rewrite Z.min_r by lia. reflexivity.
Qed.

Lemma pack_is_finite (s : bool) (v : Z) :
  fits prec v -> is_finite_sf (pack prec emax s v) = (v <? top prec emax).
Proof.
  pose proof top_pos as Htop.
  intros H. destruct (pack_cases s v H)
    as [(Hz & ->)|[(Hp & Hlt & m & e & -> & Hb & Hu)|(Hge & ->)]]; simpl;
    symmetry; try (apply Z.ltb_lt; lia). apply Z.ltb_ge. lia.
Qed.

Abbreviation one := (one_units prec emax).

Lemma emin_neg : emin < 0.
Proof. unfold SpecFloat.emin. lia. Qed.

Lemma one_units_pos : 0 < one.
Proof. pose proof emin_neg. apply Z.pow_pos_nonneg; lia. Qed.

Lemma located_exact (m : Z) : 0 <= m -> located m 1 m loc_Exact.
Proof.
  intros Hm. repeat split; try lia.
  - symmetry. apply Z.div_1_r.
  - rewrite Z.mod_1_r. reflexivity.
Qed.

Lemma units_exact (m e : Z) :
  emin <= e ->
  units_num prec emax m e = m * 2 ^ (e - emin) /\ units_den prec emax 1 e = 1.
Proof.
  intros He. unfold units_num, units_den.
  destruct (Z.leb_spec emin e); [split; reflexivity | lia].
Qed.

(** [binary_round] rounds the integer [m * 2 ^ e]. *)
Lemma binary_round_spec (s : bool) (m : positive) (e : Z) :
  emin <= e ->
  binary_round prec emax s m e
  = pack prec emax s (round_units prec (Zpos m * 2 ^ (e - emin)) 1).
Proof.
  intros He. unfold binary_round.
  pose proof (shl_align_spec m e (fexp (Zpos (digits2_pos m) + e))) as [H1 H2].
  destruct (shl_align m e (fexp (Zpos (digits2_pos m) + e))) as [mz ez].
  cbn [fst snd] in H1, H2.
  change (Zpos (digits2_pos m)) with (Zdigits2 (Zpos m)) in *.
  pose proof (fexp_ge_emin (Zdigits2 (Zpos m) + e)) as Hf.
  assert (Hez : emin <= ez) by lia.
  rewrite (binary_round_aux_spec s (Zpos mz) 1 (Zpos mz) ez loc_Exact).
  - destruct (units_exact (Zpos mz) ez Hez) as [-> ->].
    f_equal. f_equal. rewrite H2, <- Z.mul_assoc, <- Z.pow_add_r by lia.
    f_equal. f_equal. lia.
  - apply located_exact. lia.
  - rewrite H2, Zdigits2_mul_pow2 by lia.
    replace (Zdigits2 (Zpos m) + (e - Z.min e (fexp (Zdigits2 (Zpos m) + e))) + ez)
      with (Zdigits2 (Zpos m) + e) by lia.
    lia.
Qed.

Lemma rnd_pos (a b : Z) :
  0 < a -> rnd prec emax a b = Z.min (round_units prec a b) (top prec emax).
Proof.
  intros Ha. unfold rnd. rewrite Z.sgn_pos, Z.abs_eq by lia. lia.
Qed.

Lemma rnd_neg (a b : Z) :
  a < 0 -> rnd prec emax a b = - Z.min (round_units prec (- a) b) (top prec emax).
Proof.
  intros Ha. unfold rnd. rewrite Z.sgn_neg, Z.abs_neq by lia. lia.
Qed.

Lemma rnd_0 (b : Z) : rnd prec emax 0 b = 0.
Proof. reflexivity. Qed.

Lemma rnd_opp (a b : Z) : rnd prec emax (- a) b = - rnd prec emax a b.
Proof. unfold rnd. rewrite Z.sgn_opp, Z.abs_opp. lia. Qed.

Lemma rnd_bounds (a b : Z) :
  0 < b -> - top prec emax <= rnd prec emax a b <= top prec emax.
Proof.
  intros Hb. pose proof top_pos as Ht.
  pose proof (round_units_nonneg (Z.abs a) b ltac:(lia) Hb).
  unfold rnd. destruct (Z.sgn_spec a) as [(_ & ->)|[(_ & ->)|(_ & ->)]]; lia.
Qed.

(** Rounding is monotone, with its sign and its infinities. *)
Lemma rnd_mono (a b a' b' : Z) :
  0 < b -> 0 < b' -> a * b' <= a' * b ->
  rnd prec emax a b <= rnd prec emax a' b'.
Proof.
  intros Hb Hb' H. pose proof top_pos as Ht.
  pose proof (round_units_nonneg (Z.abs a) b ltac:(lia) Hb) as Hn.
  pose proof (round_units_nonneg (Z.abs a') b' ltac:(lia) Hb') as Hn'.
  destruct (Z.lt_trichotomy a 0) as [Ha|[Ha|Ha]];
    destruct (Z.lt_trichotomy a' 0) as [Ha'|[Ha'|Ha']];
    try (exfalso; nia).
  - rewrite !rnd_neg by lia.
    pose proof (round_units_mono (- a') b' (- a) b
                  ltac:(lia) Hb' Hb ltac:(nia)). lia.
  - subst a'. rewrite rnd_0, rnd_neg by lia.
    rewrite Z.abs_neq in Hn by lia. lia.
  - rewrite rnd_neg, rnd_pos by lia.
    rewrite Z.abs_neq in Hn by lia. rewrite Z.abs_eq in Hn' by lia. lia.
  - subst a a'. rewrite !rnd_0. lia.
  - subst a. rewrite rnd_0, rnd_pos by lia.
    rewrite Z.abs_eq in Hn' by lia. lia.
  - rewrite !rnd_pos by lia.
    pose proof (round_units_mono a b a' b' ltac:(lia) Hb Hb' H). lia.
Qed.

Lemma rnd_ratio (a b a' b' : Z) :
  0 < b -> 0 < b' -> a * b' = a' * b ->
  rnd prec emax a b = rnd prec emax a' b'.
Proof. intros. apply Z.le_antisymm; apply rnd_mono; lia. Qed.

(** A finite number of the format rounds to itself. *)
Lemma rnd_id (v : Z) :
  fits prec (Z.abs v) -> Z.abs v < top prec emax -> rnd prec emax v 1 = v.
Proof.
  intros Hf Hlt. unfold rnd. rewrite round_units_id by assumption.
  rewrite Z.min_l by lia. destruct (Z.sgn_spec v) as [(? & ->)|[(? & ->)|(? & ->)]]; lia.
Qed.

Lemma rank_pack_rnd (a b : Z) :
  0 < b ->
  rank prec emax (pack prec emax (a <? 0) (round_units prec (Z.abs a) b))
  = rnd prec emax a b.
Proof.
  intros Hb.
  rewrite rank_pack by (try assumption; apply round_units_fits; lia).
  unfold rnd. destruct (Z.ltb_spec a 0) as [Ha|Ha]; cbn [cond_Zopp].
  - rewrite Z.sgn_neg by lia. lia.
  - destruct (Z.eq_dec a 0) as [->|Hz].
    + simpl Z.abs. rewrite round_units_0 by lia.
      pose proof top_pos. simpl. lia.
    + rewrite Z.sgn_pos by lia. lia.
Qed.

(** The units of a valid float fit the format. *)
Lemma fits_rank (x : spec_float) :
  SpecFloat.valid_binary prec emax x = true -> is_finite_sf x = true ->
  fits prec (Z.abs (rank prec emax x)) /\ Z.abs (rank prec emax x) < top prec emax.
Proof.
  pose proof top_pos as Ht.
  intros V F. destruct x as [s|s| |s m e]; try discriminate F; cbn [rank units].
  - simpl. split; [|lia]. split; [lia|]. apply Z.mod_0_l. apply Z.pow_nonzero; lia.
  - cbn [SpecFloat.valid_binary] in V.
    destruct (bounded_canonical m e V) as (He & Hd & _).
    pose proof (units_lt_top m e V) as Hlt.
    pose proof (units_finite_pos m e ltac:(lia)) as Hpos.
    replace (Z.abs (cond_Zopp s (Zpos m * 2 ^ (e - emin))))
      with (Zpos m * 2 ^ (e - emin)) by (destruct s; cbn [cond_Zopp]; lia).
    split; [|assumption].
    apply fits_mul_pow2; lia.
Qed.

Lemma binary_normalize_rank (z e : Z) (sz : bool) :
  emin <= e ->
  rank prec emax (binary_normalize prec emax z e sz)
  = rnd prec emax (z * 2 ^ (e - emin)) 1 /\
  is_nan_sf (binary_normalize prec emax z e sz) = false /\
  SpecFloat.valid_binary prec emax (binary_normalize prec emax z e sz) = true.
Proof.
  intros He.
  assert (H2 : 0 < 2 ^ (e - emin)) by (apply Z.pow_pos_nonneg; lia).
  destruct z as [|m|m]; cbn [binary_normalize].
  - repeat split.
  - rewrite binary_round_spec by assumption.
    assert (Hfit : fits prec (round_units prec (Zpos m * 2 ^ (e - emin)) 1))
      by (apply round_units_fits; lia).
    repeat split.
    + rewrite rank_pack, rnd_pos by (assumption || lia). reflexivity.
    + apply pack_not_nan; assumption.
    + apply pack_valid; assumption.
  - rewrite binary_round_spec by assumption.
    assert (Hfit : fits prec (round_units prec (Zpos m * 2 ^ (e - emin)) 1))
      by (apply round_units_fits; lia).
    repeat split.
    + rewrite rank_pack, rnd_neg by (assumption || lia).
      cbn [cond_Zopp]. do 3 f_equal. lia.
    + apply pack_not_nan; assumption.
    + apply pack_valid; assumption.
Qed.


(** *** The operations on valid floats, in ranks *)

Lemma fexp_mono (x y : Z) : x <= y -> fexp x <= fexp y.
Proof. unfold SpecFloat.fexp. lia. Qed.

(** The quotient of two positive integers scaled by powers of two, as
    [SFdiv] and the true division of Python's integers compute it. *)
Lemma div_core_spec (s : bool) (m1 m2 : positive) (e1 e2 : Z) :
  (let '(q, e', l) := SFdiv_core_binary prec emax (Zpos m1) e1 (Zpos m2) e2 in
   binary_round_aux prec emax s q e' l)
  = pack prec emax s
      (round_units prec
         (Zpos m1 * 2 ^ Z.max (e1 - e2 - emin) 0)
         (Zpos m2 * 2 ^ Z.max (emin - (e1 - e2)) 0)).
Proof.
  unfold SFdiv_core_binary.
  set (d1 := Zdigits2 (Zpos m1)). set (d2 := Zdigits2 (Zpos m2)).
  set (e' := Z.min (fexp (d1 + e1 - (d2 + e2))) (e1 - e2)).
  set (s' := e1 - e2 - e').
  assert (Hs' : 0 <= s') by (unfold s', e'; lia).
  set (m' := match s' with Zpos _ => Z.shiftl (Zpos m1) s' | 0 => Zpos m1 | Zneg _ => 0 end).
  assert (Hm' : m' = Zpos m1 * 2 ^ s').
  { unfold m'. destruct s' as [|p|p] eqn:E; try lia.
    apply Z.shiftl_mul_pow2. lia. }
  assert (H2s : 0 < 2 ^ s') by (apply Z.pow_pos_nonneg; lia).
  assert (Hm'pos : 0 < m') by (rewrite Hm'; nia).
  pose proof (Z_div_mod m' (Zpos m2) ltac:(lia)) as Hdiv.
  destruct (Z.div_eucl m' (Zpos m2)) as [q r] eqn:Eqr.
  destruct Hdiv as [Hdiv Hr].
  assert (Hq : q = m' / Zpos m2).
  { apply (Z.div_unique m' (Zpos m2) q r); [lia|]. rewrite Hdiv. ring. }
  assert (Hrm : r = m' mod Zpos m2).
  { apply (Z.mod_unique m' (Zpos m2) q r); [lia|]. rewrite Hdiv. ring. }
  assert (Hloc : located m' (Zpos m2) q (new_location (Zpos m2) r)).
  { repeat split; try lia.
    rewrite new_location_spec by lia. rewrite Hrm. reflexivity. }
  rewrite (binary_round_aux_spec s m' (Zpos m2) q e' _ Hloc).
  - f_equal.
    assert (0 < 2 ^ Z.max (e1 - e2 - emin) 0) by (apply Z.pow_pos_nonneg; lia).
    assert (0 < 2 ^ Z.max (emin - (e1 - e2)) 0) by (apply Z.pow_pos_nonneg; lia).
    unfold units_num, units_den.
    destruct (Z.leb_spec emin e') as [Hle|Hlt].
    + assert (0 < 2 ^ (e' - emin)) by (apply Z.pow_pos_nonneg; lia).
      apply round_units_ratio; try nia.
      rewrite Hm'.
      transitivity (Zpos m1 * Zpos m2 * (2 ^ (s' + (e' - emin)) * 2 ^ Z.max (emin - (e1 - e2)) 0)).
      { rewrite Z.pow_add_r by lia. ring. }
      transitivity (Zpos m1 * Zpos m2 * (2 ^ Z.max (e1 - e2 - emin) 0 * 2 ^ 0)).
      { f_equal. apply pow2_cross; unfold s'; lia. }
      rewrite Z.pow_0_r. ring.
    + assert (0 < 2 ^ (emin - e')) by (apply Z.pow_pos_nonneg; lia).
      apply round_units_ratio; try nia.
      rewrite Hm'.
      transitivity (Zpos m1 * Zpos m2 * (2 ^ s' * 2 ^ Z.max (emin - (e1 - e2)) 0)).
      { ring. }
      transitivity (Zpos m1 * Zpos m2 * (2 ^ Z.max (e1 - e2 - emin) 0 * 2 ^ (emin - e'))).
      { f_equal. apply pow2_cross; unfold s'; lia. }
      ring.
  - (* the quotient has enough bits *)
    apply Z.le_trans with (m := fexp (d1 + e1 - (d2 + e2))); [unfold e'; lia|].
    apply fexp_mono.
    pose proof (Zdigits2_div_ge m' (Zpos m2) Hm'pos ltac:(lia)) as Hd.
    rewrite <- Hq in Hd. rewrite Hm', Zdigits2_mul_pow2 in Hd by lia.
    fold d1 d2 in Hd. unfold s' in Hd. lia.
Qed.

Lemma rank_finite (s : bool) (m : positive) (e : Z) :
  rank prec emax (S754_finite s m e) = cond_Zopp s (Zpos m * 2 ^ (e - emin)).
Proof. reflexivity. Qed.

Lemma cond_Zopp_mul (s : bool) (a b : Z) : cond_Zopp s a * b = cond_Zopp s (a * b).
Proof. destruct s; cbn [cond_Zopp]; lia. Qed.

Lemma cond_Zopp_ltb (s : bool) (a : Z) : 0 < a -> (cond_Zopp s a <? 0) = s.
Proof.
  intros Ha. destruct s; cbn [cond_Zopp]; [apply Z.ltb_lt | apply Z.ltb_ge]; lia.
Qed.

Lemma cond_Zopp_abs (s : bool) (a : Z) : 0 <= a -> Z.abs (cond_Zopp s a) = a.
Proof. intros Ha. destruct s; cbn [cond_Zopp]; lia. Qed.

(** Rounding the signed rational [cond_Zopp s a / b]. *)
Lemma rank_pack_signed (s : bool) (a b : Z) :
  0 < a -> 0 < b ->
  rank prec emax (pack prec emax s (round_units prec a b))
  = rnd prec emax (cond_Zopp s a) b.
Proof.
  intros Ha Hb. rewrite <- rank_pack_rnd by assumption.
  rewrite cond_Zopp_ltb, cond_Zopp_abs by lia. reflexivity.
Qed.

Lemma SFdiv_rank (x : spec_float) (my : positive) (ey : Z) :
  SpecFloat.valid_binary prec emax x = true -> is_finite_sf x = true ->
  bounded prec emax my ey = true ->
  rank prec emax (SFdiv prec emax x (S754_finite false my ey))
  = rnd prec emax (rank prec emax x * one) (Zpos my * 2 ^ (ey - emin)) /\
  is_nan_sf (SFdiv prec emax x (S754_finite false my ey)) = false.
Proof.
  pose proof emin_neg as Hemin. pose proof one_units_pos as Hone.
  intros Vx Fx Vy.
  destruct (bounded_canonical my ey Vy) as (Hey & _).
  pose proof (units_finite_pos my ey ltac:(lia)) as Huy.
  destruct x as [sx|sx| |sx mx ex]; try discriminate Fx.
  - cbn [SFdiv rank units]. rewrite Z.mul_0_l, rnd_0. split; reflexivity.
  - cbn [SpecFloat.valid_binary] in Vx.
    destruct (bounded_canonical mx ex Vx) as (Hex & _).
    pose proof (units_finite_pos mx ex ltac:(lia)) as Hux.
    cbn [SFdiv]. rewrite xorb_false_r.
    pose proof (div_core_spec sx mx my ex ey) as Hcore.
    destruct (SFdiv_core_binary prec emax (Zpos mx) ex (Zpos my) ey) as [[q e'] l].
    rewrite Hcore. clear Hcore.
    assert (0 < 2 ^ Z.max (ex - ey - emin) 0) by (apply Z.pow_pos_nonneg; lia).
    assert (0 < 2 ^ Z.max (emin - (ex - ey)) 0) by (apply Z.pow_pos_nonneg; lia).
    assert (0 < 2 ^ (ex - emin)) by (apply Z.pow_pos_nonneg; lia).
    assert (0 < 2 ^ (ey - emin)) by (apply Z.pow_pos_nonneg; lia).
    split.
    + rewrite rank_pack_signed by nia.
      rewrite rank_finite, cond_Zopp_mul.
      apply rnd_ratio; try nia.
      rewrite !cond_Zopp_mul. f_equal. unfold one_units.
      transitivity (Zpos mx * Zpos my * (2 ^ Z.max (ex - ey - emin) 0 * 2 ^ (ey - emin))).
      { ring. }
      transitivity (Zpos mx * Zpos my * (2 ^ (ex - emin + - emin) * 2 ^ Z.max (emin - (ex - ey)) 0)).
      { f_equal. apply pow2_cross; lia. }
      rewrite Z.pow_add_r by lia. ring.
    + apply pack_not_nan. apply round_units_fits; nia.
Qed.

Lemma SFmul_rank (x y : spec_float) :
  SpecFloat.valid_binary prec emax x = true ->
  SpecFloat.valid_binary prec emax y = true ->
  is_finite_sf x = true -> is_finite_sf y = true ->
  rank prec emax (SFmul prec emax x y)
  = rnd prec emax (rank prec emax x * rank prec emax y) one /\
  is_nan_sf (SFmul prec emax x y) = false.
Proof.
  pose proof emin_neg as Hemin. pose proof one_units_pos as Hone.
  intros Vx Vy Fx Fy.
  destruct x as [sx|sx| |sx mx ex]; try discriminate Fx;
    destruct y as [sy|sy| |sy my ey]; try discriminate Fy;
    cbn [SFmul].
  1-3: cbn [rank units]; rewrite ?Z.mul_0_l, ?Z.mul_0_r, rnd_0; split; reflexivity.
  cbn [SpecFloat.valid_binary] in Vx, Vy.
  destruct (bounded_canonical mx ex Vx) as (Hex & Hdx & Hfx).
  destruct (bounded_canonical my ey Vy) as (Hey & Hdy & Hfy).
  pose proof (units_finite_pos mx ex ltac:(lia)) as Hux.
  pose proof (units_finite_pos my ey ltac:(lia)) as Huy.
  assert (0 < 2 ^ (ex - emin)) by (apply Z.pow_pos_nonneg; lia).
  assert (0 < 2 ^ (ey - emin)) by (apply Z.pow_pos_nonneg; lia).
  rewrite (binary_round_aux_spec (xorb sx sy) (Zpos (mx * my)) 1 (Zpos (mx * my))
             (ex + ey) loc_Exact).
  - assert (Hnd : 0 < units_num prec emax (Zpos (mx * my)) (ex + ey) /\
                  0 < units_den prec emax 1 (ex + ey) /\
                  units_num prec emax (Zpos (mx * my)) (ex + ey) * one
                  = Zpos mx * 2 ^ (ex - emin) * (Zpos my * 2 ^ (ey - emin))
                    * units_den prec emax 1 (ex + ey)).
    { unfold units_num, units_den, one_units.
      destruct (Z.leb_spec emin (ex + ey)) as [Hle|Hlt].
      - assert (0 < 2 ^ (ex + ey - emin)) by (apply Z.pow_pos_nonneg; lia).
        repeat split; try lia.
        rewrite Pos2Z.inj_mul.
        transitivity (Zpos mx * Zpos my * (2 ^ (ex + ey - emin) * 2 ^ (- emin))); [ring|].
        transitivity (Zpos mx * Zpos my * (2 ^ (ex - emin + (ey - emin)) * 2 ^ 0)).
        { f_equal. apply pow2_cross; lia. }
        rewrite Z.pow_add_r, Z.pow_0_r by lia. ring.
      - assert (0 < 2 ^ (emin - (ex + ey))) by (apply Z.pow_pos_nonneg; lia).
        repeat split; try lia.
        rewrite Pos2Z.inj_mul.
        transitivity (Zpos mx * Zpos my * (2 ^ 0 * 2 ^ (- emin))).
        { rewrite Z.pow_0_r. ring. }
        transitivity (Zpos mx * Zpos my
                      * (2 ^ (ex - emin + (ey - emin)) * 2 ^ (emin - (ex + ey)))).
        { f_equal. apply pow2_cross; lia. }
        rewrite Z.pow_add_r by lia. ring. }
    destruct Hnd as (Hn & Hd & Hnd).
    split.
    + rewrite rank_pack_signed by assumption.
      rewrite !rank_finite.
      apply rnd_ratio; try assumption.
      rewrite cond_Zopp_mul, Hnd.
      destruct sx, sy; cbn [cond_Zopp xorb]; ring.
    + apply pack_not_nan. apply round_units_fits; lia.
  - apply located_exact. lia.
  - (* the product has enough bits *)
    pose proof (Zdigits2_mul_ge (Zpos mx) (Zpos my) ltac:(lia) ltac:(lia)) as Hd.
    pose proof (Zdigits2_pos (Zpos mx) ltac:(lia)).
    pose proof (Zdigits2_pos (Zpos my) ltac:(lia)).
    rewrite Pos2Z.inj_mul. unfold SpecFloat.fexp. lia.
Qed.

(** The aligned mantissa of a finite float, with its sign, is its rank in
    units of the smaller exponent. *)
Lemma aligned_units (s : bool) (m : positive) (e ez : Z) :
  emin <= ez -> ez <= e ->
  cond_Zopp s (Zpos (fst (shl_align m e ez))) * 2 ^ (ez - emin)
  = rank prec emax (S754_finite s m e).
Proof.
  intros Hez Hle. pose proof (shl_align_spec m e ez) as [_ H].
  rewrite H, Z.min_r by lia. rewrite rank_finite, cond_Zopp_mul.
  f_equal. rewrite <- Z.mul_assoc, <- Z.pow_add_r by lia. f_equal. f_equal. lia.
Qed.

Lemma SFadd_rank (x y : spec_float) :
  SpecFloat.valid_binary prec emax x = true ->
  SpecFloat.valid_binary prec emax y = true ->
  is_finite_sf x = true -> is_finite_sf y = true ->
  rank prec emax (SFadd prec emax x y)
  = rnd prec emax (rank prec emax x + rank prec emax y) 1 /\
  is_nan_sf (SFadd prec emax x y) = false.
Proof.
  intros Vx Vy Fx Fy.
  destruct (fits_rank x Vx Fx) as [Hfx Hlx].
  destruct (fits_rank y Vy Fy) as [Hfy Hly].
  destruct x as [sx|sx| |sx mx ex]; try discriminate Fx;
    destruct y as [sy|sy| |sy my ey]; try discriminate Fy;
    cbn [SFadd].
  - split; [|destruct sx, sy; reflexivity].
    destruct sx, sy; reflexivity.
  - split; [|reflexivity].
    change (rank prec emax (S754_zero sx)) with 0. rewrite Z.add_0_l.
    symmetry. apply rnd_id; assumption.
  - split; [|reflexivity].
    change (rank prec emax (S754_zero sy)) with 0. rewrite Z.add_0_r.
    symmetry. apply rnd_id; assumption.
  - cbn [SpecFloat.valid_binary] in Vx, Vy.
    destruct (bounded_canonical mx ex Vx) as (Hex & _).
    destruct (bounded_canonical my ey Vy) as (Hey & _).
    destruct (binary_normalize_rank
                (cond_Zopp sx (Zpos (fst (shl_align mx ex (Z.min ex ey))))
                 + cond_Zopp sy (Zpos (fst (shl_align my ey (Z.min ex ey)))))
                (Z.min ex ey) false ltac:(lia)) as (Hr & Hn & _).
    split; [|exact Hn].
    rewrite Hr. f_equal.
    rewrite Z.mul_add_distr_r, !aligned_units by lia. reflexivity.
Qed.

Lemma SFsub_rank (x y : spec_float) :
  SpecFloat.valid_binary prec emax x = true ->
  SpecFloat.valid_binary prec emax y = true ->
  is_finite_sf x = true -> is_finite_sf y = true ->
  rank prec emax (SFsub prec emax x y)
  = rnd prec emax (rank prec emax x - rank prec emax y) 1 /\
  is_nan_sf (SFsub prec emax x y) = false.
Proof.
  intros Vx Vy Fx Fy.
  destruct (fits_rank x Vx Fx) as [Hfx Hlx].
  destruct (fits_rank y Vy Fy) as [Hfy Hly].
  destruct x as [sx|sx| |sx mx ex]; try discriminate Fx;
    destruct y as [sy|sy| |sy my ey]; try discriminate Fy;
    cbn [SFsub].
  - split; [|destruct sx, sy; reflexivity].
    destruct sx, sy; reflexivity.
  - split; [|reflexivity].
    change (rank prec emax (S754_zero sx)) with 0. rewrite Z.sub_0_l.
    rewrite rnd_opp, rnd_id by assumption.
    rewrite !rank_finite. destruct sy; cbn [cond_Zopp negb]; lia.
  - split; [|reflexivity].
    change (rank prec emax (S754_zero sy)) with 0. rewrite Z.sub_0_r.
    symmetry. apply rnd_id; assumption.
  - cbn [SpecFloat.valid_binary] in Vx, Vy.
    destruct (bounded_canonical mx ex Vx) as (Hex & _).
    destruct (bounded_canonical my ey Vy) as (Hey & _).
    destruct (binary_normalize_rank
                (cond_Zopp sx (Zpos (fst (shl_align mx ex (Z.min ex ey))))
                 - cond_Zopp sy (Zpos (fst (shl_align my ey (Z.min ex ey)))))
                (Z.min ex ey) false ltac:(lia)) as (Hr & Hn & _).
    split; [|exact Hn].
    rewrite Hr. f_equal.
    rewrite Z.mul_sub_distr_r, !aligned_units by lia. reflexivity.
Qed.

End Format.

(** ** Binary64 *)

Abbreviation one64 := (one_units prec emax).
Abbreviation top64 := (top prec emax).
Abbreviation rnd64 := (rnd prec emax).

Lemma prec_gt_1_64 : 1 < prec.
Proof. reflexivity. Qed.

Lemma prec_lt_emax_64 : prec < emax.
Proof. reflexivity. Qed.

Lemma one64_pos : 0 < one64.
Proof. apply one_units_pos; reflexivity. Qed.

(** The facts of the format, for binary64. *)
Ltac b64 := first [exact prec_gt_1_64 | exact prec_lt_emax_64 | reflexivity].

Lemma top64_pos : 0 < top64.
Proof. apply top_pos; reflexivity. Qed.

Lemma one64_eq : one64 = 2 ^ 1074.
Proof. reflexivity. Qed.

Lemma top64_eq : top64 = 2 ^ 2098.
Proof. reflexivity. Qed.

Lemma number_valid (x : float) : SpecFloat.valid_binary prec emax (Prim2SF x) = true.
Proof. apply Prim2SF_valid. Qed.

Lemma finite_number (x : float) : finite x -> number x.
Proof. unfold finite, number. destruct (Prim2SF x); simpl; congruence. Qed.

(** A number is finite or an infinity. *)
Lemma number_cases (x : float) :
  number x ->
  finite x \/ Prim2SF x = S754_infinity false \/ Prim2SF x = S754_infinity true.
Proof.
  unfold number, finite.
  destruct (Prim2SF x) as [s|[|]| |s m e]; simpl; auto; discriminate.
Qed.

Lemma float_rank_bounds (x : float) : - top64 <= float_rank x <= top64.
Proof.
  pose proof top64_pos as Ht. unfold float_rank.
  pose proof (number_valid x) as V.
  destruct (Prim2SF x) as [s|s| |s m e] eqn:E; cbn [rank units]; try lia.
  - destruct s; cbn [cond_Zopp]; lia.
  - pose proof (units_lt_top prec emax prec_gt_1_64 m e V).
    destruct (bounded_canonical prec emax m e V) as (He & _).
    pose proof (units_finite_pos prec emax prec_gt_1_64 m e ltac:(lia)).
    destruct s; cbn [cond_Zopp]; lia.
Qed.

Lemma finite_rank_lt (x : float) : finite x -> - top64 < float_rank x < top64.
Proof.
  pose proof top64_pos as Ht. unfold float_rank, finite.
  pose proof (number_valid x) as V.
  destruct (Prim2SF x) as [s|s| |s m e] eqn:E; cbn [rank units is_finite_sf];
    try discriminate; intros _; try lia.
  pose proof (units_lt_top prec emax prec_gt_1_64 m e V).
  destruct (bounded_canonical prec emax m e V) as (He & _).
  pose proof (units_finite_pos prec emax prec_gt_1_64 m e ltac:(lia)).
  destruct s; cbn [cond_Zopp]; lia.
Qed.

Lemma rank_lt_finite (x : float) :
  number x -> - top64 < float_rank x < top64 -> finite x.
Proof.
  intros N H. destruct (number_cases x N) as [F|[E|E]]; [exact F| |];
    unfold float_rank in H; rewrite E in H; cbn [rank cond_Zopp] in H; lia.
Qed.

(** *** Comparisons *)

Lemma leb_rank (x y : float) :
  number x -> number y -> (x <=? y)%float = (float_rank x <=? float_rank y).
Proof.
  intros Nx Ny. rewrite leb_spec.
  apply SFleb_rank; try reflexivity; try apply Prim2SF_valid; assumption.
Qed.

Lemma ltb_rank (x y : float) :
  number x -> number y -> (x <? y)%float = (float_rank x <? float_rank y).
Proof.
  intros Nx Ny. rewrite ltb_spec.
  apply SFltb_rank; try reflexivity; try apply Prim2SF_valid; assumption.
Qed.

Lemma eqb_rank (x y : float) :
  number x -> number y -> (x =? y)%float = (float_rank x =? float_rank y).
Proof.
  intros Nx Ny. rewrite eqb_spec.
  apply SFeqb_rank; try reflexivity; try apply Prim2SF_valid; assumption.
Qed.

Lemma SFcompare_some_number (x y : spec_float) (c : comparison) :
  SFcompare x y = Some c -> is_nan_sf x = false /\ is_nan_sf y = false.
Proof. destruct x, y; simpl; intros H; try discriminate; auto. Qed.

(** A comparison that holds compares two numbers. *)
Lemma leb_true_number (x y : float) :
  (x <=? y)%float = true -> number x /\ number y.
Proof.
  rewrite leb_spec. unfold SFleb, number.
  destruct (SFcompare (Prim2SF x) (Prim2SF y)) as [c|] eqn:E; [|discriminate].
  intros _. exact (SFcompare_some_number _ _ _ E).
Qed.

Lemma ltb_true_number (x y : float) :
  (x <? y)%float = true -> number x /\ number y.
Proof.
  rewrite ltb_spec. unfold SFltb, number.
  destruct (SFcompare (Prim2SF x) (Prim2SF y)) as [c|] eqn:E; [|discriminate].
  intros _. exact (SFcompare_some_number _ _ _ E).
Qed.

Lemma leb_true_rank (x y : float) :
  (x <=? y)%float = true -> number x /\ number y /\ float_rank x <= float_rank y.
Proof.
  intros H. destruct (leb_true_number x y H) as [Nx Ny].
  rewrite leb_rank in H by assumption. apply Z.leb_le in H. auto.
Qed.

Lemma ltb_true_rank (x y : float) :
  (x <? y)%float = true -> number x /\ number y /\ float_rank x < float_rank y.
Proof.
  intros H. destruct (ltb_true_number x y H) as [Nx Ny].
  rewrite ltb_rank in H by assumption. apply Z.ltb_lt in H. auto.
Qed.

Lemma rank_le_leb (x y : float) :
  number x -> number y -> float_rank x <= float_rank y -> (x <=? y)%float = true.
Proof. intros Nx Ny H. rewrite leb_rank by assumption. apply Z.leb_le. exact H. Qed.

(** *** Arithmetic on finite floats *)

Lemma mul_rank (x y : float) :
  finite x -> finite y ->
  float_rank (x * y) = rnd64 (float_rank x * float_rank y) one64 /\ number (x * y).
Proof.
  intros Fx Fy. unfold float_rank, number. rewrite mul_spec.
  apply SFmul_rank; try reflexivity; try apply Prim2SF_valid; assumption.
Qed.

Lemma add_rank (x y : float) :
  finite x -> finite y ->
  float_rank (x + y) = rnd64 (float_rank x + float_rank y) 1 /\ number (x + y).
Proof.
  intros Fx Fy. unfold float_rank, number. rewrite add_spec.
  apply SFadd_rank; try reflexivity; try apply Prim2SF_valid; assumption.
Qed.

Lemma sub_rank (x y : float) :
  finite x -> finite y ->
  float_rank (x - y) = rnd64 (float_rank x - float_rank y) 1 /\ number (x - y).
Proof.
  intros Fx Fy. unfold float_rank, number. rewrite sub_spec.
  apply SFsub_rank; try reflexivity; try apply Prim2SF_valid; assumption.
Qed.

Lemma div_rank (x y : float) :
  finite x -> finite y -> 0 < float_rank y ->
  float_rank (x / y) = rnd64 (float_rank x * one64) (float_rank y) /\ number (x / y).
Proof.
  intros Fx Fy Hy. unfold float_rank, number in *. rewrite div_spec.
  pose proof (number_valid y) as Vy. unfold finite in Fy.
  destruct (Prim2SF y) as [sy|sy| |sy my ey] eqn:Ey; try discriminate Fy.
  - cbn [rank units] in Hy. lia.
  - cbn [SpecFloat.valid_binary] in Vy.
    destruct (bounded_canonical prec emax my ey Vy) as (He & _).
    pose proof (units_finite_pos prec emax prec_gt_1_64 my ey ltac:(lia)).
    destruct sy; [cbn [rank units cond_Zopp] in Hy; lia|].
    cbn [rank units cond_Zopp].
    apply SFdiv_rank; try reflexivity; try apply Prim2SF_valid; assumption.
Qed.

Lemma leb_true_ltb_false (x y : float) :
  (x <=? y)%float = true -> (y <? x)%float = false.
Proof.
  intros H. destruct (leb_true_rank x y H) as (Nx & Ny & Hr).
  rewrite ltb_rank by assumption. apply Z.ltb_ge. exact Hr.
Qed.

Lemma ltb_true_leb_false (x y : float) :
  (x <? y)%float = true -> (y <=? x)%float = false.
Proof.
  intros H. destruct (ltb_true_rank x y H) as (Nx & Ny & Hr).
  rewrite leb_rank by assumption. apply Z.leb_gt. exact Hr.
Qed.

(** *** Constants *)

Lemma rank_0 : float_rank 0 = 0.
Proof. reflexivity. Qed.

Lemma rank_1 : float_rank 1 = one64.
Proof. reflexivity. Qed.

Lemma rank_10 : float_rank 10 = 10 * one64.
Proof. reflexivity. Qed.

Lemma rank_1000 : float_rank 1000 = 1000 * one64.
Proof. reflexivity. Qed.

Lemma rank_m20 : float_rank (-20) = -20 * one64.
Proof. reflexivity. Qed.

Lemma rank_infinity : float_rank infinity = top64.
Proof. reflexivity. Qed.

Lemma finite_0 : finite 0.
Proof. reflexivity. Qed.

Lemma finite_1 : finite 1.
Proof. reflexivity. Qed.

Lemma finite_10 : finite 10.
Proof. reflexivity. Qed.

Lemma finite_1000 : finite 1000.
Proof. reflexivity. Qed.

Lemma finite_m20 : finite (-20).
Proof. reflexivity. Qed.

(** *** Multiplication by a constant of magnitude at least one *)

Lemma round_units_top_le (a b : Z) :
  0 < b -> top64 * b <= a -> top64 <= round_units prec a b.
Proof.
  intros Hb H. pose proof top64_pos as Ht.
  assert (Hf : fits prec top64) by (apply fits_pow2; [b64|]; vm_compute; discriminate).
  rewrite <- (round_units_id prec top64 Hf).
  apply round_units_mono; try b64; lia.
Qed.

Lemma mul_const_rank (c x : float) :
  finite c -> one64 <= Z.abs (float_rank c) -> number x ->
  float_rank (c * x) = rnd64 (float_rank c * float_rank x) one64 /\ number (c * x).
Proof.
  intros Fc Hc Nx. pose proof one64_pos as Hone. pose proof top64_pos as Ht.
  destruct (number_cases x Nx) as [Fx|Ex].
  - apply mul_rank; assumption.
  - unfold float_rank, number in *. rewrite mul_spec.
    pose proof (number_valid c) as Vc. unfold finite in Fc.
    destruct (Prim2SF c) as [sc|sc| |sc mc ec] eqn:Ec; try discriminate Fc.
    + cbn [rank units] in Hc. simpl Z.abs in Hc. lia.
    + cbn [SpecFloat.valid_binary] in Vc.
      destruct (bounded_canonical prec emax mc ec Vc) as (He & _).
      pose proof (units_finite_pos prec emax prec_gt_1_64 mc ec ltac:(lia)) as Hu.
      cbn [rank units] in *. rewrite cond_Zopp_abs in Hc by lia.
      set (u := Zpos mc * 2 ^ (ec - emin)) in *.
      assert (Hru : top64 <= round_units prec (u * top64) one64).
      { apply round_units_top_le; [lia|]. nia. }
      destruct Ex as [Ex|Ex]; rewrite Ex; cbn [SF64mul SFmul rank units is_nan_sf];
        (split; [|reflexivity]); destruct sc; cbn [cond_Zopp xorb].
      * replace (- u * top64) with (- (u * top64)) by ring.
        rewrite rnd_opp, rnd_pos by nia. lia.
      * rewrite rnd_pos by nia. lia.
      * replace (- u * - top64) with (u * top64) by ring.
        rewrite rnd_pos by nia. lia.
      * replace (u * - top64) with (- (u * top64)) by ring.
        rewrite rnd_opp, rnd_pos by nia. lia.
Qed.

Lemma SFmul_comm (x y : spec_float) : SFmul prec emax x y = SFmul prec emax y x.
Proof.
  destruct x as [sx|sx| |sx mx ex], y as [sy|sy| |sy my ey]; cbn [SFmul];
    rewrite ?(xorb_comm sx sy); try reflexivity.
  rewrite (Pos.mul_comm mx my), (Z.add_comm ex ey). reflexivity.
Qed.

Lemma mul_comm (x y : float) : (x * y = y * x)%float.
Proof.
  apply Prim2SF_inj. rewrite !mul_spec. apply SFmul_comm.
Qed.

(** Multiplication by a constant at least one is monotone. *)
Lemma mul_const_mono (c x y : float) :
  finite c -> one64 <= float_rank c -> (x <=? y)%float = true ->
  (c * x <=? c * y)%float = true.
Proof.
  intros Fc Hc H. pose proof one64_pos as Hone.
  destruct (leb_true_rank x y H) as (Nx & Ny & Hr).
  destruct (mul_const_rank c x Fc ltac:(lia) Nx) as [Rx Nx'].
  destruct (mul_const_rank c y Fc ltac:(lia) Ny) as [Ry Ny'].
  apply rank_le_leb; try assumption.
  rewrite Rx, Ry. apply rnd_mono; try b64; try lia.
  apply Z.mul_le_mono_nonneg_r; [lia|]. apply Z.mul_le_mono_nonneg_l; lia.
Qed.

(** Multiplication by a constant at most minus one reverses the order. *)
Lemma mul_const_antimono (c x y : float) :
  finite c -> float_rank c <= - one64 -> (x <=? y)%float = true ->
  (c * y <=? c * x)%float = true.
Proof.
  intros Fc Hc H. pose proof one64_pos as Hone.
  destruct (leb_true_rank x y H) as (Nx & Ny & Hr).
  destruct (mul_const_rank c x Fc ltac:(lia) Nx) as [Rx Nx'].
  destruct (mul_const_rank c y Fc ltac:(lia) Ny) as [Ry Ny'].
  apply rank_le_leb; try assumption.
  rewrite Rx, Ry. apply rnd_mono; try b64; try lia.
  apply Z.mul_le_mono_nonneg_r; [lia|]. apply Z.mul_le_mono_nonpos_l; lia.
Qed.

(** The product of a positive number and a constant at least one is
    positive. *)
Lemma mul_const_pos (c x : float) :
  finite c -> one64 <= float_rank c -> (0 <? x)%float = true ->
  (0 <? c * x)%float = true.
Proof.
  intros Fc Hc H. pose proof one64_pos as Hone. pose proof top64_pos as Ht.
  destruct (ltb_true_rank 0 x H) as (N0 & Nx & Hr). rewrite rank_0 in Hr.
  destruct (mul_const_rank c x Fc ltac:(lia) Nx) as [Rx Nx'].
  rewrite ltb_rank by assumption. apply Z.ltb_lt. rewrite rank_0, Rx.
  rewrite rnd_pos by nia.
  pose proof (round_units_pos prec prec_gt_1_64 (float_rank c * float_rank x) one64
                Hone ltac:(nia)).
  lia.
Qed.

(** *** The number that a format prints *)

Lemma round_half_even_div_nonneg (a b : Z) :
  0 <= a -> 0 < b -> 0 <= round_half_even_div a b.
Proof.
  intros Ha Hb. pose proof (round_half_even_div_bounds a b Hb).
  pose proof (Z.div_pos a b Ha Hb). lia.
Qed.

Lemma round_int_mono (a b a' b' : Z) :
  0 < b -> 0 < b' -> a * b' <= a' * b -> round_int a b <= round_int a' b'.
Proof.
  intros Hb Hb' H. unfold round_int.
  pose proof (round_half_even_div_nonneg (Z.abs a) b ltac:(lia) Hb) as Hn.
  pose proof (round_half_even_div_nonneg (Z.abs a') b' ltac:(lia) Hb') as Hn'.
  destruct (Z.lt_trichotomy a 0) as [Ha|[Ha|Ha]];
    destruct (Z.lt_trichotomy a' 0) as [Ha'|[Ha'|Ha']];
    try (exfalso; nia).
  - rewrite !Z.sgn_neg, !Z.abs_neq by lia.
    pose proof (round_half_even_div_mono (- a') b' (- a) b Hb' Hb ltac:(nia)). lia.
  - subst a'. rewrite (Z.sgn_neg a) by lia. simpl Z.sgn. lia.
  - rewrite (Z.sgn_neg a), (Z.sgn_pos a') by lia. lia.
  - subst a a'. simpl Z.sgn. lia.
  - subst a. rewrite (Z.sgn_pos a') by lia. simpl Z.sgn. lia.
  - rewrite !Z.sgn_pos, !Z.abs_eq by lia.
    pose proof (round_half_even_div_mono a b a' b' Hb Hb' H). lia.
Qed.

Lemma round_int_cond_Zopp (s : bool) (a b : Z) :
  0 < a -> round_int (cond_Zopp s a) b = cond_Zopp s (round_half_even_div a b).
Proof.
  intros Ha. unfold round_int. rewrite cond_Zopp_abs by lia.
  destruct s; cbn [cond_Zopp]; [rewrite Z.sgn_neg | rewrite Z.sgn_pos]; lia.
Qed.

(** [format_f p] prints the float rounded to a whole number of units of
    [10 ^ - p]. *)
Lemma fixed_value_rank (p : nat) (x : float) :
  finite x ->
  fixed_value p x = round_int (float_rank x * 10 ^ Z.of_nat p) one64.
Proof.
  intros F. unfold fixed_value, float_rank. pose proof one64_pos as Hone.
  pose proof (number_valid x) as V. unfold finite in F.
  destruct (Prim2SF x) as [s|s| |s m e]; try discriminate F; try reflexivity.
  cbn [SpecFloat.valid_binary] in V.
  destruct (bounded_canonical prec emax m e V) as (He & _).
  pose proof (units_finite_pos prec emax prec_gt_1_64 m e ltac:(lia)) as Hu.
  assert (H10 : 0 < 10 ^ Z.of_nat p) by (apply Z.pow_pos_nonneg; lia).
  cbn [rank units]. rewrite cond_Zopp_mul, round_int_cond_Zopp by nia.
  f_equal. unfold scaled_round, one_units.
  assert (Hemin : emin < 0) by (apply emin_neg; b64).
  destruct (Z.leb_spec 0 e) as [Hle|Hlt].
  - rewrite <- (round_half_even_div_exact (Zpos m * 10 ^ Z.of_nat p * 2 ^ e) (2 ^ (- emin)))
      by (apply Z.pow_pos_nonneg; lia).
    f_equal. replace (e - emin) with (e + - emin) by lia.
    rewrite Z.pow_add_r by lia. ring.
  - assert (0 < 2 ^ (- e)) by (apply Z.pow_pos_nonneg; lia).
    assert (0 < 2 ^ (- emin)) by (apply Z.pow_pos_nonneg; lia).
    apply round_half_even_div_ratio; try lia.
    transitivity (Zpos m * 10 ^ Z.of_nat p * (2 ^ 0 * 2 ^ (- emin))).
    { rewrite Z.pow_0_r. ring. }
    transitivity (Zpos m * 10 ^ Z.of_nat p * (2 ^ (e - emin) * 2 ^ (- e))).
    { f_equal. apply pow2_cross; lia. }
    ring.
Qed.

(** Of two finite floats, the larger prints the larger number. *)
Lemma fixed_value_mono (p : nat) (x y : float) :
  finite x -> finite y -> (x <=? y)%float = true ->
  fixed_value p x <= fixed_value p y.
Proof.
  intros Fx Fy H. destruct (leb_true_rank x y H) as (_ & _ & Hr).
  pose proof one64_pos as Hone.
  assert (H10 : 0 < 10 ^ Z.of_nat p) by (apply Z.pow_pos_nonneg; lia).
  rewrite !fixed_value_rank by assumption.
  apply round_int_mono; try lia.
  apply Z.mul_le_mono_nonneg_r; [lia|]. apply Z.mul_le_mono_nonneg_r; lia.
Qed.

(** What [format_f] prints for a finite float: its sign and the digits of
    [fixed_value]. *)
Lemma format_f_fixed_value (p : nat) (x : float) :
  finite x ->
  exists s : bool,
    format_f p x = (sign_text s ++ fixed_digits p (Z.abs (fixed_value p x)))%string.
Proof.
  unfold finite, format_f, fixed_value.
  destruct (Prim2SF x) as [s|s| |s m e]; try discriminate; intros _; exists s.
  - reflexivity.
  - assert (H : 0 <= scaled_round p m e).
    { unfold scaled_round.
      assert (0 < 10 ^ Z.of_nat p) by (apply Z.pow_pos_nonneg; lia).
      destruct (0 <=? e) eqn:E.
      - apply Z.leb_le in E. assert (0 < 2 ^ e) by (apply Z.pow_pos_nonneg; lia). nia.
      - apply Z.leb_gt in E. apply round_half_even_div_nonneg; [nia|].
        apply Z.pow_pos_nonneg; lia. }
    rewrite cond_Zopp_abs by exact H. reflexivity.
Qed.

(** *** Finite results *)

Lemma round_half_even_div_lt (a b k : Z) :
  0 < b -> 2 * a < (2 * k - 1) * b -> round_half_even_div a b < k.
Proof.
  intros Hb H. unfold round_half_even_div.
  pose proof (Z.div_mod a b ltac:(lia)) as Hd.
  pose proof (Z.mod_pos_bound a b Hb) as Hr.
  assert (Hq : a / b <= k - 1) by nia.
  destruct (Z.eq_dec (a / b) (k - 1)) as [E|E].
  - assert (Hlt : 2 * (a mod b) < b) by nia.
    apply Z.compare_lt_iff in Hlt. rewrite Hlt. lia.
  - destruct (2 * (a mod b) ?= b); try destruct (Z.even (a / b)); lia.
Qed.

(** The largest finite number, in units. *)
Lemma finite_rank_max (x : float) :
  finite x -> Z.abs (float_rank x) <= top64 - 2 ^ 2045.
Proof.
  unfold finite, float_rank. pose proof (number_valid x) as V.
  destruct (Prim2SF x) as [s|s| |s m e]; try (intros F; discriminate F); intros _.
  - vm_compute. discriminate.
  - cbn [SpecFloat.valid_binary] in V.
    destruct (bounded_canonical prec emax m e V) as (He & Hd & _).
    pose proof (Zdigits2_lt_pow2 (Zpos m) prec ltac:(lia) ltac:(vm_compute; discriminate) Hd) as Hm.
    cbn [rank units].
    assert (H2 : 0 < 2 ^ (e - emin)) by (apply Z.pow_pos_nonneg; lia).
    rewrite cond_Zopp_abs by nia.
    assert (Hle : 2 ^ (e - emin) <= 2 ^ 2045).
    { apply Z.pow_le_mono_r; [lia|]. change emin with (-1074) in *.
      change (emax - prec) with 971 in He. lia. }
    change top64 with (2 ^ 53 * 2 ^ 2045). change (2 ^ prec) with (2 ^ 53) in Hm.
    assert (Hm' : Zpos m <= 2 ^ 53 - 1) by lia.
    apply Z.le_trans with (m := (2 ^ 53 - 1) * 2 ^ 2045); [|lia].
    apply Z.mul_le_mono_nonneg; lia.
Qed.

Lemma top64_split : top64 = 2 ^ 53 * 2 ^ 2045.
Proof. vm_compute. reflexivity. Qed.

(** A sum below the largest finite number plus half a unit in its last
    place rounds to a finite number. *)
Lemma round_units_lt_top (a : Z) :
  0 <= a -> 2 * a < 2 * top64 - 2 ^ 2045 -> round_units prec a 1 < top64.
Proof.
  intros Ha H. pose proof top64_pos as Ht.
  destruct (round_units_shape prec prec_gt_1_64 a 1 Ha ltac:(lia)) as (-> & _ & Hm & _).
  set (t := bits_over prec a 1) in *.
  assert (Ht0 : 0 <= t) by apply bits_over_nonneg.
  rewrite Z.mul_1_l in *.
  set (m := round_half_even_div a (2 ^ t)) in *.
  assert (Hpow : 0 < 2 ^ t) by (apply Z.pow_pos_nonneg; lia).
  destruct (Z_lt_le_dec t 2045) as [Hlt|Hge].
  - apply Z.le_lt_trans with (m := 2 ^ prec * 2 ^ t).
    + apply Z.mul_le_mono_nonneg_r; lia.
    + rewrite top64_split. change (2 ^ prec) with (2 ^ 53).
      apply Z.mul_lt_mono_pos_l; [lia|]. apply Z.pow_lt_mono_r; lia.
  - assert (Hda : Zdigits2 a <= 2098).
    { destruct (Z_le_gt_dec (Zdigits2 a) 2098) as [|Hgt]; [assumption|].
      pose proof (Zdigits2_ge_pow2 a 2099 ltac:(lia) ltac:(lia) Ha) as Hbig.
      change (2 ^ (2099 - 1)) with top64 in Hbig.
      assert (0 < 2 ^ 2045) by (apply Z.pow_pos_nonneg; lia). lia. }
    assert (Et : t = 2045).
    { unfold t, bits_over in *. rewrite Z.div_1_r in *. change prec with 53 in *. lia. }
    assert (Hm53 : m < 2 ^ 53).
    { unfold m. rewrite Et. apply round_half_even_div_lt; [apply Z.pow_pos_nonneg; lia|].
      rewrite top64_split in H.
      replace ((2 * 2 ^ 53 - 1) * 2 ^ 2045) with (2 * (2 ^ 53 * 2 ^ 2045) - 2 ^ 2045) by ring.
      exact H. }
    rewrite Et, top64_split.
    apply Z.mul_lt_mono_pos_r; [apply Z.pow_pos_nonneg; lia | exact Hm53].
Qed.

Lemma one64_small : 2 * one64 < 2 ^ 2045.
Proof. vm_compute. reflexivity. Qed.

(** Adding one to a finite float that is not negative gives a finite float. *)
Lemma add_1_finite (v : float) :
  finite v -> 0 <= float_rank v ->
  finite (v + 1) /\ float_rank (v + 1) = round_units prec (float_rank v + one64) 1.
Proof.
  intros F Hv. pose proof one64_pos as Hone. pose proof top64_pos as Ht.
  pose proof one64_small as Hsmall.
  pose proof (finite_rank_max v F) as Hmax. rewrite Z.abs_eq in Hmax by assumption.
  destruct (add_rank v 1 F finite_1) as [Hr N]. rewrite rank_1 in Hr.
  assert (Hlt : round_units prec (float_rank v + one64) 1 < top64).
  { apply round_units_lt_top; lia. }
  pose proof (round_units_nonneg prec prec_gt_1_64 (float_rank v + one64) 1
                ltac:(lia) ltac:(lia)) as Hn.
  rewrite rnd_pos in Hr by lia. rewrite Z.min_l in Hr by lia.
  split; [|exact Hr].
  apply rank_lt_finite; [exact N|]. lia.
Qed.

(** Doubling keeps a number in the format. *)
Lemma fits_double (u : Z) : fits prec u -> fits prec (2 * u).
Proof.
  intros (Hu & Hmod). destruct (Z.eq_dec u 0) as [->|Hz].
  { split; [lia|]. reflexivity. }
  split; [lia|].
  replace (2 * u) with (u * 2 ^ 1) by (rewrite Z.pow_1_r; ring).
  rewrite Zdigits2_mul_pow2 by lia.
  set (t := Z.max (Zdigits2 u - prec) 0) in *.
  assert (Ht : 0 <= t) by (unfold t; lia).
  assert (H2t : 0 < 2 ^ t) by (apply Z.pow_pos_nonneg; lia).
  pose proof (Z.div_mod u (2 ^ t) ltac:(lia)) as Hdm.
  rewrite Hmod, Z.add_0_r in Hdm.
  destruct (Z_le_gt_dec (Zdigits2 u + 1 - prec) 0) as [Hle|Hgt].
  - rewrite Z.max_r by lia. rewrite Z.pow_0_r. apply Z.mod_1_r.
  - rewrite Z.max_l by lia.
    destruct (Z.eq_dec t 0) as [E|E].
    + replace (Zdigits2 u + 1 - prec) with 1 by (unfold t in *; lia).
      apply Z.mod_mul. rewrite Z.pow_1_r. lia.
    + replace (Zdigits2 u + 1 - prec) with (t + 1) by (unfold t in *; lia).
      rewrite Hdm. rewrite Z.pow_add_r by lia.
      replace (2 ^ t * (u / 2 ^ t) * 2 ^ 1) with (u / 2 ^ t * (2 ^ t * 2 ^ 1)) by ring.
      apply Z.mod_mul. rewrite Z.pow_1_r. lia.
Qed.

(** A number of the format above one is above one by at least one unit in
    the last place of one. *)
Lemma fits_above_one (u : Z) :
  fits prec u -> one64 < u -> u < 2 * one64 -> 2 ^ 1022 <= u - one64.
Proof.
  intros (Hu & Hmod) Hlo Hhi.
  assert (HD : Zdigits2 u = 1075).
  { apply Zdigits2_unique; [lia|]. rewrite one64_eq in *.
    change (2 ^ (1075 - 1)) with (2 ^ 1074).
    replace (2 ^ 1075) with (2 * 2 ^ 1074) by (rewrite <- Z.pow_succ_r by lia; reflexivity).
    lia. }
  rewrite HD in Hmod. change (Z.max (1075 - prec) 0) with 1022 in Hmod.
  assert (H2 : 0 < 2 ^ 1022) by (apply Z.pow_pos_nonneg; lia).
  pose proof (Z.div_mod u (2 ^ 1022) ltac:(lia)) as Hdm.
  rewrite Hmod, Z.add_0_r in Hdm.
  assert (Hone : one64 = 2 ^ 1022 * 2 ^ 52) by (vm_compute; reflexivity).
  rewrite Hone in *. nia.
Qed.

(** *** The reflection ratio [(v - 1) / (v + 1)] *)

(** Above one, the ratio is defined (the divisor is not zero) and it is
    positive, or NaN when [v] is an infinity: its logarithm is defined. *)
Lemma reflection_ratio_defined (v : float) :
  (1 <? v)%float = true ->
  (v + 1 =? 0)%float = false /\ ((v - 1) / (v + 1) <=? 0)%float = false.
Proof.
  intros H. pose proof one64_pos as Hone. pose proof top64_pos as Ht.
  destruct (ltb_true_rank 1 v H) as (_ & Nv & Hr). rewrite rank_1 in Hr.
  destruct (number_cases v Nv) as [F|[E|E]].
  - (* a finite float *)
    set (u := float_rank v) in *.
    destruct (fits_rank prec emax prec_gt_1_64 prec_lt_emax_64 (Prim2SF v)
                (number_valid v) F) as [Hfit Hlt].
    fold (float_rank v) in Hfit, Hlt. fold u in Hfit, Hlt.
    rewrite Z.abs_eq in Hfit, Hlt by lia.
    destruct (sub_rank v 1 F finite_1) as [Rn Nn]. rewrite rank_1 in Rn. fold u in Rn.
    destruct (add_1_finite v F ltac:(fold u; lia)) as [Fd Rd]. fold u in Rd.
    (* the size of u *)
    pose proof (Zdigits2_bounds u ltac:(lia)) as [Dlo Dhi].
    assert (HD : 1075 <= Zdigits2 u).
    { pose proof (Zdigits2_le one64 u ltac:(lia) ltac:(lia)) as Hle.
      rewrite one64_eq, Zdigits2_pow2 in Hle by lia. lia. }
    set (D := Zdigits2 u) in *.
    (* the numerator is at least L and at most u *)
    assert (HL : 2 ^ (D - 54) <= u - one64).
    { destruct (Z_lt_le_dec u (2 * one64)) as [Hsmall|Hbig].
      - assert (ED : D = 1075).
        { unfold D. apply Zdigits2_unique; [lia|]. rewrite one64_eq in *.
          change (2 ^ (1075 - 1)) with (2 ^ 1074).
          replace (2 ^ 1075) with (2 * 2 ^ 1074)
            by (rewrite <- Z.pow_succ_r by lia; reflexivity).
          lia. }
        pose proof (fits_above_one u Hfit Hr Hsmall) as Hgap.
        rewrite ED. change (1075 - 54) with 1021.
        apply Z.le_trans with (2 := Hgap). apply Z.pow_le_mono_r; lia.
      - assert (2 ^ (D - 54) <= 2 ^ (D - 2)) by (apply Z.pow_le_mono_r; lia).
        assert (2 * 2 ^ (D - 2) <= 2 ^ (D - 1)).
        { rewrite <- Z.pow_succ_r by lia. apply Z.pow_le_mono_r; lia. }
        lia. }
    assert (HLpos : 0 < 2 ^ (D - 54)) by (apply Z.pow_pos_nonneg; lia).
    assert (HLfit : fits prec (2 ^ (D - 54))) by (apply fits_pow2; [b64 | lia]).
    assert (Rn_lo : 2 ^ (D - 54) <= float_rank (v - 1)).
    { rewrite Rn. rewrite <- (rnd_id prec emax (2 ^ (D - 54))) at 1;
        [| rewrite Z.abs_eq by lia; exact HLfit | rewrite Z.abs_eq by lia; lia].
      apply rnd_mono; try b64; lia. }
    assert (Rn_hi : float_rank (v - 1) <= u).
    { rewrite Rn. rewrite <- (rnd_id prec emax u) at 2;
        [| rewrite Z.abs_eq by lia; exact Hfit | rewrite Z.abs_eq by lia; lia].
      apply rnd_mono; try b64; lia. }
    assert (Fn : finite (v - 1)) by (apply rank_lt_finite; [exact Nn | lia]).
    (* the denominator is at least u and at most 2 u *)
    assert (Rd_lo : u <= float_rank (v + 1)).
    { rewrite Rd. rewrite <- (round_units_id prec u Hfit) at 1.
      apply round_units_mono; try b64; lia. }
    assert (Rd_hi : float_rank (v + 1) <= 2 * u).
    { rewrite Rd. rewrite <- (round_units_id prec (2 * u) (fits_double u Hfit)).
      apply round_units_mono; try b64; lia. }
    split.
    + rewrite eqb_rank by (apply finite_number; assumption || reflexivity).
      rewrite rank_0. apply Z.eqb_neq. lia.
    + destruct (div_rank (v - 1) (v + 1) Fn Fd ltac:(lia)) as [Rq Nq].
      rewrite leb_rank by (assumption || reflexivity).
      rewrite rank_0. apply Z.leb_gt. rewrite Rq.
      assert (Hnum : float_rank (v + 1) <= float_rank (v - 1) * one64).
      { apply Z.le_trans with (m := 2 ^ (D + 1)).
        - rewrite Z.pow_add_r, Z.pow_1_r by lia. fold D in Dhi. lia.
        - apply Z.le_trans with (m := 2 ^ (D - 54) * one64).
          + rewrite one64_eq, <- Z.pow_add_r by lia. apply Z.pow_le_mono_r; lia.
          + apply Z.mul_le_mono_nonneg_r; lia. }
      rewrite rnd_pos by nia.
      pose proof (round_units_pos prec prec_gt_1_64
                    (float_rank (v - 1) * one64) (float_rank (v + 1))
                    ltac:(lia) Hnum).
      lia.
  - (* plus infinity: the ratio is NaN *)
    split.
    + rewrite eqb_spec, add_spec, E. reflexivity.
    + rewrite leb_spec, div_spec, sub_spec, add_spec, E. reflexivity.
  - (* minus infinity is not above one *)
    unfold float_rank in Hr. rewrite E in Hr. cbn [rank cond_Zopp] in Hr. lia.
Qed.

(** *** Exact operations: the remainder, the floor, the integer part *)

Lemma prec_nonneg_64 : 0 <= prec.
Proof. pose proof prec_gt_1_64. lia. Qed.

Lemma prec_succ_pos_64 : 0 < prec + 1.
Proof. pose proof prec_gt_1_64. lia. Qed.

Lemma rank_SF2Prim (y : spec_float) :
  SpecFloat.valid_binary prec emax y = true ->
  float_rank (SF2Prim y) = rank prec emax y /\
  (is_finite_sf y = true -> finite (SF2Prim y)).
Proof.
  intros V. unfold float_rank, finite. rewrite Prim2SF_SF2Prim by exact V. auto.
Qed.

Lemma finite_rank_nonneg_cases (x : float) :
  finite x -> 0 <= float_rank x ->
  (exists s, Prim2SF x = S754_zero s) \/
  (exists m e, Prim2SF x = S754_finite false m e /\
     bounded prec emax m e = true /\ float_rank x = Zpos m * 2 ^ (e - emin)).
Proof.
  unfold finite, float_rank. pose proof (number_valid x) as V.
  destruct (Prim2SF x) as [s|s| |s m e]; try (intros F; discriminate F); intros _ H.
  - left. exists s. reflexivity.
  - right. cbn [SpecFloat.valid_binary] in V.
    destruct (bounded_canonical prec emax m e V) as (He & _).
    pose proof (units_finite_pos prec emax prec_gt_1_64 m e ltac:(lia)) as Hu.
    cbn [rank units] in H. destruct s; cbn [cond_Zopp] in H; [lia|].
    exists m, e. auto.
Qed.

Lemma finite_rank_pos_cases (x : float) :
  finite x -> 0 < float_rank x ->
  exists m e, Prim2SF x = S754_finite false m e /\
    bounded prec emax m e = true /\ float_rank x = Zpos m * 2 ^ (e - emin).
Proof.
  intros F H. destruct (finite_rank_nonneg_cases x F ltac:(lia)) as [(s & E)|R];
    [|exact R].
  unfold float_rank in H. rewrite E in H. cbn [rank units] in H. lia.
Qed.

(** The remainder of two aligned mantissas has at most 53 bits. *)
Lemma fits_remainder (a b e : Z) :
  0 <= e -> 0 <= a -> 0 < b -> (a < 2 ^ prec \/ b < 2 ^ prec) ->
  fits prec ((a mod b) * 2 ^ e).
Proof.
  intros He Ha Hb H.
  pose proof (Z.mod_pos_bound a b Hb) as Hr.
  pose proof (Z.mod_le a b Ha Hb) as Hle.
  apply fits_mul_pow2; try b64; try lia.
  destruct (Z_le_gt_dec (Zdigits2 (a mod b)) prec) as [|Hgt]; [assumption|].
  pose proof (Zdigits2_ge_pow2 (a mod b) (prec + 1) prec_succ_pos_64 ltac:(lia) ltac:(lia)) as Hbig.
  replace (prec + 1 - 1) with prec in Hbig by lia. lia.
Qed.

(** [fmod] of a finite float that is not negative by a positive finite
    float: the remainder of the ranks. *)
Lemma fmod_rank (x c : float) :
  finite x -> 0 <= float_rank x -> finite c -> 0 < float_rank c ->
  float_rank (fmod x c) = float_rank x mod float_rank c /\ finite (fmod x c).
Proof.
  intros Fx Hx Fc Hc. pose proof top64_pos as Ht.
  destruct (finite_rank_pos_cases c Fc Hc) as (my & ey & Ec & Vc & Rc).
  destruct (bounded_canonical prec emax my ey Vc) as (Hey & Hdy & _).
  unfold fmod. rewrite Ec.
  destruct (finite_rank_nonneg_cases x Fx Hx) as [(s & Ex)|(mx & ex & Ex & Vx & Rx)].
  - rewrite Ex. cbn [SFfmod].
    destruct (rank_SF2Prim (S754_zero s) eq_refl) as [R F].
    rewrite R. unfold float_rank at 1. rewrite Ex. cbn [rank units].
    rewrite Z.mod_0_l by lia. split; [reflexivity | apply F; reflexivity].
  - rewrite Ex. cbn [SFfmod].
    destruct (bounded_canonical prec emax mx ex Vx) as (Hex & Hdx & _).
    set (e := Z.min ex ey).
    set (a := Zpos mx * 2 ^ (ex - e)). set (b := Zpos my * 2 ^ (ey - e)).
    assert (H2a : 0 < 2 ^ (ex - e)) by (apply Z.pow_pos_nonneg; unfold e; lia).
    assert (H2b : 0 < 2 ^ (ey - e)) by (apply Z.pow_pos_nonneg; unfold e; lia).
    assert (H2e : 0 < 2 ^ (e - emin)) by (apply Z.pow_pos_nonneg; unfold e; lia).
    assert (Ha : 0 < a) by (unfold a; nia).
    assert (Hb : 0 < b) by (unfold b; nia).
    cbn [cond_Zopp]. rewrite Z.rem_mod_nonneg by lia.
    destruct (binary_normalize_rank prec emax prec_gt_1_64 prec_lt_emax_64
                (a mod b) e false ltac:(unfold e; lia)) as (Rn & Nn & Vn).
    destruct (rank_SF2Prim _ Vn) as [R F]. rewrite R, Rn.
    assert (Ea : a * 2 ^ (e - emin) = float_rank x).
    { rewrite Rx. unfold a. rewrite <- Z.mul_assoc, <- Z.pow_add_r by (unfold e; lia).
      f_equal. f_equal. lia. }
    assert (Eb : b * 2 ^ (e - emin) = float_rank c).
    { rewrite Rc. unfold b. rewrite <- Z.mul_assoc, <- Z.pow_add_r by (unfold e; lia).
      f_equal. f_equal. lia. }
    assert (Emod : a mod b * 2 ^ (e - emin) = float_rank x mod float_rank c).
    { rewrite <- Ea, <- Eb. symmetry. apply Z.mul_mod_distr_r; lia. }
    pose proof (Z.mod_pos_bound a b Hb) as Hr.
    assert (Hfit : fits prec (a mod b * 2 ^ (e - emin))).
    { apply fits_remainder; [unfold e; lia | lia | lia |].
      pose proof (Zdigits2_lt_pow2 (Zpos mx) prec ltac:(lia) prec_nonneg_64 Hdx).
      pose proof (Zdigits2_lt_pow2 (Zpos my) prec ltac:(lia) prec_nonneg_64 Hdy).
      destruct (Z.min_spec ex ey) as [[_ E]|[_ E]]; fold e in E.
      - left. unfold a. rewrite E, Z.sub_diag, Z.pow_0_r. lia.
      - right. unfold b. rewrite E, Z.sub_diag, Z.pow_0_r. lia. }
    assert (Hlt : a mod b * 2 ^ (e - emin) < top64).
    { rewrite Emod.
      pose proof (Z.mod_le (float_rank x) (float_rank c) Hx Hc).
      pose proof (finite_rank_lt x Fx). lia. }
    assert (Hnn : 0 <= a mod b * 2 ^ (e - emin)) by nia.
    rewrite rnd_id by (rewrite Z.abs_eq by lia; assumption).
    split; [exact Emod|].
    apply rank_lt_finite.
    + unfold number. rewrite Prim2SF_SF2Prim by exact Vn. exact Nn.
    + rewrite R, Rn, rnd_id by (rewrite Z.abs_eq by lia; assumption). lia.
Qed.

Lemma shiftl_rank (m : positive) (e : Z) :
  emin <= e -> Z.shiftl (Zpos m) e = Zpos m * 2 ^ (e - emin) / one64.
Proof.
  intros He. assert (Hemin : emin < 0) by (apply emin_neg; b64).
  unfold one_units.
  destruct (Z_le_gt_dec 0 e) as [Hle|Hgt].
  - rewrite Z.shiftl_mul_pow2 by lia.
    replace (e - emin) with (e + - emin) by lia.
    rewrite Z.pow_add_r, Z.mul_assoc by lia.
    symmetry. apply Z.div_mul. apply Z.pow_nonzero; lia.
  - rewrite Z.shiftl_div_pow2 by lia.
    replace (- emin) with (- e + (e - emin)) by lia.
    rewrite Z.pow_add_r by lia.
    symmetry. apply Z.div_mul_cancel_r; apply Z.pow_nonzero; lia.
Qed.

(** [int(x)] of a finite float that is not negative: the whole units of
    one in its rank. *)
Lemma int_of_float_rank (x : float) :
  finite x -> 0 <= float_rank x -> int_of_float x = Ok (float_rank x / one64).
Proof.
  intros F H. pose proof one64_pos as Hone. unfold int_of_float.
  destruct (finite_rank_nonneg_cases x F H) as [(s & E)|(m & e & E & V & R)];
    rewrite E.
  - unfold float_rank. rewrite E. cbn [rank units].
    rewrite Z.div_0_l by lia. reflexivity.
  - destruct (bounded_canonical prec emax m e V) as (He & _).
    rewrite R, shiftl_rank by lia. reflexivity.
Qed.

(** [floor] of a finite float that is not negative. *)
Lemma floor_rank (x : float) :
  finite x -> 0 <= float_rank x ->
  float_rank (floor x) = float_rank x / one64 * one64 /\ finite (floor x).
Proof.
  intros F H. pose proof one64_pos as Hone. pose proof top64_pos as Ht.
  assert (Hemin : emin < 0) by (apply emin_neg; b64).
  unfold floor.
  destruct (finite_rank_nonneg_cases x F H) as [(s & E)|(m & e & E & V & R)];
    rewrite E; cbn [SFfloor].
  - destruct (rank_SF2Prim (S754_zero s) eq_refl) as [R Fz]. rewrite R.
    unfold float_rank. rewrite E. cbn [rank units].
    rewrite Z.div_0_l by lia. split; [reflexivity | apply Fz; reflexivity].
  - destruct (bounded_canonical prec emax m e V) as (He & Hd & _).
    pose proof (shiftl_rank m e ltac:(lia)) as Hs. rewrite <- R in Hs.
    destruct (Z.leb_spec 0 e) as [Hle|Hlt].
    + destruct (rank_SF2Prim (S754_finite false m e) V) as [Rf Ff].
      rewrite Rf. cbn [rank units cond_Zopp]. rewrite <- R.
      split; [|apply Ff; reflexivity].
      rewrite R. unfold one_units.
      replace (e - emin) with (e + - emin) by lia.
      rewrite Z.pow_add_r, Z.mul_assoc by lia.
      rewrite Z.div_mul by (apply Z.pow_nonzero; lia). reflexivity.
    + rewrite Hs. set (q := float_rank x / one64).
      destruct (binary_normalize_rank prec emax prec_gt_1_64 prec_lt_emax_64
                  q 0 false ltac:(lia)) as (Rn & Nn & Vn).
      destruct (rank_SF2Prim _ Vn) as [Rf Ff]. rewrite Rf, Rn.
      replace (0 - emin) with (- emin) by lia. fold one64.
      assert (Hq : 0 <= q) by (apply Z.div_pos; lia).
      assert (Hqle : q * one64 <= float_rank x).
      { unfold q. rewrite Z.mul_comm. apply Z.mul_div_le. lia. }
      assert (Hq53 : q < 2 ^ prec).
      { unfold q. rewrite <- Hs. rewrite Z.shiftl_div_pow2 by lia.
        pose proof (Zdigits2_lt_pow2 (Zpos m) prec ltac:(lia) prec_nonneg_64 Hd).
        apply Z.le_lt_trans with (m := Zpos m); [|assumption].
        apply Z.div_le_upper_bound; [apply Z.pow_pos_nonneg; lia|].
        assert (0 < 2 ^ (- e)) by (apply Z.pow_pos_nonneg; lia). nia. }
      assert (Hfit : fits prec (q * one64)).
      { unfold one_units. apply fits_mul_pow2; try b64; try lia.
        destruct (Z_le_gt_dec (Zdigits2 q) prec) as [|Hgt]; [assumption|].
        pose proof (Zdigits2_ge_pow2 q (prec + 1) prec_succ_pos_64 ltac:(lia) Hq) as Hbig.
        replace (prec + 1 - 1) with prec in Hbig by lia. lia. }
      pose proof (finite_rank_lt x F) as Hxt.
      assert (Hid : rnd64 (q * one64) 1 = q * one64).
      { apply rnd_id; rewrite Z.abs_eq by nia; [exact Hfit | lia]. }
      rewrite Hid. split; [reflexivity|].
      apply rank_lt_finite.
      * unfold number. rewrite Prim2SF_SF2Prim by exact Vn. exact Nn.
      * rewrite Rf, Rn.
        replace (0 - emin) with (- emin) by lia. fold one64.
        rewrite Hid. nia.
Qed.

Lemma signed_zero_rank (y : float) :
  float_rank (signed_zero y) = 0 /\ finite (signed_zero y).
Proof. unfold signed_zero. destruct (get_sign y); split; reflexivity. Qed.

(** *** The true division of two integers *)

Lemma SFquot_pack (s : bool) (a b : positive) :
  SFquot s a b = pack prec emax s (round_units prec (Zpos a * one64) (Zpos b)).
Proof.
  unfold SFquot. rewrite (div_core_spec prec emax prec_gt_1_64 s a b 0 0).
  replace (Z.max (0 - 0 - emin) 0) with (- emin) by reflexivity.
  replace (Z.max (emin - (0 - 0)) 0) with 0 by reflexivity.
  rewrite Z.pow_0_r, Z.mul_1_r. reflexivity.
Qed.

Lemma Zdigits2_le_of_lt_pow2 (m k : Z) : 0 <= m -> 0 <= k -> m < 2 ^ k -> Zdigits2 m <= k.
Proof.
  intros Hm Hk H. destruct (Z_le_gt_dec (Zdigits2 m) k) as [|Hgt]; [assumption|].
  pose proof (Zdigits2_ge_pow2 m (k + 1) ltac:(lia) ltac:(lia) Hm) as Hbig.
  replace (k + 1 - 1) with k in Hbig by lia. lia.
Qed.

Lemma fits_int (n : Z) : 0 <= n -> n < 2 ^ prec -> fits prec (n * one64).
Proof.
  intros Hn H. unfold one_units.
  apply fits_mul_pow2; [b64 | lia | apply Z.lt_le_incl, Z.opp_pos_neg, emin_neg; b64 |].
  apply Zdigits2_le_of_lt_pow2; [lia | apply prec_nonneg_64 | exact H].
Qed.

Lemma pow2_44_one64_lt_top : 2 ^ prec * one64 < top64.
Proof. rewrite one64_eq, top64_eq. vm_compute. reflexivity. Qed.

(** The quotient of two integers, when it is below [2 ^ 44] and the divisor
    below [2 ^ 10], rounds to a float in the same unit interval. *)
Lemma quot_units_bounds (a b : Z) :
  0 <= a -> 0 < b < 1024 -> a / b < 2 ^ 44 ->
  let u := round_units prec (a * one64) b in
  a / b * one64 <= u < (a / b + 1) * one64.
Proof.
  intros Ha Hb Hk u. pose proof one64_pos as Hone.
  set (k := a / b) in *.
  assert (Hk0 : 0 <= k) by (apply Z.div_pos; lia).
  assert (Hlo : b * k <= a) by (apply Z.mul_div_le; lia).
  assert (Hhi : a < b * (k + 1)).
  { pose proof (Z.mul_succ_div_gt a b ltac:(lia)). fold k in H. lia. }
  assert (H44 : 2 ^ 44 * 2 ^ 9 = 2 ^ prec) by reflexivity.
  split.
  - assert (Hf : fits prec (k * one64)).
    { apply fits_int; [lia|]. rewrite <- H44. lia. }
    rewrite <- (round_units_id prec _ Hf). unfold u.
    apply round_units_mono; [b64 | nia | lia | lia |]. nia.
  - destruct (round_units_shape prec prec_gt_1_64 (a * one64) b ltac:(nia) ltac:(lia))
      as (E & _ & _ & _).
    fold u in E. cbv zeta in E.
    set (t := bits_over prec (a * one64) b) in *.
    assert (Ht0 : 0 <= t) by (apply bits_over_nonneg).
    assert (Ht : t <= 1065).
    { unfold t, bits_over.
      assert (Hq : a * one64 / b < 2 ^ 1118).
      { apply Z.div_lt_upper_bound; [lia|].
        replace (2 ^ 1118) with (2 ^ 44 * one64)
          by (rewrite one64_eq, <- Z.pow_add_r by lia; reflexivity).
        assert (a < b * 2 ^ 44) by nia. nia. }
      assert (Hq0 : 0 <= a * one64 / b) by (apply Z.div_pos; nia).
      pose proof (Zdigits2_le_of_lt_pow2 _ 1118 Hq0 ltac:(lia) Hq).
      assert (prec = 53) by reflexivity. lia. }
    set (P := 2 ^ t) in *. set (Q := 2 ^ (1074 - t)).
    assert (HP : 0 < P) by (apply Z.pow_pos_nonneg; lia).
    assert (HPQ : P * Q = one64).
    { unfold P, Q. rewrite one64_eq, <- Z.pow_add_r by lia. f_equal. lia. }
    assert (HQ : 512 <= Q).
    { unfold Q. change 512 with (2 ^ 9). apply Z.pow_le_mono_r; lia. }
    assert (Hm : round_half_even_div (a * one64) (b * P) < (k + 1) * Q).
    { apply round_half_even_div_lt; [nia|].
      rewrite <- HPQ.
      assert (H1 : a + 1 <= b * (k + 1)) by lia.
      assert (H2 : 2 * (a * (P * Q)) + 2 * (P * Q) <= 2 * (b * (k + 1)) * (P * Q)).
      { replace (2 * (a * (P * Q)) + 2 * (P * Q)) with (2 * (a + 1) * (P * Q)) by ring.
        apply Z.mul_le_mono_nonneg_r; nia. }
      assert (H3 : b * P < 2 * (P * Q)).
      { replace (2 * (P * Q)) with (2 * Q * P) by ring.
        apply Z.mul_lt_mono_pos_r; lia. }
      replace ((2 * ((k + 1) * Q) - 1) * (b * P))
        with (2 * (b * (k + 1)) * (P * Q) - b * P) by ring.
      lia. }
    rewrite E.
    replace ((k + 1) * one64) with ((k + 1) * Q * P) by (rewrite <- HPQ; ring).
    apply Z.mul_lt_mono_pos_r; lia.
Qed.

Lemma finite_result (y : spec_float) :
  is_finite_sf y = true ->
  match y with
  | S754_zero s => Ok (SF2Prim (S754_zero s))
  | S754_infinity _ => Raise OverflowError
  | S754_nan => Ok (SF2Prim S754_nan)
  | S754_finite s m e => Ok (SF2Prim (S754_finite s m e))
  end = Ok (SF2Prim y).
Proof. destruct y; intros F; try discriminate F; reflexivity. Qed.

(** [a / b] for an integer that is not negative and a small positive one. *)
Lemma int_true_div_rank (a b : Z) :
  0 <= a -> 0 < b < 1024 -> a / b < 2 ^ 44 ->
  exists q, int_true_div a b = Ok q /\ finite q /\
    a / b * one64 <= float_rank q < (a / b + 1) * one64.
Proof.
  intros Ha Hb Hk. pose proof one64_pos as Hone.
  destruct b as [|b|b]; try lia.
  destruct a as [|a|a]; try lia.
  - exists zero. cbn [int_true_div Z.ltb Z.compare xorb].
    rewrite Z.div_0_l by lia. change (float_rank zero) with 0.
    split; [reflexivity | split; [reflexivity | lia]].
  - pose proof (quot_units_bounds (Zpos a) (Zpos b) Ha Hb Hk) as B. cbv zeta in B.
    set (u := round_units prec (Zpos a * one64) (Zpos b)) in *.
    assert (Hf : fits prec u) by (apply round_units_fits; [b64 | lia | lia]).
    assert (Hlt : u < top64).
    { pose proof pow2_44_one64_lt_top.
      assert (2 ^ 44 * 2 ^ 9 = 2 ^ prec) by reflexivity.
      assert ((Zpos a / Zpos b + 1) * one64 <= 2 ^ 44 * one64)
        by (apply Z.mul_le_mono_nonneg_r; lia).
      nia. }
    pose proof (pack_valid prec emax prec_gt_1_64 prec_lt_emax_64 false u Hf) as V.
    pose proof (pack_is_finite prec emax prec_gt_1_64 prec_lt_emax_64 false u Hf) as F.
    pose proof (rank_pack prec emax prec_gt_1_64 prec_lt_emax_64 false u Hf) as R.
    rewrite (proj2 (Z.ltb_lt _ _) Hlt) in F.
    cbn [cond_Zopp] in R. rewrite Z.min_l in R by lia.
    destruct (rank_SF2Prim _ V) as [R' F'].
    exists (SF2Prim (pack prec emax false u)).
    split; [|split; [exact (F' F) | rewrite R', R; exact B]].
    unfold int_true_div. cbn [Z.ltb Z.compare xorb Z.abs Z.to_pos].
    rewrite SFquot_pack. fold u. apply finite_result. exact F.
Qed.

(** *** Floor division and remainder of floats *)

Lemma rank_half_pos : 0 < float_rank 0.5.
Proof. reflexivity. Qed.

Lemma number_half : number 0.5.
Proof. reflexivity. Qed.

Section FloorDiv.

Variables x c : float.
Variable n : Z.
Hypothesis x_finite : finite x.
Hypothesis x_nonneg : 0 <= float_rank x.
Hypothesis x_small : float_rank x < 2 ^ prec * one64.
Hypothesis c_finite : finite c.
Hypothesis c_int : float_rank c = n * one64.
Hypothesis c_pos : 0 < n.

Lemma divisor_pos : 0 < float_rank c.
Proof. pose proof one64_pos. rewrite c_int. nia. Qed.

Lemma divisor_not_zero : (c =? 0)%float = false.
Proof.
  rewrite eqb_rank by (apply finite_number; first [exact c_finite | exact finite_0]).
  rewrite rank_0. apply Z.eqb_neq. pose proof divisor_pos. lia.
Qed.

Lemma divisor_not_negative : (c <? 0)%float = false.
Proof.
  rewrite ltb_rank by (apply finite_number; first [exact c_finite | exact finite_0]).
  rewrite rank_0. apply Z.ltb_ge. pose proof divisor_pos. lia.
Qed.

Lemma remainder_not_negative : (fmod x c <? 0)%float = false.
Proof.
  destruct (fmod_rank x c x_finite x_nonneg c_finite divisor_pos) as [R F].
  rewrite ltb_rank by (apply finite_number; first [exact F | exact finite_0]).
  rewrite rank_0, R. apply Z.ltb_ge.
  apply Z.mod_pos_bound. exact divisor_pos.
Qed.

(** [x % c] is the remainder of the ranks. *)
Lemma float_mod_rank :
  exists r, float_mod x c = Ok r /\ finite r /\
    float_rank r = float_rank x mod float_rank c.
Proof.
  destruct (fmod_rank x c x_finite x_nonneg c_finite divisor_pos) as [R F].
  unfold float_mod. rewrite divisor_not_zero. cbv zeta.
  rewrite divisor_not_negative, remainder_not_negative. cbn [xorb].
  rewrite eqb_rank by (apply finite_number; first [exact F | exact finite_0]).
  rewrite rank_0.
  destruct (Z.eqb_spec (float_rank (fmod x c)) 0) as [E|E]; cbn [negb].
  - exists (signed_zero c). destruct (signed_zero_rank c) as [Rz Fz].
    split; [reflexivity | split; [exact Fz|]]. rewrite Rz, <- R, E. reflexivity.
  - exists (fmod x c). auto.
Qed.

(** [x // c] is the quotient of the ranks, counted in units of one. *)
Lemma float_floordiv_rank :
  exists q, float_floordiv x c = Ok q /\ finite q /\
    float_rank q = float_rank x / float_rank c * one64.
Proof.
  pose proof one64_pos as Hone. pose proof top64_pos as Htop.
  pose proof divisor_pos as HC. pose proof pow2_44_one64_lt_top as Hbig.
  pose proof (finite_rank_lt x x_finite) as HX.
  destruct (fmod_rank x c x_finite x_nonneg c_finite HC) as [R F].
  pose proof c_int as HCn.
  set (X := float_rank x) in *. set (C := float_rank c) in *.
  set (k := X / C).
  assert (Hk0 : 0 <= k) by (apply Z.div_pos; lia).
  assert (Hdiv : X = C * k + X mod C) by (apply Z.div_mod; lia).
  pose proof (Z.mod_pos_bound X C HC) as Hmod.
  assert (HnkX : n * k * one64 <= X).
  { replace (n * k * one64) with (C * k) by (rewrite HCn; ring). lia. }
  assert (Hnk : n * k < 2 ^ prec).
  { apply Z.mul_lt_mono_pos_r with (p := one64); lia. }
  assert (Hk53 : k < 2 ^ prec) by nia.
  (* vx - mod *)
  destruct (sub_rank x (fmod x c) x_finite F) as [Rs Ns].
  fold X in Rs. rewrite R in Rs.
  replace (X - X mod C) with (n * k * one64) in Rs
    by (replace (n * k * one64) with (C * k) by (rewrite HCn; ring); lia).
  rewrite rnd_id in Rs
    by (rewrite Z.abs_eq by nia; first [apply fits_int; [nia | exact Hnk] | lia]).
  assert (Fs : finite (x - fmod x c)).
  { apply rank_lt_finite; [exact Ns|]. rewrite Rs. nia. }
  (* (vx - mod) / wx *)
  destruct (div_rank (x - fmod x c) c Fs c_finite HC) as [Rd Nd].
  rewrite Rs in Rd. fold C in Rd.
  rewrite (rnd_ratio prec emax prec_gt_1_64 prec_lt_emax_64
             (n * k * one64 * one64) C (k * one64) 1 HC ltac:(lia)
             ltac:(rewrite HCn; ring)) in Rd.
  assert (Hkone : k * one64 <= X) by nia.
  rewrite rnd_id in Rd
    by (rewrite Z.abs_eq by nia; first [apply fits_int; [lia | exact Hk53] | lia]).
  assert (Fd : finite ((x - fmod x c) / c)).
  { apply rank_lt_finite; [exact Nd|]. rewrite Rd. nia. }
  unfold float_floordiv. rewrite divisor_not_zero. cbv zeta.
  rewrite divisor_not_negative, remainder_not_negative. cbn [xorb].
  rewrite Bool.andb_false_r.
  rewrite eqb_rank by (apply finite_number; first [exact Fd | exact finite_0]).
  rewrite rank_0, Rd.
  destruct (Z.eqb_spec (k * one64) 0) as [E|E]; cbn [negb].
  - exists (signed_zero (x / c)). destruct (signed_zero_rank (x / c)) as [Rz Fz].
    split; [reflexivity | split; [exact Fz|]]. rewrite Rz. fold k. lia.
  - destruct (floor_rank _ Fd ltac:(rewrite Rd; nia)) as [Rf Ff].
    rewrite Rd, Z.div_mul in Rf by lia.
    destruct (sub_rank _ _ Fd Ff) as [Rm Nm].
    rewrite Rd, Rf, Z.sub_diag, rnd_0 in Rm.
    rewrite ltb_rank by (exact number_half || exact Nm).
    rewrite Rm. rewrite (proj2 (Z.ltb_ge _ _)) by (pose proof rank_half_pos; lia).
    exists (floor ((x - fmod x c) / c)).
    split; [reflexivity | split; [exact Ff | exact Rf]].
Qed.

End FloorDiv.

(** ** The exceptions of the conversions *)

(** [int()] and [float()] of a string, and [str()] of an [int], raise
    nothing but [ValueError]. *)
Lemma int_of_string_raise (s : string) (e : exn) :
  int_of_string s = Raise e -> e = ValueError.
Proof.
  unfold int_of_string. destruct (take_sign (numeral_chars s)) as [neg l].
  destruct (digitpart l) as [[[v n] [|c r]]|]; try congruence.
  destruct (int_max_str_digits <? n); congruence.
Qed.

Lemma float_of_string_raise (s : string) (e : exn) :
  float_of_string s = Raise e -> e = ValueError.
Proof.
  unfold float_of_string. destruct (take_sign (numeral_chars s)) as [neg l].
  destruct (String.eqb (lower_string l) "inf" || String.eqb (lower_string l) "infinity")%bool;
    [congruence|].
  destruct (String.eqb (lower_string l) "nan"); [congruence|].
  destruct (decimal_numeral l) as [[n k]|]; congruence.
Qed.

Lemma py_str_raise (z : Z) (e : exn) :
  py_str z = Raise e -> e = ValueError.
Proof.
  unfold py_str. destruct (10 ^ int_max_str_digits <=? Z.abs z); congruence.
Qed.

Lemma py_str_ok (z : Z) (s : string) :
  py_str z = Ok s -> s = str_of_Z z /\ Z.abs z < 10 ^ int_max_str_digits.
Proof.
  unfold py_str.
  destruct (Z.leb_spec (10 ^ int_max_str_digits) (Z.abs z)) as [H|H]; [discriminate|].
  intros E. inversion E. auto.
Qed.

Lemma py_str_small (z : Z) :
  Z.abs z < 10 ^ int_max_str_digits -> py_str z = Ok (str_of_Z z).
Proof.
  unfold py_str. intros H.
  destruct (Z.leb_spec (10 ^ int_max_str_digits) (Z.abs z)) as [H'|H']; [|reflexivity].
  exfalso. apply (Z.lt_irrefl (Z.abs z)). eapply Z.lt_le_trans; eassumption.
Qed.

Lemma py_str_large (z : Z) :
  10 ^ int_max_str_digits <= Z.abs z -> py_str z = Raise ValueError.
Proof.
  unfold py_str. intros H.
  destruct (Z.leb_spec (10 ^ int_max_str_digits) (Z.abs z)) as [H'|H']; [reflexivity|].
  exfalso. apply (Z.lt_irrefl (Z.abs z)). eapply Z.lt_le_trans; eassumption.
Qed.

(** ** The computations in a world *)

Lemma bindM_ok {W A B : Type} (c : M W A) (k : A -> M W B) (w w' : W) (b : B) :
  bindM c k w = (Ok b, w') ->
  exists a w1, c w = (Ok a, w1) /\ k a w1 = (Ok b, w').
Proof.
  unfold bindM. destruct (c w) as [[a|e] w1]; intros H.
  - exists a, w1. auto.
  - discriminate.
Qed.

Lemma bindM_raise {W A B : Type} (c : M W A) (k : A -> M W B) (w w' : W) (e : exn) :
  bindM c k w = (Raise e, w') ->
  c w = (Raise e, w') \/ exists a w1, c w = (Ok a, w1) /\ k a w1 = (Raise e, w').
Proof.
  unfold bindM. destruct (c w) as [[a|e0] w1]; intros H.
  - right. exists a, w1. auto.
  - left. inversion H. reflexivity.
Qed.

Lemma keeps_bindM {W A B X : Type} (f : W -> X) (c : M W A) (k : A -> M W B) :
  keeps f c -> (forall a, keeps f (k a)) -> keeps f (bindM c k).
Proof.
  intros Hc Hk w r w'. unfold bindM.
  destruct (c w) as [[a|e] w1] eqn:E; intros H.
  - rewrite (Hk a w1 r w' H). exact (Hc w _ w1 E).
  - inversion H; subst. exact (Hc w _ w' E).
Qed.

Lemma keeps_ret {W A X : Type} (f : W -> X) (a : A) : keeps f (@ret W A a).
Proof. intros w r w' H. inversion H. reflexivity. Qed.

Lemma keeps_lift {W A X : Type} (f : W -> X) (r : result A) : keeps f (@lift W A r).
Proof. intros w r' w' H. inversion H. reflexivity. Qed.

(** ** The instrument link *)

Lemma instrument_query_spec (cmd : string) (d : instrument) :
  instrument_query cmd d =
    (match answer d (asked d) cmd with
     | Reply s => Ok s
     | NoReply => Raise VisaIOError
     end, received cmd d).
Proof. unfold instrument_query. destruct (answer d (asked d) cmd); reflexivity. Qed.

Lemma all_readable_received (cmd : string) (d : instrument) (cmds : list string) :
  forall k, all_readable (received cmd d) k cmds <-> all_readable d (S k) cmds.
Proof.
  induction cmds as [|c cmds IH]; intros k; cbn [all_readable]; [tauto|].
  rewrite IH. cbn [received answer asked].
  rewrite <- Nat.add_succ_comm. tauto.
Qed.

(** ** The monitor: what one iteration does to the file and to the link *)

Module MonitorFacts.

Import Monitor MonitorSpec.

Lemma one_row_bindM {A B : Type} (c : M world A) (k : A -> M world B) :
  keeps csvfile c -> (forall a, one_row_or_none (k a)) ->
  one_row_or_none (bindM c k).
Proof.
  intros Hc Hk w r w'. unfold bindM.
  destruct (c w) as [[a|e] w1] eqn:E; intros H.
  - specialize (Hk a w1 r w' H). rewrite (Hc w _ w1 E) in Hk. exact Hk.
  - inversion H; subst. exact (Hc w _ w' E).
Qed.

Lemma keeps_csvfile_next_i : keeps csvfile next_i.
Proof. intros w r w' H. inversion H. reflexivity. Qed.

Lemma keeps_csvfile_set (x : var) (v : pyval) : keeps csvfile (set x v).
Proof. intros w r w' H. inversion H. reflexivity. Qed.

Lemma keeps_csvfile_after : keeps csvfile after.
Proof. intros w r w' H. inversion H. reflexivity. Qed.

Lemma keeps_csvfile_query (cmd : string) : keeps csvfile (query cmd).
Proof.
  intros w r w'. unfold query. rewrite instrument_query_spec.
  intros H. inversion H. reflexivity.
Qed.

Lemma keeps_csvfile_fetch (cmd : string) : keeps csvfile (fetch cmd).
Proof.
  unfold fetch. apply keeps_bindM; [apply keeps_csvfile_query|]. intros s.
  apply keeps_bindM; [apply keeps_lift|]. intros x. apply keeps_ret.
Qed.

Lemma keeps_csvfile_fetch_int (cmd : string) : keeps csvfile (fetch_int cmd).
Proof.
  unfold fetch_int. apply keeps_bindM; [apply keeps_csvfile_query|]. intros s.
  apply keeps_lift.
Qed.

Lemma one_row_writerow_after (x : row) :
  one_row_or_none (bindM (writerow x) (fun _ => after)).
Proof. intros w r w' H. inversion H. cbn. exists x. reflexivity. Qed.

Lemma update_readings_one_row (log10 : float -> float) :
  one_row_or_none (update_readings log10).
Proof.
  unfold update_readings.
  repeat
    (cbv zeta;
     lazymatch goal with
     | |- one_row_or_none (bindM (writerow _) _) => apply one_row_writerow_after
     | |- one_row_or_none (bindM next_i _) =>
         apply one_row_bindM; [apply keeps_csvfile_next_i | intro]
     | |- one_row_or_none (bindM (set _ _) _) =>
         apply one_row_bindM; [apply keeps_csvfile_set | intro]
     | |- one_row_or_none (bindM (fetch _) _) =>
         apply one_row_bindM; [apply keeps_csvfile_fetch | intro]
     | |- one_row_or_none (bindM (fetch_int _) _) =>
         apply one_row_bindM; [apply keeps_csvfile_fetch_int | intro]
     | |- one_row_or_none (bindM (lift _) _) =>
         apply one_row_bindM; [apply keeps_lift | intro]
     end).
Qed.

(** The parts of an iteration that leave the link alone. *)
Lemma keeps_my4480_next_i : keeps my4480 next_i.
Proof. intros w r w' H. inversion H. reflexivity. Qed.

Lemma keeps_my4480_set (x : var) (v : pyval) : keeps my4480 (set x v).
Proof. intros w r w' H. inversion H. reflexivity. Qed.

Lemma reads_nil {A : Type} (c : M world A) : reads [] c.
Proof. intros w a w' _. exact I. Qed.

Lemma reads_keep {A B : Type} (cmds : list string) (c : M world A)
    (k : A -> M world B) :
  keeps my4480 c -> (forall a, reads cmds (k a)) -> reads cmds (bindM c k).
Proof.
  intros Hc Hk w b w' H.
  destruct (bindM_ok _ _ _ _ _ H) as (a & w1 & E & Hk').
  rewrite <- (Hc w _ w1 E). exact (Hk a w1 b w' Hk').
Qed.

Lemma query_ok (cmd s : string) (w w' : world) :
  query cmd w = (Ok s, w') ->
  answer (my4480 w) (asked (my4480 w)) cmd = Reply s /\
  my4480 w' = received cmd (my4480 w).
Proof.
  unfold query. rewrite instrument_query_spec. intros H.
  destruct (answer (my4480 w) (asked (my4480 w)) cmd) as [s0|];
    inversion H; subst; auto.
Qed.

Lemma fetch_ok (cmd : string) (x : float) (w w' : world) :
  fetch cmd w = (Ok x, w') ->
  (exists s, answer (my4480 w) (asked (my4480 w)) cmd = Reply s /\
             exists y, float_of_string (strip s) = Ok y) /\
  my4480 w' = received cmd (my4480 w).
Proof.
  unfold fetch. intros H.
  destruct (bindM_ok _ _ _ _ _ H) as (s & w1 & Hq & H1).
  destruct (bindM_ok _ _ _ _ _ H1) as (y & w2 & Hl & H2).
  destruct (query_ok _ _ _ _ Hq) as [Ha Hd].
  unfold lift in Hl. inversion Hl; subst. inversion H2; subst.
  split; [|assumption]. exists s. split; [assumption|]. exists y. assumption.
Qed.

Lemma fetch_int_ok (cmd : string) (z : Z) (w w' : world) :
  fetch_int cmd w = (Ok z, w') ->
  (exists s, answer (my4480 w) (asked (my4480 w)) cmd = Reply s /\
             int_of_string s = Ok z) /\
  my4480 w' = received cmd (my4480 w).
Proof.
  unfold fetch_int. intros H.
  destruct (bindM_ok _ _ _ _ _ H) as (s & w1 & Hq & H1).
  destruct (query_ok _ _ _ _ Hq) as [Ha Hd].
  unfold lift in H1. inversion H1; subst.
  split; [|assumption]. exists s. auto.
Qed.

Lemma reads_fetch {B : Type} (cmd : string) (cmds : list string)
    (k : float -> M world B) :
  (String.eqb cmd "SYST:TIM?" || String.eqb cmd "MEAS:BAND?")%bool = false ->
  (forall a, reads cmds (k a)) -> reads (cmd :: cmds) (bindM (fetch cmd) k).
Proof.
  intros Hcmd Hk w b w' H.
  destruct (bindM_ok _ _ _ _ _ H) as (a & w1 & E & Hk').
  destruct (fetch_ok _ _ _ _ E) as [(s & Ha & y & Hy) Hd].
  cbn [all_readable]. rewrite Nat.add_0_r. split.
  - rewrite Ha. unfold readable. rewrite Hcmd. exists y. exact Hy.
  - specialize (Hk a w1 b w' Hk'). rewrite Hd in Hk.
    apply all_readable_received in Hk. exact Hk.
Qed.

Lemma reads_fetch_int {B : Type} (cmd : string) (cmds : list string)
    (k : Z -> M world B) :
  (String.eqb cmd "SYST:TIM?" || String.eqb cmd "MEAS:BAND?")%bool = true ->
  (forall a, reads cmds (k a)) -> reads (cmd :: cmds) (bindM (fetch_int cmd) k).
Proof.
  intros Hcmd Hk w b w' H.
  destruct (bindM_ok _ _ _ _ _ H) as (a & w1 & E & Hk').
  destruct (fetch_int_ok _ _ _ _ E) as [(s & Ha & Hz) Hd].
  cbn [all_readable]. rewrite Nat.add_0_r. split.
  - rewrite Ha. unfold readable. rewrite Hcmd. exists a. exact Hz.
  - specialize (Hk a w1 b w' Hk'). rewrite Hd in Hk.
    apply all_readable_received in Hk. exact Hk.
Qed.

Lemma update_readings_reads (log10 : float -> float) :
  reads monitor_queries (update_readings log10).
Proof.
  unfold update_readings, monitor_queries.
  repeat
    (cbv zeta;
     lazymatch goal with
     | |- reads [] _ => apply reads_nil
     | |- reads _ (bindM next_i _) =>
         apply reads_keep; [apply keeps_my4480_next_i | intro]
     | |- reads _ (bindM (set _ _) _) =>
         apply reads_keep; [apply keeps_my4480_set | intro]
     | |- reads _ (bindM (lift _) _) =>
         apply reads_keep; [apply keeps_lift | intro]
     | |- reads _ (bindM (fetch _) _) =>
         apply reads_fetch; [reflexivity | intro]
     | |- reads _ (bindM (fetch_int _) _) =>
         apply reads_fetch_int; [reflexivity | intro]
     end).
Qed.

(** The event loop: the rows below the header count the callbacks that ran
    to their end. *)
Lemma mainloop_rows (log10 : float -> float) (n : nat) :
  forall w rs w',
    mainloop log10 n w = (rs, w') ->
    List.length (csvfile w') = (List.length (csvfile w) + completed rs)%nat.
Proof.
  induction n as [|n IH]; intros w rs w'; cbn [mainloop].
  - intros H. inversion H; subst. cbn. lia.
  - destruct (timer w).
    + destruct (update_readings log10 (fired w)) as [r w1] eqn:E.
      destruct (mainloop log10 n w1) as [rs1 w2] eqn:E2.
      intros H. inversion H; subst.
      specialize (IH w1 rs1 w' E2).
      pose proof (update_readings_one_row log10 (fired w) r w1 E) as Hr.
      unfold completed in *. cbn [filter].
      destruct r as [u|e]; cbn [is_ok].
      * destruct Hr as (x & Hx). rewrite IH, Hx, length_app. cbn. lia.
      * rewrite IH, Hr. cbn. lia.
    + intros H. inversion H; subst. cbn. lia.
Qed.

End MonitorFacts.

(** ** The logger: what one iteration does to the file, the link and the
    clock *)

Module LoggerFacts.

Import Logger LoggerSpec.

Lemma logged_row_bindM {A B : Type} (c : M world A) (k : A -> M world B) :
  keeps file c -> (forall a, one_row_or_none (k a)) ->
  one_row_or_none (bindM c k).
Proof.
  intros Hc Hk w r w'. unfold bindM.
  destruct (c w) as [[a|e] w1] eqn:E; intros H.
  - specialize (Hk a w1 r w' H). rewrite (Hc w _ w1 E) in Hk. exact Hk.
  - inversion H; subst. exact (Hc w _ w' E).
Qed.

Lemma query_spec (cmd : string) (w : world) :
  query cmd w =
    (match answer (my4480 w) (asked (my4480 w)) cmd with
     | Reply s => Ok s
     | NoReply => Raise VisaIOError
     end,
     {| my4480 := received cmd (my4480 w); clock := clock w; now := now w;
        file := file w; stdout := stdout w |}).
Proof. unfold query. rewrite instrument_query_spec. reflexivity. Qed.

(** What a reading leaves as it is: the file, the clock and the count of
    its readings. *)
Lemma fetch_spec (cmd : string) (w : world) (r : result float) (w' : world) :
  fetch cmd w = (r, w') ->
  file w' = file w /\ clock w' = clock w /\ now w' = now w /\
  my4480 w' = received cmd (my4480 w) /\
  (forall x, r = Ok x ->
     exists s, answer (my4480 w) (asked (my4480 w)) cmd = Reply s /\
               exists y, float_of_string (strip s) = Ok y).
Proof.
  unfold fetch, bindM. rewrite query_spec.
  destruct (answer (my4480 w) (asked (my4480 w)) cmd) as [s|].
  - unfold lift. destruct (float_of_string (strip s)) as [y|e] eqn:Ey;
      intros H; inversion H; subst; cbn; repeat split; try discriminate.
    intros x _. exists s. split; [reflexivity|]. exists y. assumption.
  - intros H; inversion H; subst; cbn; repeat split. discriminate.
Qed.

Lemma keeps_file_fetch (cmd : string) : keeps file (fetch cmd).
Proof. intros w r w' H. apply (fetch_spec cmd w r w' H). Qed.

Lemma keeps_file_time : keeps file time.
Proof. intros w r w' H. inversion H. reflexivity. Qed.

(** The row is written, then the progress line is printed or not. *)
Lemma one_row_writerow (x : row) (b : bool) (s : string) (l1 l2 : locals) :
  one_row_or_none
    (bindM (writerow x)
       (fun _ => if b then bindM (print s) (fun _ => ret l1) else ret l2)).
Proof. intros w r w' H. destruct b; inversion H; cbn; exists x; reflexivity. Qed.

Lemma body_one_row (log10 : float -> float) (l : locals) :
  one_row_or_none (body log10 l).
Proof.
  unfold body.
  repeat
    (cbv zeta;
     lazymatch goal with
     | |- one_row_or_none (bindM (writerow _) _) => apply one_row_writerow
     | |- one_row_or_none (bindM (fetch _) _) =>
         apply logged_row_bindM; [apply keeps_file_fetch | intro]
     | |- one_row_or_none (bindM time _) =>
         apply logged_row_bindM; [apply keeps_file_time | intro]
     end).
Qed.

Lemma logger_reads_nil {A : Type} (c : M world A) : reads [] c.
Proof. intros w a w' _. exact I. Qed.

Lemma logger_reads_fetch {B : Type} (cmd : string) (cmds : list string)
    (k : float -> M world B) :
  (String.eqb cmd "SYST:TIM?" || String.eqb cmd "MEAS:BAND?")%bool = false ->
  (forall a, reads cmds (k a)) -> reads (cmd :: cmds) (bindM (fetch cmd) k).
Proof.
  intros Hcmd Hk w b w' H.
  destruct (bindM_ok _ _ _ _ _ H) as (a & w1 & E & Hk').
  destruct (fetch_spec _ _ _ _ E) as (_ & _ & _ & Hd & Hr).
  destruct (Hr a eq_refl) as (s & Ha & y & Hy).
  cbn [all_readable]. rewrite Nat.add_0_r. split.
  - rewrite Ha. unfold readable. rewrite Hcmd. exists y. exact Hy.
  - specialize (Hk a w1 b w' Hk'). rewrite Hd in Hk.
    apply all_readable_received in Hk. exact Hk.
Qed.

Lemma body_reads (log10 : float -> float) (l : locals) :
  reads logger_queries (body log10 l).
Proof.
  unfold body, logger_queries.
  repeat
    (cbv zeta;
     lazymatch goal with
     | |- reads [] _ => apply logger_reads_nil
     | |- reads _ (bindM (fetch _) _) => apply logger_reads_fetch; [reflexivity | intro]
     end).
Qed.

(** The elapsed time an iteration measures: one reading of the clock,
    minus the start. *)
Lemma body_elapsed (log10 : float -> float) (l l' : locals) (w w' : world) :
  body log10 l w = (Ok l', w') ->
  elapsed_time l' = (clock w (now w) - t1 l)%float /\ t1 l' = t1 l /\
  clock w' = clock w /\ now w' = S (now w).
Proof.
  unfold body. intros H.
  destruct (bindM_ok _ _ _ _ _ H) as (x1 & w1 & E1 & H1). clear H.
  destruct (bindM_ok _ _ _ _ _ H1) as (x2 & w2 & E2 & H2). clear H1.
  destruct (bindM_ok _ _ _ _ _ H2) as (x3 & w3 & E3 & H3). clear H2.
  cbv zeta in H3.
  destruct (bindM_ok _ _ _ _ _ H3) as (x4 & w4 & E4 & H4). clear H3.
  destruct (bindM_ok _ _ _ _ _ H4) as (t2 & w5 & E5 & H5). clear H4.
  destruct (fetch_spec _ _ _ _ E1) as (_ & C1 & N1 & _).
  destruct (fetch_spec _ _ _ _ E2) as (_ & C2 & N2 & _).
  destruct (fetch_spec _ _ _ _ E3) as (_ & C3 & N3 & _).
  destruct (fetch_spec _ _ _ _ E4) as (_ & C4 & N4 & _).
  unfold time in E5. inversion E5; subst t2 w5. clear E5.
  cbv zeta in H5.
  assert (Hc : clock w4 = clock w) by congruence.
  assert (Hn : now w4 = now w) by congruence.
  rewrite Hc, Hn in H5.
  unfold bindM, writerow, print, ret in H5. cbn in H5.
  destruct (print_interval_flag l <? clock w (now w) - t1 l)%float;
    inversion H5; subst; cbn; rewrite ?Hc, ?Hn; auto.
Qed.

Lemma while_exit (log10 : float -> float) (fuel n : nat) (l : locals) (w : world) :
  (elapsed_time l <? log_duration)%float = false ->
  while log10 fuel n l w = Finished n l w.
Proof. intros H. destruct fuel; cbn [while]; rewrite H; reflexivity. Qed.

Lemma while_step (log10 : float -> float) (fuel n : nat) (l : locals) (w : world) :
  (elapsed_time l <? log_duration)%float = true ->
  while log10 (S fuel) n l w =
    match body log10 l w with
    | (Ok l', w') => while log10 fuel (S n) l' w'
    | (Raise e, w') => Failed n e w'
    end.
Proof. intros H. cbn [while]. rewrite H. reflexivity. Qed.

(** The rows the loop appends count its iterations that ran to their end. *)
Lemma while_rows (log10 : float -> float) (fuel : nat) :
  forall n l w,
    match while log10 fuel n l w with
    | Finished n' _ w' | Failed n' _ w' | Running n' _ w' =>
        (List.length (file w') + n = List.length (file w) + n')%nat
    end.
Proof.
  induction fuel as [|fuel IH]; intros n l w; cbn [while];
    destruct (elapsed_time l <? log_duration)%float; try reflexivity.
  pose proof (body_one_row log10 l w) as Hb.
  destruct (body log10 l w) as [[l'|e] w1].
  - specialize (Hb _ _ eq_refl). destruct Hb as (x & Hx).
    specialize (IH (S n) l' w1).
    destruct (while log10 fuel (S n) l' w1); rewrite Hx, length_app in IH;
      cbn in IH; lia.
  - specialize (Hb _ _ eq_refl). cbn in Hb. rewrite Hb. reflexivity.
Qed.

(** When the loop has ended, the elapsed time is not below the duration. *)
Lemma while_finished (log10 : float -> float) (fuel : nat) :
  forall n l w n' l' w',
    while log10 fuel n l w = Finished n' l' w' ->
    (elapsed_time l' <? log_duration)%float = false.
Proof.
  induction fuel as [|fuel IH]; intros n l w n' l' w'; cbn [while];
    destruct (elapsed_time l <? log_duration)%float eqn:E;
    try (intros H; inversion H; subst; exact E); try discriminate.
  destruct (body log10 l w) as [[l1|e] w1]; [apply IH | discriminate].
Qed.

(** The script up to the loop: three messages to the instrument, the
    header row, one reading of the clock. *)
Lemma setup_spec (w : world) :
  setup w =
    (Ok {| t1 := clock w (now w); elapsed_time := 0; print_interval_flag := 60 |},
     {| my4480 := received "MEAS:BAND 0" (received "*CLS" (received "*RST" (my4480 w)));
        clock := clock w; now := S (now w);
        file := file w ++ [header];
        stdout := stdout w ++ ["Testing started...."%string] |}).
Proof. reflexivity. Qed.

End LoggerFacts.

(** ** The monitor: one iteration, step by step *)

Module MonitorRuns.

Import Monitor MonitorSpec.

(** A query changes the link and nothing else, whatever the reply. *)
Lemma query_world (cmd : string) (w : world) :
  snd (query cmd w) =
    {| i := i w; panel := panel w; csvfile := csvfile w;
       my4480 := received cmd (my4480 w); timer := timer w |}.
Proof.
  unfold query. rewrite instrument_query_spec. reflexivity.
Qed.

Lemma fetch_world (cmd : string) (w : world) :
  snd (fetch cmd w) =
    {| i := i w; panel := panel w; csvfile := csvfile w;
       my4480 := received cmd (my4480 w); timer := timer w |}.
Proof.
  unfold fetch, bindM, lift, ret. rewrite (surjective_pairing (query cmd w)).
  rewrite query_world.
  destruct (fst (query cmd w)) as [s|e]; [|reflexivity].
  destruct (float_of_string (strip s)); reflexivity.
Qed.

Lemma fetch_int_world (cmd : string) (w : world) :
  snd (fetch_int cmd w) =
    {| i := i w; panel := panel w; csvfile := csvfile w;
       my4480 := received cmd (my4480 w); timer := timer w |}.
Proof.
  unfold fetch_int, bindM, lift. rewrite (surjective_pairing (query cmd w)).
  rewrite query_world.
  destruct (fst (query cmd w)) as [s|e]; reflexivity.
Qed.

Lemma fetch_value (cmd : string) (w w' : world) (x : float) :
  fetch cmd w = (Ok x, w') ->
  exists s y,
    answer (my4480 w) (asked (my4480 w)) cmd = Reply s /\
    float_of_string (strip s) = Ok y /\ x = py_round 2 y.
Proof.
  unfold fetch. intros H.
  destruct (bindM_ok _ _ _ _ _ H) as (s & w1 & Hq & H1).
  destruct (bindM_ok _ _ _ _ _ H1) as (y & w2 & Hl & H2).
  destruct (MonitorFacts.query_ok _ _ _ _ Hq) as [Ha _].
  unfold lift in Hl. inversion Hl; subst. inversion H2; subst.
  exists s, y. auto.
Qed.

Lemma fetch_int_value (cmd : string) (w w' : world) (z : Z) :
  fetch_int cmd w = (Ok z, w') ->
  exists s,
    answer (my4480 w) (asked (my4480 w)) cmd = Reply s /\ int_of_string s = Ok z.
Proof.
  intros H. destruct (MonitorFacts.fetch_int_ok _ _ _ _ H) as [R _]. exact R.
Qed.

(** A read that raises: the instrument did not answer, or its reply is not
    a numeral. *)
Lemma fetch_raise (cmd : string) (w w' : world) (e : exn) :
  fetch cmd w = (Raise e, w') ->
  (e = VisaIOError /\ answer (my4480 w) (asked (my4480 w)) cmd = NoReply) \/
  (e = ValueError /\ exists s, answer (my4480 w) (asked (my4480 w)) cmd = Reply s).
Proof.
  unfold fetch, query, bindM, lift, ret. rewrite instrument_query_spec.
  destruct (answer (my4480 w) (asked (my4480 w)) cmd) as [s|] eqn:A.
  - destruct (float_of_string (strip s)) as [x|e0] eqn:P; intros H; inversion H; subst.
    right. split; [exact (float_of_string_raise _ _ P) | exists s; reflexivity].
  - intros H. inversion H. left. auto.
Qed.

Lemma fetch_int_raise (cmd : string) (w w' : world) (e : exn) :
  fetch_int cmd w = (Raise e, w') ->
  (e = VisaIOError /\ answer (my4480 w) (asked (my4480 w)) cmd = NoReply) \/
  (e = ValueError /\ exists s, answer (my4480 w) (asked (my4480 w)) cmd = Reply s).
Proof.
  unfold fetch_int, query, bindM, lift. rewrite instrument_query_spec.
  destruct (answer (my4480 w) (asked (my4480 w)) cmd) as [s|] eqn:A.
  - destruct (int_of_string s) as [x|e0] eqn:P; intros H; inversion H; subst.
    right. split; [exact (int_of_string_raise _ _ P) | exists s; reflexivity].
  - intros H. inversion H. left. auto.
Qed.

Ltac bind_ok H a w E :=
  let K := fresh "K" in
  destruct (bindM_ok _ _ _ _ _ H) as (a & w & E & K); clear H; rename K into H;
  cbv beta in H.

Ltac pure_step H :=
  let a := fresh "a" in let w := fresh "w" in let E := fresh "E" in
  bind_ok H a w E; inversion E; subst a w; clear E.

Ltac fetch_step H x w Hx lem_world lem_value :=
  let E := fresh "E" in
  bind_ok H x w E;
  pose proof (lem_value _ _ _ _ E) as Hx;
  let Hw := fresh "Hw" in
  match type of E with
  | _ ?cmd ?w0 = _ => pose proof (lem_world cmd w0) as Hw
  end;
  rewrite E in Hw; cbn [snd] in Hw; subst w; clear E;
  cbn [my4480 received answer asked] in Hx;
  cbn [i panel csvfile my4480 timer] in H.

(** An iteration that runs to its end, in full: the seven replies it read,
    and the world it leaves. *)
Lemma update_readings_ok (log10 : float -> float) (w w' : world) (u : unit) :
  update_readings log10 w = (Ok u, w') ->
  exists (s0 s1 s2 s3 s4 s5 s6 hms : string) (t0 t1 b : Z) (y1 y2 y3 y4 : float),
    let d := my4480 w in
    let fwd := py_round 2 y1 in
    let refl := py_round 2 y2 in
    let vswr := py_round 2 y3 in
    let temp := py_round 2 y4 in
    (answer d (asked d) "SYST:TIM?" = Reply s0 /\ int_of_string s0 = Ok t0 /\
     ms_to_hhmmss t0 = Ok hms /\
     answer d (1 + asked d) "FETC:FORW?" = Reply s1 /\ float_of_string (strip s1) = Ok y1 /\
     answer d (2 + asked d) "FETC:REFL?" = Reply s2 /\ float_of_string (strip s2) = Ok y2 /\
     answer d (3 + asked d) "FETC:VSWR?" = Reply s3 /\ float_of_string (strip s3) = Ok y3 /\
     answer d (4 + asked d) "FETC:TEMP?" = Reply s4 /\ float_of_string (strip s4) = Ok y4 /\
     answer d (5 + asked d) "SYST:TIM?" = Reply s5 /\ int_of_string s5 = Ok t1 /\
     answer d (6 + asked d) "MEAS:BAND?" = Reply s6 /\ int_of_string s6 = Ok b) /\
    (i w' = i w + 1 /\ timer w' = true /\
     asked (my4480 w') = (7 + asked d)%nat /\
     sent (my4480 w') =
       ["MEAS:BAND?"; "SYST:TIM?"; "FETC:TEMP?"; "FETC:VSWR?"; "FETC:REFL?";
        "FETC:FORW?"; "SYST:TIM?"]%string ++ sent d /\
     answer (my4480 w') = answer d) /\
    csvfile w' = csvfile w ++
      [[ band_selection (PyInt b); PyFloat fwd; PyFloat refl;
         watts_to_dbm log10 (PyFloat fwd); watts_to_dbm log10 (PyFloat refl);
         PyFloat vswr; vswr_to_return_loss log10 (PyFloat vswr); PyFloat temp;
         PyInt (i w + 1); PyInt (t1 - t0); PyStr hms ]] /\
    (panel w' band_var = band_selection (PyInt b) /\
     panel w' forward_power_var = PyFloat fwd /\
     panel w' reflected_power_var = PyFloat refl /\
     panel w' forward_power_dbm_var = watts_to_dbm log10 (PyFloat fwd) /\
     panel w' reflected_power_dbm_var = watts_to_dbm log10 (PyFloat refl) /\
     panel w' vswr_var = PyFloat vswr /\
     panel w' return_loss_var = vswr_to_return_loss log10 (PyFloat vswr) /\
     panel w' temp_var = PyFloat temp /\
     panel w' test_time_var = PyStr (str_of_Z (t1 - t0)) /\
     panel w' iteration_var = PyStr (str_of_Z (i w + 1)) /\
     panel w' system_time_var = PyStr hms).
Proof.
  unfold update_readings. intros H.
  pure_step H.
  match type of H with
  | bindM (lift (py_str ?n)) _ _ = _ =>
      let a := fresh "txt" in let w := fresh "w" in let E := fresh "E" in
      bind_ok H a w E; unfold lift in E; inversion E as [[Hcount Hw]]; subst w; clear E;
      destruct (py_str_ok _ _ Hcount) as [-> _]; clear Hcount
  end.
  pure_step H.
  fetch_step H t0 w1 Ht0 fetch_int_world fetch_int_value.
  destruct Ht0 as (s0 & A0 & P0).
  match type of H with
  | bindM (lift (ms_to_hhmmss t0)) _ _ = _ =>
      let a := fresh "hms" in let w := fresh "w" in let E := fresh "E" in
      bind_ok H a w E; unfold lift in E; inversion E as [[Hhms Hw]]; subst w; clear E
  end.
  pure_step H.
  fetch_step H x1 w2 Hx1 fetch_world fetch_value.
  destruct Hx1 as (s1 & y1 & A1 & P1 & ->).
  fetch_step H x2 w3 Hx2 fetch_world fetch_value.
  destruct Hx2 as (s2 & y2 & A2 & P2 & ->).
  fetch_step H x3 w4 Hx3 fetch_world fetch_value.
  destruct Hx3 as (s3 & y3 & A3 & P3 & ->).
  fetch_step H x4 w5 Hx4 fetch_world fetch_value.
  destruct Hx4 as (s4 & y4 & A4 & P4 & ->).
  fetch_step H t1 w6 Ht1 fetch_int_world fetch_int_value.
  destruct Ht1 as (s5 & A5 & P5).
  fetch_step H b w7 Hb fetch_int_world fetch_int_value.
  destruct Hb as (s6 & A6 & P6).
  cbv zeta in H.
  do 8 pure_step H.
  match type of H with
  | bindM (lift (py_str ?n)) _ _ = _ =>
      let a := fresh "txt" in let w := fresh "w" in let E := fresh "E" in
      bind_ok H a w E; unfold lift in E; inversion E as [[Htime Hw]]; subst w; clear E;
      destruct (py_str_ok _ _ Htime) as [-> _]; clear Htime
  end.
  pure_step H. pure_step H.
  inversion H; subst w'; clear H.
  exists s0, s1, s2, s3, s4, s5, s6, hms, t0, t1, b, y1, y2, y3, y4.
  cbv zeta. cbn [i timer csvfile my4480 panel received asked sent answer].
  repeat split; try assumption; try reflexivity.
Qed.


Ltac raise_pure H :=
  let a := fresh "a" in let w := fresh "w" in let E := fresh "E" in
  let K := fresh "K" in
  destruct (bindM_raise _ _ _ _ _ H) as [E | (a & w & E & K)];
  [ discriminate E
  | inversion E; subst a w; clear E H; rename K into H; cbv beta in H;
    cbn [i panel csvfile my4480 timer] in H ].

Ltac raise_fetch H lem_world :=
  let a := fresh "a" in let w := fresh "w" in let E := fresh "E" in
  let K := fresh "K" in let Hw := fresh "Hw" in
  destruct (bindM_raise _ _ _ _ _ H) as [E | (a & w & E & K)];
  match type of E with
  | _ ?cmd ?w0 = _ => pose proof (lem_world cmd w0) as Hw
  end;
  rewrite E in Hw; cbn [snd] in Hw;
  [ subst; cbn [i panel csvfile my4480 timer sent received]
  | subst w; clear E H; rename K into H; cbv beta in H;
    cbn [i panel csvfile my4480 timer] in H ].

(** An iteration that raises: the count has advanced, nothing is written,
    the timer is left as it was, and only queries of the iteration were
    sent, in their order; at least one of them, unless the count is too
    long for [str]. *)
Lemma update_readings_raise (log10 : float -> float) (w w' : world) (e : exn) :
  update_readings log10 w = (Raise e, w') ->
  i w' = i w + 1 /\ timer w' = timer w /\ csvfile w' = csvfile w /\
  exists k : nat,
    (k <= 7)%nat /\
    sent (my4480 w') = rev (firstn k monitor_queries) ++ sent (my4480 w) /\
    (Z.abs (i w + 1) < 10 ^ int_max_str_digits -> (1 <= k)%nat).
Proof.
  unfold update_readings. intros H.
  raise_pure H.
  destruct (bindM_raise _ _ _ _ _ H) as [E | (txt & w1 & E & K)].
  { unfold lift in E. inversion E as [[Hs Hw]].
    cbn [i panel csvfile my4480 timer sent received].
    repeat split. exists 0%nat. split; [lia|]. split; [reflexivity|].
    intros Hsmall. rewrite (py_str_small _ Hsmall) in Hs. discriminate Hs. }
  unfold lift in E. inversion E; subst w1. clear E H. rename K into H. cbv beta in H.
  cbn [i panel csvfile my4480 timer] in H.
  raise_pure H.
  raise_fetch H fetch_int_world.
  { repeat split. exists 1%nat. split; [lia|]. split; [reflexivity | intros; lia]. }
  destruct (bindM_raise _ _ _ _ _ H) as [E | (hms & w1 & E & K)].
  { unfold lift in E. inversion E; subst w'.
    cbn [i panel csvfile my4480 timer sent received].
    repeat split. exists 1%nat. split; [lia|]. split; [reflexivity | intros; lia]. }
  unfold lift in E. inversion E; subst w1. clear E H. rename K into H. cbv beta in H.
  raise_pure H.
  raise_fetch H fetch_world.
  { repeat split. exists 2%nat. split; [lia|]. split; [reflexivity | intros; lia]. }
  raise_fetch H fetch_world.
  { repeat split. exists 3%nat. split; [lia|]. split; [reflexivity | intros; lia]. }
  raise_fetch H fetch_world.
  { repeat split. exists 4%nat. split; [lia|]. split; [reflexivity | intros; lia]. }
  raise_fetch H fetch_world.
  { repeat split. exists 5%nat. split; [lia|]. split; [reflexivity | intros; lia]. }
  raise_fetch H fetch_int_world.
  { repeat split. exists 6%nat. split; [lia|]. split; [reflexivity | intros; lia]. }
  raise_fetch H fetch_int_world.
  { repeat split. exists 7%nat. split; [lia|]. split; [reflexivity | intros; lia]. }
  cbv zeta in H.
  do 8 raise_pure H.
  destruct (bindM_raise _ _ _ _ _ H) as [E | (txt' & w1 & E & K)].
  { unfold lift in E. inversion E; subst w'.
    cbn [i panel csvfile my4480 timer sent received].
    repeat split. exists 7%nat. split; [lia|]. split; [reflexivity | intros; lia]. }
  unfold lift in E. inversion E; subst w1. clear E H. rename K into H. cbv beta in H.
  cbn [i panel csvfile my4480 timer] in H.
  raise_pure H. raise_pure H.
  discriminate H.
Qed.

Ltac cause_fetch H k lem_world lem_raise :=
  let a := fresh "a" in let w := fresh "w" in let E := fresh "E" in
  let K := fresh "K" in let Hw := fresh "Hw" in let A := fresh "A" in
  destruct (bindM_raise _ _ _ _ _ H) as [E | (a & w & E & K)];
  [ destruct (lem_raise _ _ _ _ E) as [[-> A] | [-> _]];
    [ cbn [my4480 received answer asked] in A;
      right; left; split; [reflexivity|];
      exists k; eexists; split; [reflexivity|];
      rewrite (Nat.add_comm _ k); exact A
    | left; reflexivity ]
  | match type of E with
    | _ ?cmd ?w0 = _ => pose proof (lem_world cmd w0) as Hw
    end;
    rewrite E in Hw; cbn [snd] in Hw;
    subst w; clear E H; rename K into H; cbv beta in H;
    cbn [i panel csvfile my4480 timer] in H ].

(** What an iteration raises: [ValueError], unless the instrument did not
    answer one of the queries, or [ms_to_hhmmss] raised on the system time. *)
Lemma update_readings_cause (log10 : float -> float) (w w' : world) (e : exn) :
  update_readings log10 w = (Raise e, w') ->
  e = ValueError \/
  (e = VisaIOError /\
   exists k cmd,
     nth_error monitor_queries k = Some cmd /\
     answer (my4480 w) (asked (my4480 w) + k)%nat cmd = NoReply) \/
  (exists s t,
     answer (my4480 w) (asked (my4480 w)) "SYST:TIM?" = Reply s /\
     int_of_string s = Ok t /\ ms_to_hhmmss t = Raise e).
Proof.
  unfold update_readings. intros H.
  raise_pure H.
  destruct (bindM_raise _ _ _ _ _ H) as [E | (txt & w1 & E & K)].
  { unfold lift in E. inversion E as [[Hs Hw]].
    left. exact (py_str_raise _ _ Hs). }
  unfold lift in E. inversion E; subst w1. clear E H. rename K into H. cbv beta in H.
  cbn [i panel csvfile my4480 timer] in H.
  raise_pure H.
  destruct (bindM_raise _ _ _ _ _ H) as [E | (t0 & w1 & E & K)].
  { destruct (fetch_int_raise _ _ _ _ E) as [[-> A] | [-> _]].
    - cbn [my4480 received answer asked] in A.
      right; left; split; [reflexivity|].
      exists 0%nat; eexists; split; [reflexivity|].
      rewrite Nat.add_0_r. exact A.
    - left; reflexivity. }
  destruct (fetch_int_value _ _ _ _ E) as (s0 & A0 & P0).
  cbn [my4480 received answer asked] in A0.
  match type of E with
  | fetch_int ?cmd ?w0 = _ => pose proof (fetch_int_world cmd w0) as Hw1
  end.
  rewrite E in Hw1. cbn [snd] in Hw1. subst w1. clear E H. rename K into H.
  cbv beta in H. cbn [i panel csvfile my4480 timer] in H.
  destruct (bindM_raise _ _ _ _ _ H) as [E | (hms & w1 & E & K)].
  { unfold lift in E. inversion E as [[Hs Hw]].
    right; right. exists s0, t0. auto. }
  unfold lift in E. inversion E; subst w1. clear E H. rename K into H. cbv beta in H.
  raise_pure H.
  cause_fetch H 1%nat fetch_world fetch_raise.
  cause_fetch H 2%nat fetch_world fetch_raise.
  cause_fetch H 3%nat fetch_world fetch_raise.
  cause_fetch H 4%nat fetch_world fetch_raise.
  cause_fetch H 5%nat fetch_int_world fetch_int_raise.
  cause_fetch H 6%nat fetch_int_world fetch_int_raise.
  cbv zeta in H.
  do 8 raise_pure H.
  destruct (bindM_raise _ _ _ _ _ H) as [E | (txt' & w1 & E & K)].
  { unfold lift in E. inversion E as [[Hs Hw]].
    left. exact (py_str_raise _ _ Hs). }
  unfold lift in E. inversion E; subst w1. clear E H. rename K into H. cbv beta in H.
  cbn [i panel csvfile my4480 timer] in H.
  raise_pure H. raise_pure H.
  discriminate H.
Qed.

(** An iteration whose seven replies can be read, whose system time
    [ms_to_hhmmss] converts, and whose count and test time [str] can
    write, runs to its end. *)
Lemma update_readings_runs (log10 : float -> float) (w : world)
    (s0 s1 s2 s3 s4 s5 s6 hms : string) (t0 t1 b : Z) (y1 y2 y3 y4 : float) :
  let d := my4480 w in
  Z.abs (i w + 1) < 10 ^ int_max_str_digits ->
  answer d (asked d) "SYST:TIM?" = Reply s0 -> int_of_string s0 = Ok t0 ->
  ms_to_hhmmss t0 = Ok hms ->
  answer d (1 + asked d) "FETC:FORW?" = Reply s1 -> float_of_string (strip s1) = Ok y1 ->
  answer d (2 + asked d) "FETC:REFL?" = Reply s2 -> float_of_string (strip s2) = Ok y2 ->
  answer d (3 + asked d) "FETC:VSWR?" = Reply s3 -> float_of_string (strip s3) = Ok y3 ->
  answer d (4 + asked d) "FETC:TEMP?" = Reply s4 -> float_of_string (strip s4) = Ok y4 ->
  answer d (5 + asked d) "SYST:TIM?" = Reply s5 -> int_of_string s5 = Ok t1 ->
  answer d (6 + asked d) "MEAS:BAND?" = Reply s6 -> int_of_string s6 = Ok b ->
  Z.abs (t1 - t0) < 10 ^ int_max_str_digits ->
  fst (update_readings log10 w) = Ok tt.
Proof.
  intros d Hcount A0 P0 Hhms A1 P1 A2 P2 A3 P3 A4 P4 A5 P5 A6 P6 Htime. subst d.
  cbn [Nat.add] in *.
  unfold update_readings, fetch_int, fetch, query.
  unfold bindM at 1. cbn [next_i].
  unfold bindM at 1. unfold lift at 1. rewrite (py_str_small _ Hcount).
  unfold bindM at 1. cbn [set].
  unfold bindM at 1. unfold bindM at 1.
  rewrite instrument_query_spec. cbn [my4480]. rewrite A0.
  unfold lift at 1. rewrite P0.
  unfold bindM at 1. unfold lift at 1. rewrite Hhms.
  unfold bindM at 1. cbn [set].
  repeat
    (unfold bindM at 1; unfold bindM at 1;
     rewrite instrument_query_spec;
     cbn [my4480 received answer asked i panel csvfile timer];
     first [rewrite A1 | rewrite A2 | rewrite A3 | rewrite A4 | rewrite A5 | rewrite A6];
     first [ unfold bindM at 1; unfold lift at 1;
             first [rewrite P1 | rewrite P2 | rewrite P3 | rewrite P4];
             unfold ret at 1
           | unfold lift at 1; first [rewrite P5 | rewrite P6] ]).
  cbv zeta.
  do 8 (unfold bindM at 1; cbn [set i panel csvfile my4480 timer]).
  unfold bindM at 1. unfold lift at 1. rewrite (py_str_small _ Htime).
  reflexivity.
Qed.

(** The reads of [all_readable], spelled out for the monitor's queries. *)
Lemma all_readable_monitor (d : instrument) :
  all_readable d 0 monitor_queries ->
  exists (s0 s1 s2 s3 s4 s5 s6 : string) (t0 t1 b : Z) (y1 y2 y3 y4 : float),
    answer d (asked d) "SYST:TIM?" = Reply s0 /\ int_of_string s0 = Ok t0 /\
    answer d (1 + asked d) "FETC:FORW?" = Reply s1 /\ float_of_string (strip s1) = Ok y1 /\
    answer d (2 + asked d) "FETC:REFL?" = Reply s2 /\ float_of_string (strip s2) = Ok y2 /\
    answer d (3 + asked d) "FETC:VSWR?" = Reply s3 /\ float_of_string (strip s3) = Ok y3 /\
    answer d (4 + asked d) "FETC:TEMP?" = Reply s4 /\ float_of_string (strip s4) = Ok y4 /\
    answer d (5 + asked d) "SYST:TIM?" = Reply s5 /\ int_of_string s5 = Ok t1 /\
    answer d (6 + asked d) "MEAS:BAND?" = Reply s6 /\ int_of_string s6 = Ok b.
Proof.
  unfold monitor_queries. cbn [all_readable]. unfold readable.
  replace (asked d + 0)%nat with (asked d) by lia.
  replace (asked d + 1)%nat with (1 + asked d)%nat by lia.
  replace (asked d + 2)%nat with (2 + asked d)%nat by lia.
  replace (asked d + 3)%nat with (3 + asked d)%nat by lia.
  replace (asked d + 4)%nat with (4 + asked d)%nat by lia.
  replace (asked d + 5)%nat with (5 + asked d)%nat by lia.
  replace (asked d + 6)%nat with (6 + asked d)%nat by lia.
  intros (H0 & H1 & H2 & H3 & H4 & H5 & H6 & _).
  destruct (answer d (asked d) "SYST:TIM?") as [s0|]; [|contradiction].
  destruct (answer d (1 + asked d) "FETC:FORW?") as [s1|]; [|contradiction].
  destruct (answer d (2 + asked d) "FETC:REFL?") as [s2|]; [|contradiction].
  destruct (answer d (3 + asked d) "FETC:VSWR?") as [s3|]; [|contradiction].
  destruct (answer d (4 + asked d) "FETC:TEMP?") as [s4|]; [|contradiction].
  destruct (answer d (5 + asked d) "SYST:TIM?") as [s5|]; [|contradiction].
  destruct (answer d (6 + asked d) "MEAS:BAND?") as [s6|]; [|contradiction].
  cbn in H0, H1, H2, H3, H4, H5, H6.
  destruct H0 as (t0 & H0). destruct H1 as (y1 & H1). destruct H2 as (y2 & H2).
  destruct H3 as (y3 & H3). destruct H4 as (y4 & H4). destruct H5 as (t1 & H5).
  destruct H6 as (b & H6).
  exists s0, s1, s2, s3, s4, s5, s6, t0, t1, b, y1, y2, y3, y4.
  repeat split; assumption.
Qed.

End MonitorRuns.

(** ** The logger: one iteration, step by step *)

Module LoggerRuns.

Import Logger LoggerSpec.

(** A query changes the link and nothing else, whatever the reply. *)
Lemma logger_query_world (cmd : string) (w : world) :
  snd (query cmd w) =
    {| my4480 := received cmd (my4480 w); clock := clock w; now := now w;
       file := file w; stdout := stdout w |}.
Proof.
  unfold query. rewrite instrument_query_spec. reflexivity.
Qed.

Lemma logger_fetch_world (cmd : string) (w : world) :
  snd (fetch cmd w) =
    {| my4480 := received cmd (my4480 w); clock := clock w; now := now w;
       file := file w; stdout := stdout w |}.
Proof.
  unfold fetch, bindM, lift, ret. rewrite (surjective_pairing (query cmd w)).
  rewrite logger_query_world.
  destruct (fst (query cmd w)) as [s|e]; [|reflexivity].
  destruct (float_of_string (strip s)); reflexivity.
Qed.

Lemma logger_fetch_value (cmd : string) (w w' : world) (x : float) :
  fetch cmd w = (Ok x, w') ->
  exists s y,
    answer (my4480 w) (asked (my4480 w)) cmd = Reply s /\
    float_of_string (strip s) = Ok y /\ x = py_round 2 y.
Proof.
  unfold fetch. intros H.
  destruct (bindM_ok _ _ _ _ _ H) as (s & w1 & Hq & H1).
  destruct (bindM_ok _ _ _ _ _ H1) as (y & w2 & Hl & H2).
  unfold query in Hq. rewrite instrument_query_spec in Hq.
  unfold lift in Hl. inversion Hl; subst. inversion H2; subst.
  exists s, y.
  destruct (answer (my4480 w) (asked (my4480 w)) cmd) as [s'|];
    inversion Hq; subst; auto.
Qed.

Ltac bind_ok H a w E :=
  let K := fresh "K" in
  destruct (bindM_ok _ _ _ _ _ H) as (a & w & E & K); clear H; rename K into H;
  cbv beta in H.

Ltac pure_step H :=
  let a := fresh "a" in let w := fresh "w" in let E := fresh "E" in
  bind_ok H a w E; inversion E; subst a w; clear E;
  cbn [my4480 clock now file stdout] in H.

Ltac fetch_step H x w Hx :=
  let E := fresh "E" in
  bind_ok H x w E;
  pose proof (logger_fetch_value _ _ _ _ E) as Hx;
  let Hw := fresh "Hw" in
  match type of E with
  | _ ?cmd ?w0 = _ => pose proof (logger_fetch_world cmd w0) as Hw
  end;
  rewrite E in Hw; cbn [snd] in Hw; subst w; clear E;
  cbn [my4480 received answer asked] in Hx;
  cbn [my4480 clock now file stdout] in H.

(** An iteration that runs to its end, in full: the four replies it read,
    the clock reading it took after them, and what it leaves. *)
Lemma body_ok (log10 : float -> float) (l l' : locals) (w w' : world) :
  body log10 l w = (Ok l', w') ->
  exists (s1 s2 s3 s4 : string) (y1 y2 y3 y4 : float),
    let d := my4480 w in
    let fwd := py_round 2 y1 in
    let refl := py_round 2 y2 in
    let vswr := py_round 2 y3 in
    let temp := py_round 2 y4 in
    let elapsed := (clock w (now w) - t1 l)%float in
    (answer d (asked d) "FETC:FORW?" = Reply s1 /\ float_of_string (strip s1) = Ok y1 /\
     answer d (1 + asked d) "FETC:REFL?" = Reply s2 /\ float_of_string (strip s2) = Ok y2 /\
     answer d (2 + asked d) "FETC:VSWR?" = Reply s3 /\ float_of_string (strip s3) = Ok y3 /\
     answer d (3 + asked d) "FETC:TEMP?" = Reply s4 /\ float_of_string (strip s4) = Ok y4) /\
    (asked (my4480 w') = (4 + asked d)%nat /\
     sent (my4480 w') =
       ["FETC:TEMP?"; "FETC:VSWR?"; "FETC:REFL?"; "FETC:FORW?"]%string ++ sent d /\
     answer (my4480 w') = answer d /\
     clock w' = clock w /\ now w' = S (now w)) /\
    file w' = file w ++
      [[ PyStr (format_f 3 elapsed); PyFloat fwd; PyFloat refl; PyFloat vswr;
         vswr_to_return_loss log10 (PyFloat vswr); PyFloat temp ]] /\
    t1 l' = t1 l /\ elapsed_time l' = elapsed /\
    (if (print_interval_flag l <? elapsed)%float
     then print_interval_flag l' = (print_interval_flag l + 60)%float /\
          stdout w' = stdout w ++
            [("Elapsed time: " ++ format_f 3 elapsed ++ " s")%string]
     else print_interval_flag l' = print_interval_flag l /\ stdout w' = stdout w).
Proof.
  unfold body. intros H.
  fetch_step H x1 w1 Hx1. destruct Hx1 as (s1 & y1 & A1 & P1 & ->).
  fetch_step H x2 w2 Hx2. destruct Hx2 as (s2 & y2 & A2 & P2 & ->).
  fetch_step H x3 w3 Hx3. destruct Hx3 as (s3 & y3 & A3 & P3 & ->).
  cbv zeta in H.
  fetch_step H x4 w4 Hx4. destruct Hx4 as (s4 & y4 & A4 & P4 & ->).
  pure_step H. cbv zeta in H. pure_step H.
  exists s1, s2, s3, s4, y1, y2, y3, y4. cbv zeta.
  destruct (print_interval_flag l <? clock w (now w) - t1 l)%float.
  - pure_step H. inversion H; subst l' w'; clear H.
    cbn [my4480 clock now file stdout received asked sent answer t1 elapsed_time
         print_interval_flag].
    repeat split; try assumption; reflexivity.
  - inversion H; subst l' w'; clear H.
    cbn [my4480 clock now file stdout received asked sent answer t1 elapsed_time
         print_interval_flag].
    repeat split; try assumption; reflexivity.
Qed.

Ltac raise_pure H :=
  let a := fresh "a" in let w := fresh "w" in let E := fresh "E" in
  let K := fresh "K" in
  destruct (bindM_raise _ _ _ _ _ H) as [E | (a & w & E & K)];
  [ discriminate E
  | inversion E; subst a w; clear E H; rename K into H; cbv beta in H;
    cbn [my4480 clock now file stdout] in H ].

Ltac raise_fetch H :=
  let a := fresh "a" in let w := fresh "w" in let E := fresh "E" in
  let K := fresh "K" in let Hw := fresh "Hw" in
  destruct (bindM_raise _ _ _ _ _ H) as [E | (a & w & E & K)];
  match type of E with
  | _ ?cmd ?w0 = _ => pose proof (logger_fetch_world cmd w0) as Hw
  end;
  rewrite E in Hw; cbn [snd] in Hw;
  [ subst; cbn [my4480 clock now file stdout sent received]
  | subst w; clear E H; rename K into H; cbv beta in H;
    cbn [my4480 clock now file stdout] in H ].

(** An iteration that raises: it raised at one of its four queries, before
    the clock was read; nothing is written or printed. *)
Lemma body_raise (log10 : float -> float) (l : locals) (w w' : world) (e : exn) :
  body log10 l w = (Raise e, w') ->
  file w' = file w /\ stdout w' = stdout w /\ now w' = now w /\
  exists k : nat,
    (1 <= k <= 4)%nat /\
    sent (my4480 w') = rev (firstn k logger_queries) ++ sent (my4480 w).
Proof.
  unfold body. intros H.
  raise_fetch H.
  { repeat split. exists 1%nat. split; [lia | reflexivity]. }
  raise_fetch H.
  { repeat split. exists 2%nat. split; [lia | reflexivity]. }
  raise_fetch H.
  { repeat split. exists 3%nat. split; [lia | reflexivity]. }
  cbv zeta in H.
  raise_fetch H.
  { repeat split. exists 4%nat. split; [lia | reflexivity]. }
  raise_pure H. cbv zeta in H. raise_pure H.
  destruct (print_interval_flag l <? clock w (now w) - t1 l)%float.
  - raise_pure H. discriminate H.
  - discriminate H.
Qed.

(** A read that raises: the instrument did not answer, or its reply is not
    a numeral. *)
Lemma logger_fetch_raise (cmd : string) (w w' : world) (e : exn) :
  fetch cmd w = (Raise e, w') ->
  (e = VisaIOError /\ answer (my4480 w) (asked (my4480 w)) cmd = NoReply) \/
  (e = ValueError /\ exists s, answer (my4480 w) (asked (my4480 w)) cmd = Reply s).
Proof.
  unfold fetch, query, bindM, lift, ret. rewrite instrument_query_spec.
  destruct (answer (my4480 w) (asked (my4480 w)) cmd) as [s|] eqn:A.
  - destruct (float_of_string (strip s)) as [x|e0] eqn:P; intros H; inversion H; subst.
    right. split; [exact (float_of_string_raise _ _ P) | exists s; reflexivity].
  - intros H. inversion H. left. auto.
Qed.

Ltac cause_fetch H k :=
  let a := fresh "a" in let w := fresh "w" in let E := fresh "E" in
  let K := fresh "K" in let Hw := fresh "Hw" in let A := fresh "A" in
  destruct (bindM_raise _ _ _ _ _ H) as [E | (a & w & E & K)];
  [ destruct (logger_fetch_raise _ _ _ _ E) as [[-> A] | [-> _]];
    [ cbn [my4480 received answer asked] in A;
      right; split; [reflexivity|];
      exists k; eexists; split; [reflexivity|];
      rewrite (Nat.add_comm _ k); exact A
    | left; reflexivity ]
  | match type of E with
    | _ ?cmd ?w0 = _ => pose proof (logger_fetch_world cmd w0) as Hw
    end;
    rewrite E in Hw; cbn [snd] in Hw;
    subst w; clear E H; rename K into H; cbv beta in H;
    cbn [my4480 clock now file stdout] in H ].

(** What an iteration raises: [ValueError], unless the instrument did not
    answer one of the queries. *)
Lemma body_cause (log10 : float -> float) (l : locals) (w w' : world) (e : exn) :
  body log10 l w = (Raise e, w') ->
  e = ValueError \/
  (e = VisaIOError /\
   exists k cmd,
     nth_error logger_queries k = Some cmd /\
     answer (my4480 w) (asked (my4480 w) + k)%nat cmd = NoReply).
Proof.
  unfold body. intros H.
  cause_fetch H 0%nat. cause_fetch H 1%nat. cause_fetch H 2%nat.
  cbv zeta in H.
  cause_fetch H 3%nat.
  raise_pure H. cbv zeta in H. raise_pure H.
  destruct (print_interval_flag l <? clock w (now w) - t1 l)%float.
  - raise_pure H. discriminate H.
  - discriminate H.
Qed.

(** An iteration whose four replies can be read runs to its end. *)
Lemma body_runs (log10 : float -> float) (l : locals) (w : world) :
  all_readable (my4480 w) 0 logger_queries ->
  exists l' w', body log10 l w = (Ok l', w').
Proof.
  unfold logger_queries. cbn [all_readable]. unfold readable.
  replace (asked (my4480 w) + 0)%nat with (asked (my4480 w)) by lia.
  replace (asked (my4480 w) + 1)%nat with (S (asked (my4480 w))) by lia.
  replace (asked (my4480 w) + 2)%nat with (S (S (asked (my4480 w)))) by lia.
  replace (asked (my4480 w) + 3)%nat with (S (S (S (asked (my4480 w))))) by lia.
  intros (H1 & H2 & H3 & H4 & _).
  destruct (answer (my4480 w) (asked (my4480 w)) "FETC:FORW?") as [s1|] eqn:A1;
    [|contradiction].
  destruct (answer (my4480 w) (S (asked (my4480 w))) "FETC:REFL?") as [s2|] eqn:A2;
    [|contradiction].
  destruct (answer (my4480 w) (S (S (asked (my4480 w)))) "FETC:VSWR?") as [s3|] eqn:A3;
    [|contradiction].
  destruct (answer (my4480 w) (S (S (S (asked (my4480 w))))) "FETC:TEMP?") as [s4|] eqn:A4;
    [|contradiction].
  cbn in H1, H2, H3, H4.
  destruct H1 as (y1 & P1). destruct H2 as (y2 & P2).
  destruct H3 as (y3 & P3). destruct H4 as (y4 & P4).
  destruct (body log10 l w) as [[l'|e] w'] eqn:E; [exists l', w'; reflexivity|].
  exfalso. revert E. unfold body, fetch, query.
  repeat
    (unfold bindM at 1; unfold bindM at 1;
     rewrite instrument_query_spec;
     cbn [my4480 received answer asked clock now file stdout];
     first [rewrite A1 | rewrite A2 | rewrite A3 | rewrite A4];
     unfold bindM at 1; unfold lift at 1;
     first [rewrite P1 | rewrite P2 | rewrite P3 | rewrite P4];
     unfold ret at 1; cbv zeta).
  unfold bindM, time, writerow, print, ret.
  destruct (_ <? _)%float; discriminate.
Qed.

End LoggerRuns.

(** ** The unit-conversion helpers, case by case *)

Lemma watts_to_dbm_unreadable (log10 : float -> float) (watts : pyval) (e : exn) :
  py_float watts = Raise e ->
  Monitor.watts_to_dbm log10 watts = PyStr "N/A".
Proof. intros H. unfold Monitor.watts_to_dbm. rewrite H. reflexivity. Qed.

Lemma watts_to_dbm_not_positive (log10 : float -> float) (watts : pyval) (W : float) :
  py_float watts = Ok W -> (W <=? 0)%float = true ->
  Monitor.watts_to_dbm log10 watts = PyStr "N/A".
Proof.
  intros H Hle. unfold Monitor.watts_to_dbm. rewrite H. cbn [bind].
  rewrite Hle. reflexivity.
Qed.

Lemma watts_to_dbm_positive (log10 : float -> float) (watts : pyval) (W : float) :
  py_float watts = Ok W -> (0 <? W)%float = true ->
  Monitor.watts_to_dbm log10 watts
  = PyStr (format_f 2 (10 * log10 (W * 1000))%float).
Proof.
  intros H Hpos. unfold Monitor.watts_to_dbm. rewrite H. cbn [bind].
  rewrite (ltb_true_leb_false _ _ Hpos).
  unfold math_log10.
  assert (Hp : (0 <? W * 1000)%float = true).
  { rewrite mul_comm. apply mul_const_pos; try assumption.
    - exact finite_1000.
    - rewrite rank_1000. pose proof one64_pos. lia. }
  rewrite (ltb_true_leb_false _ _ Hp). reflexivity.
Qed.

Lemma return_loss_at_most_one (log10 : float -> float) (VSWR : pyval) (V : float) :
  py_float VSWR = Ok V -> (V <=? 1)%float = true ->
  Monitor.vswr_to_return_loss log10 VSWR = PyStr "0" /\
  Logger.vswr_to_return_loss log10 VSWR = PyFloat Logger.sentinel.
Proof.
  intros H Hle. unfold Monitor.vswr_to_return_loss, Logger.vswr_to_return_loss.
  rewrite H. cbn [bind]. rewrite Hle. split; reflexivity.
Qed.

Lemma return_loss_above_one (log10 : float -> float) (VSWR : pyval) (V : float) :
  py_float VSWR = Ok V -> (1 <? V)%float = true ->
  Monitor.vswr_to_return_loss log10 VSWR
  = PyStr (format_f 2 (-20 * log10 ((V - 1) / (V + 1)))%float) /\
  Logger.vswr_to_return_loss log10 VSWR
  = PyStr (format_f 2 (-20 * log10 ((V - 1) / (V + 1)))%float).
Proof.
  intros H Hgt. unfold Monitor.vswr_to_return_loss, Logger.vswr_to_return_loss.
  rewrite H. cbn [bind]. rewrite (ltb_true_leb_false _ _ Hgt).
  destruct (reflection_ratio_defined V Hgt) as [Hd Hq].
  unfold float_div, math_log10. rewrite Hd. cbn [bind]. rewrite Hq.
  split; reflexivity.
Qed.

Lemma return_loss_unreadable (log10 : float -> float) (VSWR : pyval) (e : exn) :
  py_float VSWR = Raise e ->
  Monitor.vswr_to_return_loss log10 VSWR = PyStr "N/A" /\
  Logger.vswr_to_return_loss log10 VSWR = PyFloat Logger.sentinel.
Proof.
  intros H. unfold Monitor.vswr_to_return_loss, Logger.vswr_to_return_loss.
  rewrite H. split; reflexivity.
Qed.

(** The sentinel of the logger is the float that the literal [9.999e+37]
    denotes. *)
Lemma sentinel_literal : float_of_string "9.999e+37" = Ok Logger.sentinel.
Proof. vm_compute. reflexivity. Qed.


Lemma log10_decades_mono (x y : float) :
  (0 <? x)%float = true -> (x <=? y)%float = true ->
  (log10_decades x <=? log10_decades y)%float = true.
Proof.
  intros _ H. destruct (leb_true_rank x y H) as (Nx & Ny & Hr).
  assert (H1 : float_rank 10 < float_rank 100) by (vm_compute; reflexivity).
  assert (H2 : float_rank 100 < float_rank 1000) by (vm_compute; reflexivity).
  unfold log10_decades.
  destruct (x <? 10)%float eqn:Ex1; destruct (x <? 100)%float eqn:Ex2;
    destruct (x <? 1000)%float eqn:Ex3;
    destruct (y <? 10)%float eqn:Ey1; destruct (y <? 100)%float eqn:Ey2;
    destruct (y <? 1000)%float eqn:Ey3; try reflexivity;
    rewrite ltb_rank in Ex1, Ex2, Ex3, Ey1, Ey2, Ey3 by (assumption || reflexivity);
    repeat match goal with
    | E : (_ <? _) = true |- _ => apply Z.ltb_lt in E
    | E : (_ <? _) = false |- _ => apply Z.ltb_ge in E
    end; lia.
Qed.

(** * The claims *)

(** ** Band labels *)

(** C4. [band_selection] maps 1 to the high-band label and 0 to the low-band
    label; every other input (one that is equal neither to 1 nor to 0) falls
    off the end of the function, which returns [None]: no label, and no
    exception either. *)
Theorem band_selection_labels :
  Monitor.band_selection (PyInt 1) = PyStr "High Band 25 to 1000 MHz" /\
  Monitor.band_selection (PyInt 0) = PyStr "Low Band 2 to 30 MHz" /\
  (forall Band : pyval,
     py_eq_int Band 1 = false -> py_eq_int Band 0 = false ->
     Monitor.band_selection Band = PyNone) /\
  (forall z : Z, z <> 1 -> z <> 0 -> Monitor.band_selection (PyInt z) = PyNone).
Proof.
  split; [reflexivity|]. split; [reflexivity|]. split.
  - intros Band H1 H0. unfold Monitor.band_selection. rewrite H1, H0. reflexivity.
  - intros z H1 H0. unfold Monitor.band_selection. cbn [py_eq_int].
    destruct (Z.eqb_spec z 1); [contradiction|].
    destruct (Z.eqb_spec z 0); [contradiction|]. reflexivity.
Qed.

Lemma band_selection_labels_witness :
  Monitor.band_selection (PyInt 7) = PyNone /\
  Monitor.band_selection (PyStr "1") = PyNone.
Proof.
  split.
  - apply (proj2 (proj2 (proj2 band_selection_labels))); discriminate.
  - apply (proj1 (proj2 (proj2 band_selection_labels))); reflexivity.
Defined.

(** ** Conversion failures *)

(** C3, as the scripts behave. The claim that no conversion failure leaves
    the loop body fails: on the bench instrument whose forward power reading
    is out of range, the iteration of either script raises [ValueError]. *)
Lemma conversions_raise_out_of_the_loop :
  fst (Monitor.update_readings log10_sample (Monitor.start overrange))
    = Raise ValueError /\
  fst (Logger.body log10_sample
         {| Logger.t1 := 0; Logger.elapsed_time := 0; Logger.print_interval_flag := 60 |}
         (Logger.start overrange slow_clock))
    = Raise ValueError.
Proof. split; vm_compute; reflexivity. Qed.

(** C3, amended. A conversion that fails inside a unit-conversion helper is
    caught and replaced by the helper's sentinel. A reply of the instrument
    that cannot be read as a number is not caught: when one of the replies
    of an iteration is unreadable, the iteration raises, and no row is
    written. What it raises is [ValueError], unless the instrument left
    one of the queries of the iteration without an answer (then it can be
    the error of the link) or, in the monitor, [ms_to_hhmmss] raised on the
    system time that was read first (then it can be that exception). *)
Theorem conversion_failures (log10 : float -> float) :
  (forall (v : pyval) (e : exn),
     py_float v = Raise e ->
     Monitor.watts_to_dbm log10 v = PyStr "N/A" /\
     Monitor.vswr_to_return_loss log10 v = PyStr "N/A" /\
     Logger.vswr_to_return_loss log10 v = PyFloat Logger.sentinel) /\
  (forall (w : Monitor.world) r w',
     ~ all_readable (Monitor.my4480 w) 0 monitor_queries ->
     Monitor.update_readings log10 w = (r, w') ->
     (exists e,
        r = Raise e /\
        (e = ValueError \/
         (e = VisaIOError /\
          exists k cmd,
            nth_error monitor_queries k = Some cmd /\
            answer (Monitor.my4480 w) (asked (Monitor.my4480 w) + k)%nat cmd
              = NoReply) \/
         (exists s t,
            answer (Monitor.my4480 w) (asked (Monitor.my4480 w)) "SYST:TIM?"
              = Reply s /\
            int_of_string s = Ok t /\ Monitor.ms_to_hhmmss t = Raise e))) /\
     Monitor.csvfile w' = Monitor.csvfile w) /\
  (forall (l : Logger.locals) (w : Logger.world) r w',
     ~ all_readable (Logger.my4480 w) 0 logger_queries ->
     Logger.body log10 l w = (r, w') ->
     (exists e,
        r = Raise e /\
        (e = ValueError \/
         (e = VisaIOError /\
          exists k cmd,
            nth_error logger_queries k = Some cmd /\
            answer (Logger.my4480 w) (asked (Logger.my4480 w) + k)%nat cmd
              = NoReply))) /\
     Logger.file w' = Logger.file w).
Proof.
  split; [|split].
  - intros v e H.
    unfold Monitor.watts_to_dbm, Monitor.vswr_to_return_loss,
      Logger.vswr_to_return_loss.
    rewrite H. cbn [bind try_except]. auto.
  - intros w r w' Hbad H.
    pose proof (MonitorFacts.update_readings_one_row log10 w r w' H) as Hrow.
    destruct r as [u|e].
    + exfalso. apply Hbad.
      exact (MonitorFacts.update_readings_reads log10 w u w' H).
    + split; [|exact Hrow]. exists e. split; [reflexivity|].
      exact (MonitorRuns.update_readings_cause log10 w w' e H).
  - intros l w r w' Hbad H.
    pose proof (LoggerFacts.body_one_row log10 l w r w' H) as Hrow.
    destruct r as [l'|e].
    + exfalso. apply Hbad.
      exact (LoggerFacts.body_reads log10 l w l' w' H).
    + split; [|exact Hrow]. exists e. split; [reflexivity|].
      exact (LoggerRuns.body_cause log10 l w w' e H).
Qed.

Lemma overrange_unreadable :
  ~ all_readable (Monitor.my4480 (Monitor.start overrange)) 0 monitor_queries.
Proof.
  cbn. intros (_ & (x & Hx) & _). vm_compute in Hx. discriminate Hx.
Qed.

Lemma conversion_failures_witness :
  Monitor.watts_to_dbm log10_sample (PyStr "OVER") = PyStr "N/A" /\
  Monitor.csvfile (snd (Monitor.update_readings log10_sample (Monitor.start overrange)))
    = Monitor.csvfile (Monitor.start overrange).
Proof.
  split.
  - apply (proj1 (conversion_failures log10_sample) (PyStr "OVER") ValueError).
    vm_compute. reflexivity.
  - apply (proj1 (proj2 (conversion_failures log10_sample))
             (Monitor.start overrange)
             (fst (Monitor.update_readings log10_sample (Monitor.start overrange)))).
    + exact overrange_unreadable.
    + destruct (Monitor.update_readings log10_sample (Monitor.start overrange));
        reflexivity.
Defined.

(** ** Rows and iterations *)

(** C7. In both scripts an iteration that runs to its end appends exactly one
    row to the file, and an iteration that raises appends none; so the rows
    of the file below the header count the iterations that ran to their
    end, however long the script runs. *)
Theorem rows_count_completed_iterations (log10 : float -> float) :
  (forall (w : Monitor.world) r w',
     Monitor.update_readings log10 w = (r, w') ->
     match r with
     | Ok _ => exists x, Monitor.csvfile w' = Monitor.csvfile w ++ [x]
     | Raise _ => Monitor.csvfile w' = Monitor.csvfile w
     end) /\
  (forall (n : nat) (d : instrument),
     List.length (Monitor.data_rows (snd (Monitor.main log10 n d)))
     = Monitor.completed (fst (Monitor.main log10 n d))) /\
  (forall (l : Logger.locals) (w : Logger.world) r w',
     Logger.body log10 l w = (r, w') ->
     match r with
     | Ok _ => exists x, Logger.file w' = Logger.file w ++ [x]
     | Raise _ => Logger.file w' = Logger.file w
     end) /\
  (forall (fuel : nat) (d : instrument) (c : nat -> float),
     match Logger.main log10 fuel (Logger.start d c) with
     | Logger.Finished n _ w' | Logger.Failed n _ w' | Logger.Running n _ w' =>
         List.length (Logger.data_rows w') = n
     end).
Proof.
  split; [|split; [|split]].
  - exact (MonitorFacts.update_readings_one_row log10).
  - intros n d. unfold Monitor.main, Monitor.data_rows.
    destruct (Monitor.update_readings log10 (Monitor.start d)) as [r w] eqn:E.
    pose proof (MonitorFacts.update_readings_one_row log10 _ _ _ E) as Hr.
    destruct r as [u|e].
    + destruct (Monitor.mainloop log10 n w) as [rs w'] eqn:E2. cbn [fst snd].
      pose proof (MonitorFacts.mainloop_rows log10 n w rs w' E2) as Hl.
      destruct Hr as (x & Hx). rewrite Hx, length_app in Hl. cbn in Hl.
      unfold Monitor.completed in *. cbn [filter Monitor.is_ok List.length].
      destruct (Monitor.csvfile w') as [|h t]; cbn in *; lia.
    + cbn [fst snd]. rewrite Hr. reflexivity.
  - exact (LoggerFacts.body_one_row log10).
  - intros fuel d c. unfold Logger.main, Logger.data_rows.
    rewrite LoggerFacts.setup_spec.
    match goal with
    | |- context [Logger.while log10 fuel O ?l0 ?w0] =>
        pose proof (LoggerFacts.while_rows log10 fuel O l0 w0) as H;
        destruct (Logger.while log10 fuel O l0 w0) as [n l w'|n e w'|n l w']
    end; cbn in H; cbn [Logger.print snd Logger.file];
      destruct (Logger.file w') as [|h t]; cbn in *; lia.
Qed.

Lemma rows_count_completed_iterations_witness :
  match fst (Monitor.update_readings log10_sample (Monitor.start bench)) with
  | Ok _ =>
      exists x,
        Monitor.csvfile (snd (Monitor.update_readings log10_sample (Monitor.start bench)))
        = Monitor.csvfile (Monitor.start bench) ++ [x]
  | Raise _ =>
      Monitor.csvfile (snd (Monitor.update_readings log10_sample (Monitor.start bench)))
      = Monitor.csvfile (Monitor.start bench)
  end /\
  List.length (Monitor.data_rows (snd (Monitor.main log10_sample 2 bench)))
  = Monitor.completed (fst (Monitor.main log10_sample 2 bench)).
Proof.
  split.
  - apply (proj1 (rows_count_completed_iterations log10_sample) (Monitor.start bench)).
    apply surjective_pairing.
  - apply (proj1 (proj2 (rows_count_completed_iterations log10_sample)) 2%nat bench).
Defined.

(** ** The duration of the batch run *)

(** C8. The loop of the batch logger is bounded by a duration of 1800
    seconds: an iteration begins only while the elapsed time, the last
    reading of the clock minus the start, is below 1800; once an iteration
    measures an elapsed time of 1800 or more, the loop ends with the row of
    that iteration as the last one. *)
Theorem loop_bounded_by_duration (log10 : float -> float) :
  Logger.log_duration = 1800%float /\
  (forall fuel n l w,
     (Logger.elapsed_time l <? 1800)%float = false ->
     Logger.while log10 fuel n l w = Logger.Finished n l w) /\
  (forall fuel n l w,
     (Logger.elapsed_time l <? 1800)%float = true ->
     Logger.while log10 (S fuel) n l w =
       match Logger.body log10 l w with
       | (Ok l', w') => Logger.while log10 fuel (S n) l' w'
       | (Raise e, w') => Logger.Failed n e w'
       end) /\
  (forall l w l' w',
     Logger.body log10 l w = (Ok l', w') ->
     Logger.elapsed_time l' = (Logger.clock w (Logger.now w) - Logger.t1 l)%float) /\
  (forall fuel n l w l' w',
     (Logger.elapsed_time l <? 1800)%float = true ->
     Logger.body log10 l w = (Ok l', w') ->
     (1800 <=? Logger.elapsed_time l')%float = true ->
     Logger.while log10 (S fuel) n l w = Logger.Finished (S n) l' w') /\
  (forall fuel n l w n' l' w',
     Logger.while log10 fuel n l w = Logger.Finished n' l' w' ->
     (Logger.elapsed_time l' <? 1800)%float = false).
Proof.
  split; [reflexivity|]. split; [|split; [|split; [|split]]].
  - intros fuel n l w H. apply LoggerFacts.while_exit. exact H.
  - intros fuel n l w H. apply LoggerFacts.while_step. exact H.
  - intros l w l' w' H. apply (LoggerFacts.body_elapsed log10 l l' w w' H).
  - intros fuel n l w l' w' Hlt Hb Hge.
    rewrite LoggerFacts.while_step by exact Hlt. rewrite Hb.
    apply LoggerFacts.while_exit. apply leb_true_ltb_false. exact Hge.
  - intros fuel n l w n' l' w' H.
    exact (LoggerFacts.while_finished log10 fuel n l w n' l' w' H).
Qed.

Lemma loop_bounded_by_duration_witness :
  Logger.while log10_sample 5 0
    {| Logger.t1 := 0; Logger.elapsed_time := 1800; Logger.print_interval_flag := 60 |}
    (Logger.start bench slow_clock)
  = Logger.Finished 0
      {| Logger.t1 := 0; Logger.elapsed_time := 1800; Logger.print_interval_flag := 60 |}
      (Logger.start bench slow_clock).
Proof.
  apply (proj1 (proj2 (loop_bounded_by_duration log10_sample))).
  vm_compute. reflexivity.
Defined.

(** ** Watts to dBm *)

(** C1. For every input of [watts_to_dbm]: when the conversion to [float]
    fails, or gives a float that is at most 0, the function returns the
    sentinel ['N/A']; when it gives a positive float [W], the function
    returns [10 * log10(W * 1000)], formatted with two decimals. *)
Theorem watts_to_dbm_spec (log10 : float -> float) (watts : pyval) :
  (forall e : exn,
     py_float watts = Raise e ->
     Monitor.watts_to_dbm log10 watts = PyStr "N/A") /\
  (forall W : float,
     py_float watts = Ok W -> (W <=? 0)%float = true ->
     Monitor.watts_to_dbm log10 watts = PyStr "N/A") /\
  (forall W : float,
     py_float watts = Ok W -> (0 <? W)%float = true ->
     Monitor.watts_to_dbm log10 watts
     = PyStr (format_f 2 (10 * log10 (W * 1000))%float)).
Proof.
  split; [|split].
  - intros e H. exact (watts_to_dbm_unreadable log10 watts e H).
  - intros W H Hle. exact (watts_to_dbm_not_positive log10 watts W H Hle).
  - intros W H Hpos. exact (watts_to_dbm_positive log10 watts W H Hpos).
Qed.

Lemma watts_to_dbm_spec_witness :
  Monitor.watts_to_dbm log10_sample (PyStr "abc") = PyStr "N/A" /\
  Monitor.watts_to_dbm log10_sample (PyInt 0) = PyStr "N/A" /\
  Monitor.watts_to_dbm log10_sample (PyFloat 0.5)
  = PyStr (format_f 2 (10 * log10_sample (0.5 * 1000))%float).
Proof.
  split; [|split].
  - apply (proj1 (watts_to_dbm_spec log10_sample (PyStr "abc")) ValueError).
    vm_compute. reflexivity.
  - apply (proj1 (proj2 (watts_to_dbm_spec log10_sample (PyInt 0))) 0%float);
      vm_compute; reflexivity.
  - apply (proj2 (proj2 (watts_to_dbm_spec log10_sample (PyFloat 0.5))) 0.5%float);
      vm_compute; reflexivity.
Defined.


(** ** VSWR to return loss *)

(** C2. For every VSWR input that converts to a float: at most 1, the
    monitor's [vswr_to_return_loss] returns ['0'] and the logger's returns the
    sentinel 9.999e+37; above 1, both return
    [-20 * log10((VSWR - 1) / (VSWR + 1))], formatted with two decimals. *)
Theorem vswr_to_return_loss_spec (log10 : float -> float) (VSWR : pyval) (V : float) :
  py_float VSWR = Ok V ->
  ((V <=? 1)%float = true ->
     Monitor.vswr_to_return_loss log10 VSWR = PyStr "0" /\
     Logger.vswr_to_return_loss log10 VSWR = PyFloat Logger.sentinel) /\
  ((1 <? V)%float = true ->
     Monitor.vswr_to_return_loss log10 VSWR
     = PyStr (format_f 2 (-20 * log10 ((V - 1) / (V + 1)))%float) /\
     Logger.vswr_to_return_loss log10 VSWR
     = PyStr (format_f 2 (-20 * log10 ((V - 1) / (V + 1)))%float)) /\
  float_of_string "9.999e+37" = Ok Logger.sentinel.
Proof.
  intros H. split; [|split].
  - intros Hle. exact (return_loss_at_most_one log10 VSWR V H Hle).
  - intros Hgt. exact (return_loss_above_one log10 VSWR V H Hgt).
  - exact sentinel_literal.
Qed.

Lemma vswr_to_return_loss_spec_witness :
  (Monitor.vswr_to_return_loss log10_sample (PyFloat 1) = PyStr "0" /\
   Logger.vswr_to_return_loss log10_sample (PyFloat 1) = PyFloat Logger.sentinel) /\
  (Monitor.vswr_to_return_loss log10_sample (PyStr "1.5")
   = PyStr (format_f 2 (-20 * log10_sample ((1.5 - 1) / (1.5 + 1)))%float) /\
   Logger.vswr_to_return_loss log10_sample (PyStr "1.5")
   = PyStr (format_f 2 (-20 * log10_sample ((1.5 - 1) / (1.5 + 1)))%float)).
Proof.
  split.
  - apply (proj1 (vswr_to_return_loss_spec log10_sample (PyFloat 1) 1%float eq_refl)).
    vm_compute. reflexivity.
  - apply (proj1 (proj2 (vswr_to_return_loss_spec log10_sample (PyStr "1.5") 1.5%float
                           ltac:(vm_compute; reflexivity)))).
    vm_compute. reflexivity.
Defined.

(** C10. The logger's [vswr_to_return_loss] returns for every input, and what
    it returns is not of one type: when the conversion to [float] fails, or
    gives a float that is at most 1, it returns the float 9.999e+37; when the
    conversion gives a float above 1 it returns a string, the return loss with
    two decimals, although it is annotated as returning a float. *)
Theorem logger_return_loss_types (log10 : float -> float) (VSWR : pyval) :
  (forall e : exn,
     py_float VSWR = Raise e ->
     Logger.vswr_to_return_loss log10 VSWR = PyFloat Logger.sentinel) /\
  (forall V : float,
     py_float VSWR = Ok V -> (V <=? 1)%float = true ->
     Logger.vswr_to_return_loss log10 VSWR = PyFloat Logger.sentinel) /\
  (forall V : float,
     py_float VSWR = Ok V -> (1 <? V)%float = true ->
     exists s : string,
       Logger.vswr_to_return_loss log10 VSWR = PyStr s /\
       s = format_f 2 (-20 * log10 ((V - 1) / (V + 1)))%float) /\
  float_of_string "9.999e+37" = Ok Logger.sentinel.
Proof.
  split; [|split; [|split]].
  - intros e H. exact (proj2 (return_loss_unreadable log10 VSWR e H)).
  - intros V H Hle. exact (proj2 (return_loss_at_most_one log10 VSWR V H Hle)).
  - intros V H Hgt. eexists. split; [|reflexivity].
    exact (proj2 (return_loss_above_one log10 VSWR V H Hgt)).
  - exact sentinel_literal.
Qed.

Lemma logger_return_loss_types_witness :
  Logger.vswr_to_return_loss log10_sample PyNone = PyFloat Logger.sentinel /\
  Logger.vswr_to_return_loss log10_sample (PyFloat 0.5) = PyFloat Logger.sentinel /\
  exists s : string,
    Logger.vswr_to_return_loss log10_sample (PyFloat 1.5) = PyStr s /\
    s = format_f 2 (-20 * log10_sample ((1.5 - 1) / (1.5 + 1)))%float.
Proof.
  split; [|split].
  - apply (proj1 (logger_return_loss_types log10_sample PyNone) TypeError).
    reflexivity.
  - apply (proj1 (proj2 (logger_return_loss_types log10_sample (PyFloat 0.5))) 0.5%float);
      vm_compute; reflexivity.
  - apply (proj1 (proj2 (proj2 (logger_return_loss_types log10_sample (PyFloat 1.5))))
             1.5%float); vm_compute; reflexivity.
Defined.




(** ** Milliseconds to hours, minutes and seconds *)

Lemma rank_3600 : float_rank 3600 = 3600 * one64.
Proof. reflexivity. Qed.

Lemma rank_60 : float_rank 60 = 60 * one64.
Proof. reflexivity. Qed.

Lemma finite_3600 : finite 3600.
Proof. reflexivity. Qed.

Lemma finite_60 : finite 60.
Proof. reflexivity. Qed.

(** The integer arithmetic behind the decomposition: [S] is the rank of the
    float [seconds], [o] the rank of one. *)
Lemma hms_decomposition (S o k : Z) :
  0 < o -> 0 <= k -> k * o <= S < (k + 1) * o ->
  let H := S / (3600 * o) in
  let M := S mod (3600 * o) / (60 * o) in
  let s := S mod (60 * o) / o in
  0 <= H /\ 0 <= M <= 59 /\ 0 <= s <= 59 /\ H * 3600 + M * 60 + s = k.
Proof.
  intros Ho Hk0 Hk H M s.
  assert (HS : 0 <= S) by nia.
  assert (HH0 : 0 <= H) by (apply Z.div_pos; lia).
  pose proof (Z.div_mod S (3600 * o) ltac:(lia)) as E1. fold H in E1.
  pose proof (Z.mod_pos_bound S (3600 * o) ltac:(lia)) as B1.
  set (R := S mod (3600 * o)) in *.
  pose proof (Z.div_mod R (60 * o) ltac:(lia)) as E2. fold M in E2.
  pose proof (Z.mod_pos_bound R (60 * o) ltac:(lia)) as B2.
  set (R2 := R mod (60 * o)) in *.
  assert (E3 : S mod (60 * o) = R2).
  { symmetry. apply Z.mod_unique_pos with (q := 60 * H + M); [exact B2 | lia]. }
  assert (E4 : s = R2 / o) by (unfold s; rewrite E3; reflexivity).
  pose proof (Z.div_mod R2 o ltac:(lia)) as E5. rewrite <- E4 in E5.
  pose proof (Z.mod_pos_bound R2 o ltac:(lia)) as B5.
  assert (Hs0 : 0 <= s) by (rewrite E4; apply Z.div_pos; lia).
  assert (Hs59 : s <= 59) by nia.
  assert (HM0 : 0 <= M) by (apply Z.div_pos; lia).
  assert (HM59 : M <= 59) by nia.
  assert (Ek : o * (H * 3600 + M * 60 + s) <= S < o * (H * 3600 + M * 60 + s + 1)) by lia.
  assert (E : H * 3600 + M * 60 + s = k) by nia.
  repeat split; assumption.
Qed.

(** C9, as the function behaves. The claim fails for large readings: the
    true division [ms / 1000] is rounded to a float, and for
    [ms = 17592186044416999] it is rounded up to the next whole second, so
    the returned text counts one second more than [floor (ms / 1000)]; for
    an integer too large for a float the division raises [OverflowError]
    and no text is returned. *)
Lemma ms_to_hhmmss_rounds_up :
  Monitor.ms_to_hhmmss 17592186044416999 = Ok "4886718345:40:17"%string /\
  4886718345 * 3600 + 40 * 60 + 17 <> 17592186044416999 / 1000 /\
  Monitor.ms_to_hhmmss (10 ^ 400) = Raise OverflowError.
Proof.
  split; [vm_compute; reflexivity|]. split; [vm_compute; discriminate|].
  vm_compute; reflexivity.
Qed.

(** C9, amended. For every integer [ms] with [0 <= ms < 2 ^ 44 * 1000],
    [ms_to_hhmmss ms] returns the text [HH:MM:SS] of three integers, each
    written with at least two digits, with minutes and seconds in [0, 59]
    and [hours * 3600 + minutes * 60 + seconds = floor (ms / 1000)]. *)
Theorem ms_to_hhmmss_decomposition (ms : Z) :
  0 <= ms < 17592186044416000 ->
  exists hours minutes seconds : Z,
    Monitor.ms_to_hhmmss ms
      = Ok (format_02d hours ++ ":" ++ format_02d minutes ++ ":"
              ++ format_02d seconds)%string /\
    0 <= hours /\ 0 <= minutes <= 59 /\ 0 <= seconds <= 59 /\
    hours * 3600 + minutes * 60 + seconds = ms / 1000.
Proof.
  intros Hms. pose proof one64_pos as Hone.
  assert (Hk : ms / 1000 < 2 ^ 44).
  { apply Z.div_lt_upper_bound; [lia|]. change (2 ^ 44) with 17592186044416. lia. }
  assert (Hk0 : 0 <= ms / 1000) by (apply Z.div_pos; lia).
  destruct (int_true_div_rank ms 1000 ltac:(lia) ltac:(lia) Hk) as (sec & Es & Fs & Bs).
  set (k := ms / 1000) in *. set (S := float_rank sec) in *.
  assert (H53 : 2 ^ 44 * 2 ^ 9 = 2 ^ prec) by reflexivity.
  assert (HS0 : 0 <= S) by nia.
  assert (HSlt : S < 2 ^ prec * one64).
  { apply Z.lt_le_trans with (m := (k + 1) * one64); [lia|].
    apply Z.mul_le_mono_nonneg_r; lia. }
  destruct (float_floordiv_rank sec 3600 3600 Fs HS0 HSlt finite_3600 rank_3600 ltac:(lia))
    as (h & Eh & Fh & Rh).
  destruct (float_mod_rank sec 3600 3600 Fs HS0 finite_3600 rank_3600 ltac:(lia))
    as (r & Er & Fr & Rr).
  fold S in Rh, Rr. rewrite rank_3600 in Rh, Rr.
  pose proof (Z.mod_pos_bound S (3600 * one64) ltac:(lia)) as Br.
  assert (Hr0 : 0 <= float_rank r) by (rewrite Rr; lia).
  assert (Hrlt : float_rank r < 2 ^ prec * one64).
  { rewrite Rr. apply Z.lt_le_trans with (m := 3600 * one64); [lia|].
    apply Z.mul_le_mono_nonneg_r; [lia|]. rewrite <- H53. lia. }
  destruct (float_floordiv_rank r 60 60 Fr Hr0 Hrlt finite_60 rank_60 ltac:(lia))
    as (m & Em & Fm & Rm).
  destruct (float_mod_rank sec 60 60 Fs HS0 finite_60 rank_60 ltac:(lia))
    as (s & Es2 & Fs2 & Rs2).
  fold S in Rs2. rewrite rank_60 in Rm, Rs2. rewrite Rr in Rm.
  pose proof (Z.mod_pos_bound S (60 * one64) ltac:(lia)) as Bs2.
  destruct (hms_decomposition S one64 k Hone Hk0 Bs) as (HH & HM & Hs & E).
  cbv zeta in HH, HM, Hs, E.
  assert (Ih : int_of_float h = Ok (S / (3600 * one64))).
  { rewrite int_of_float_rank by (try exact Fh; rewrite Rh; nia).
    rewrite Rh, Z.div_mul by lia. reflexivity. }
  assert (Im : int_of_float m = Ok (S mod (3600 * one64) / (60 * one64))).
  { rewrite int_of_float_rank by (try exact Fm; rewrite Rm; nia).
    rewrite Rm, Z.div_mul by lia. reflexivity. }
  assert (Is : int_of_float s = Ok (S mod (60 * one64) / one64)).
  { rewrite int_of_float_rank by (try exact Fs2; rewrite Rs2; lia).
    rewrite Rs2. reflexivity. }
  exists (S / (3600 * one64)), (S mod (3600 * one64) / (60 * one64)),
    (S mod (60 * one64) / one64).
  split; [|auto].
  unfold Monitor.ms_to_hhmmss.
  rewrite Es. cbn [bind]. rewrite Eh. cbn [bind]. rewrite Ih. cbn [bind].
  rewrite Er. cbn [bind]. rewrite Em. cbn [bind]. rewrite Im. cbn [bind].
  rewrite Es2. cbn [bind]. rewrite Is. cbn [bind]. reflexivity.
Qed.

Lemma ms_to_hhmmss_decomposition_witness :
  exists hours minutes seconds : Z,
    Monitor.ms_to_hhmmss 3725250
      = Ok (format_02d hours ++ ":" ++ format_02d minutes ++ ":"
              ++ format_02d seconds)%string /\
    0 <= hours /\ 0 <= minutes <= 59 /\ 0 <= seconds <= 59 /\
    hours * 3600 + minutes * 60 + seconds = 3725250 / 1000.
Proof. apply (ms_to_hhmmss_decomposition 3725250). lia. Defined.

(** * Further properties *)

(** ** The monitor: the whole run *)

Lemma numbered_nil (c : nat) : numbered c [].
Proof. intros k r H. destruct k; discriminate H. Qed.

Lemma numbered_snoc (c : nat) (rows : list row) (r : row) :
  numbered c rows ->
  nth_error r c = Some (PyInt (Z.of_nat (List.length rows) + 1)) ->
  numbered c (rows ++ [r]).
Proof.
  intros Hn Hr k r' H.
  destruct (Nat.lt_ge_cases k (List.length rows)) as [Hlt|Hge].
  - rewrite nth_error_app1 in H by exact Hlt. exact (Hn k r' H).
  - rewrite nth_error_app2 in H by exact Hge.
    destruct (k - List.length rows)%nat as [|j] eqn:Ek.
    + cbn in H. inversion H; subst r'.
      replace k with (List.length rows) by lia. exact Hr.
    + cbn in H. destruct j; discriminate H.
Qed.

Module MonitorLoop.

Import Monitor MonitorSpec.

Lemma mainloop_idle (log10 : float -> float) (n : nat) (w : world) :
  timer w = false -> mainloop log10 n w = ([], w).
Proof. intros H. destruct n; cbn [mainloop]; [|rewrite H]; reflexivity. Qed.

Lemma update_readings_timer (log10 : float -> float) (w w' : world) (r : result unit) :
  update_readings log10 w = (r, w') ->
  timer w' = match r with Ok _ => true | Raise _ => timer w end.
Proof.
  intros H. destruct r as [u|e].
  - destruct (MonitorRuns.update_readings_ok log10 w w' u H)
      as (s0 & s1 & s2 & s3 & s4 & s5 & s6 & hms & t0 & t1 & b & y1 & y2 & y3 & y4 & R).
    cbv zeta in R. tauto.
  - destruct (MonitorRuns.update_readings_raise log10 w w' e H) as (_ & R & _).
    exact R.
Qed.

(** The results of the callbacks: completed ones, then at most one that
    raised, after which the timer is not armed and no callback runs. *)
Lemma mainloop_results (log10 : float -> float) (n : nat) :
  forall w rs w',
    mainloop log10 n w = (rs, w') ->
    exists k : nat,
      rs = repeat (Ok tt) k \/
      (exists e, rs = repeat (Ok tt) k ++ [Raise e] /\ timer w' = false).
Proof.
  induction n as [|n IH]; intros w rs w'; cbn [mainloop].
  - intros H. inversion H; subst. exists O. left. reflexivity.
  - destruct (timer w) eqn:T.
    + destruct (update_readings log10 (fired w)) as [r w1] eqn:E.
      pose proof (update_readings_timer log10 _ _ _ E) as Ht.
      destruct r as [[]|e].
      * destruct (mainloop log10 n w1) as [rs1 w2] eqn:E2.
        intros H. inversion H; subst.
        destruct (IH w1 rs1 w' E2) as (k & [R | (e & R & Hf)]).
        -- exists (S k). left. rewrite R. reflexivity.
        -- exists (S k). right. exists e. rewrite R. split; [reflexivity | exact Hf].
      * cbn [fired timer] in Ht.
        rewrite (mainloop_idle log10 n w1 Ht).
        intros H. inversion H; subst.
        exists O. right. exists e. split; [reflexivity | exact Ht].
    + intros H. inversion H; subst. exists O. left. reflexivity.
Qed.

Lemma update_readings_logged (log10 : float -> float) (w w' : world)
    (r : result unit) (rows : list row) :
  update_readings log10 w = (r, w') ->
  csvfile w = fieldnames :: rows ->
  i w = Z.of_nat (List.length rows) ->
  numbered 8 rows ->
  Forall (fun x => List.length x = List.length fieldnames) rows ->
  exists rows',
    csvfile w' = fieldnames :: rows' /\
    numbered 8 rows' /\
    Forall (fun x => List.length x = List.length fieldnames) rows' /\
    match r with
    | Ok _ => i w' = Z.of_nat (List.length rows')
    | Raise _ => rows' = rows
    end.
Proof.
  intros H Hf Hi Hn Hl. destruct r as [u|e].
  - destruct (MonitorRuns.update_readings_ok log10 w w' u H)
      as (s0 & s1 & s2 & s3 & s4 & s5 & s6 & hms & t0 & t1 & b & y1 & y2 & y3 & y4 & R).
    cbv zeta in R. destruct R as (_ & (Hi' & _) & Hrow & _).
    rewrite Hf in Hrow. cbn [app] in Hrow.
    eexists. split; [exact Hrow|]. split; [|split].
    + apply numbered_snoc; [exact Hn|]. cbn [nth_error]. rewrite Hi. reflexivity.
    + apply Forall_app. split; [exact Hl|]. constructor; [reflexivity | constructor].
    + rewrite Hi', Hi, length_app. cbn [List.length]. lia.
  - destruct (MonitorRuns.update_readings_raise log10 w w' e H) as (_ & _ & Hc & _).
    exists rows. rewrite Hc. auto.
Qed.

Lemma mainloop_logged (log10 : float -> float) (n : nat) :
  forall (w : world) rs w' (rows : list row),
    mainloop log10 n w = (rs, w') ->
    csvfile w = fieldnames :: rows ->
    i w = Z.of_nat (List.length rows) ->
    numbered 8 rows ->
    Forall (fun x => List.length x = List.length fieldnames) rows ->
    exists rows',
      csvfile w' = fieldnames :: rows' /\
      numbered 8 rows' /\
      Forall (fun x => List.length x = List.length fieldnames) rows'.
Proof.
  induction n as [|n IH]; intros w rs w' rows; cbn [mainloop].
  - intros H Hf Hi Hn Hl. inversion H; subst. exists rows. auto.
  - destruct (timer w) eqn:T.
    + destruct (update_readings log10 (fired w)) as [r w1] eqn:E.
      intros H Hf Hi Hn Hl.
      destruct (update_readings_logged log10 (fired w) w1 r rows E Hf Hi Hn Hl)
        as (rows1 & Hf1 & Hn1 & Hl1 & Hr).
      pose proof (update_readings_timer log10 _ _ _ E) as Ht.
      destruct r as [u|e].
      * destruct (mainloop log10 n w1) as [rs1 w2] eqn:E2.
        inversion H; subst.
        exact (IH w1 rs1 w' rows1 E2 Hf1 Hr Hn1 Hl1).
      * cbn [fired timer] in Ht.
        rewrite (mainloop_idle log10 n w1 Ht) in H.
        injection H as <- <-. exists rows1. auto.
    + intros H Hf Hi Hn Hl. inversion H; subst. exists rows. auto.
Qed.

Lemma main_logged (log10 : float -> float) (n : nat) (d : instrument) :
  exists rows,
    csvfile (snd (main log10 n d)) = fieldnames :: rows /\
    numbered 8 rows /\
    Forall (fun x => List.length x = List.length fieldnames) rows.
Proof.
  unfold main.
  destruct (update_readings log10 (start d)) as [r w] eqn:E.
  destruct (update_readings_logged log10 (start d) w r [] E eq_refl eq_refl
              (numbered_nil 8) (Forall_nil _)) as (rows1 & Hf1 & Hn1 & Hl1 & Hr).
  destruct r as [u|e].
  - destruct (mainloop log10 n w) as [rs w'] eqn:E2. cbn [snd].
    exact (mainloop_logged log10 n w rs w' rows1 E2 Hf1 Hr Hn1 Hl1).
  - cbn [snd]. exists rows1. auto.
Qed.

Lemma main_results (log10 : float -> float) (n : nat) (d : instrument) :
  exists k : nat,
    fst (main log10 n d) = repeat (Ok tt) k \/
    (exists e, fst (main log10 n d) = repeat (Ok tt) k ++ [Raise e] /\
               timer (snd (main log10 n d)) = false).
Proof.
  unfold main.
  destruct (update_readings log10 (start d)) as [r w] eqn:E.
  pose proof (update_readings_timer log10 _ _ _ E) as Ht.
  destruct r as [[]|e].
  - destruct (mainloop log10 n w) as [rs w'] eqn:E2. cbn [fst snd].
    destruct (mainloop_results log10 n w rs w' E2) as (k & [R | (e & R & Hf)]).
    + exists (S k). left. rewrite R. reflexivity.
    + exists (S k). right. exists e. rewrite R. split; [reflexivity | exact Hf].
  - cbn [fst snd]. exists O. right. exists e. split; [reflexivity|].
    exact Ht.
Qed.

End MonitorLoop.

(** ** The logger: the whole run *)

Lemma all_readable_ext (d d' : instrument) (m : nat) (cmds : list string) :
  answer d' = answer d -> asked d' = (m + asked d)%nat ->
  forall k, all_readable d' k cmds <-> all_readable d (m + k) cmds.
Proof.
  intros Ha Hk. induction cmds as [|c cmds IH]; intros k; cbn [all_readable]; [tauto|].
  rewrite IH, Ha, Hk.
  replace (m + asked d + k)%nat with (asked d + (m + k))%nat by lia.
  replace (m + S k)%nat with (S (m + k)) by lia. tauto.
Qed.

Module LoggerLoop.

Import Logger LoggerSpec.

(** What the loop has done when the observation stops: the rows, the
    progress lines and the messages of its iterations. *)
Lemma while_trace (log10 : float -> float) (fuel : nat) :
  forall n l w,
    exists (rows : list row) (lines tail : list string),
      Forall (fun r => List.length r = List.length header) rows /\
      Forall progress_line lines /\
      (List.length lines <= List.length rows)%nat /\
      match while log10 fuel n l w with
      | Finished n' _ w' | Running n' _ w' =>
          n' = (n + List.length rows)%nat /\ tail = [] /\
          file w' = file w ++ rows /\ stdout w' = stdout w ++ lines /\
          sent (my4480 w') =
            rev (rounds (List.length rows) logger_queries) ++ sent (my4480 w)
      | Failed n' _ w' =>
          n' = (n + List.length rows)%nat /\
          (exists k, (1 <= k <= 4)%nat /\ tail = firstn k logger_queries) /\
          file w' = file w ++ rows /\ stdout w' = stdout w ++ lines /\
          sent (my4480 w') =
            rev (rounds (List.length rows) logger_queries ++ tail) ++ sent (my4480 w)
      end.
Proof.
  induction fuel as [|fuel IH]; intros n l w; cbn [while].
  - exists [], [], []. repeat split; try constructor.
    destruct (elapsed_time l <? log_duration)%float;
      cbn [List.length rounds rev app]; rewrite ?Nat.add_0_r, ?app_nil_r; auto.
  - destruct (elapsed_time l <? log_duration)%float.
    2:{ exists [], [], []. repeat split; try constructor;
          cbn [List.length rounds rev app]; rewrite ?Nat.add_0_r, ?app_nil_r; auto. }
    destruct (body log10 l w) as [[l1|e] w1] eqn:E.
    + destruct (LoggerRuns.body_ok log10 l l1 w w1 E)
        as (s1 & s2 & s3 & s4 & y1 & y2 & y3 & y4 & R).
      cbv zeta in R.
      destruct R as (_ & (_ & Hsent & _) & Hfile & _ & _ & Hout).
      destruct (IH (S n) l1 w1) as (rows & lines & tail & Hl & Hp & Hle & R).
      set (r := [PyStr (format_f 3 (clock w (now w) - t1 l)); PyFloat (py_round 2 y1);
                 PyFloat (py_round 2 y2); PyFloat (py_round 2 y3);
                 vswr_to_return_loss log10 (PyFloat (py_round 2 y3));
                 PyFloat (py_round 2 y4)]) in *.
      assert (Hout' : exists first, stdout w1 = stdout w ++ first /\
                        Forall progress_line first /\ (List.length first <= 1)%nat).
      { destruct (print_interval_flag l <? clock w (now w) - t1 l)%float.
        - destruct Hout as [_ Ho]. eexists. split; [exact Ho|]. split.
          + constructor; [|constructor]. eexists. reflexivity.
          + cbn. lia.
        - destruct Hout as [_ Ho]. exists []. rewrite app_nil_r.
          split; [exact Ho|]. split; [constructor | cbn; lia]. }
      destruct Hout' as (first & Ho & Hpf & Hlf).
      exists (r :: rows), (first ++ lines), tail.
      split; [constructor; [reflexivity | exact Hl]|].
      split; [apply Forall_app; auto|].
      split; [rewrite length_app; cbn [List.length]; lia|].
      assert (Hs : forall t,
                rev (rounds (List.length rows) logger_queries ++ t) ++ sent (my4480 w1) =
                rev (rounds (List.length (r :: rows)) logger_queries ++ t) ++ sent (my4480 w)).
      { intros t. rewrite Hsent. cbn [List.length rounds].
        rewrite <- (app_assoc logger_queries), (rev_app_distr logger_queries).
        rewrite <- app_assoc. reflexivity. }
      destruct (while log10 fuel (S n) l1 w1) as [n' l' w'|n' e' w'|n' l' w'].
      * destruct R as (-> & -> & Hf & Hso & Hse).
        rewrite Hf, Hso, Hse, Hfile, Ho, <- !app_assoc.
        repeat split; [cbn [List.length]; lia|].
        specialize (Hs []). rewrite !app_nil_r in Hs. exact Hs.
      * destruct R as (-> & Hk & Hf & Hso & Hse).
        rewrite Hf, Hso, Hse, Hfile, Ho, <- !app_assoc.
        repeat split; [cbn [List.length]; lia | exact Hk | apply Hs].
      * destruct R as (-> & -> & Hf & Hso & Hse).
        rewrite Hf, Hso, Hse, Hfile, Ho, <- !app_assoc.
        repeat split; [cbn [List.length]; lia|].
        specialize (Hs []). rewrite !app_nil_r in Hs. exact Hs.
    + destruct (LoggerRuns.body_raise log10 l w w1 e E) as (Hf & Ho & _ & k & Hk & Hs).
      exists [], [], (firstn k logger_queries).
      repeat split; try constructor.
      * cbn [List.length]. lia.
      * exists k. auto.
      * rewrite app_nil_r. exact Hf.
      * rewrite app_nil_r. exact Ho.
      * exact Hs.
Qed.

(** The loop runs until the first reading of the clock that is not below
    the duration, when every reply can be read. *)
Lemma while_runs (log10 : float -> float) (k : nat) :
  forall fuel n l w,
    (k < fuel)%nat ->
    (forall m, all_readable (my4480 w) m logger_queries) ->
    (elapsed_time l <? log_duration)%float = true ->
    (forall j, (j < k)%nat ->
       (clock w (now w + j) - t1 l <? log_duration)%float = true) ->
    (clock w (now w + k) - t1 l <? log_duration)%float = false ->
    exists l' w',
      while log10 fuel n l w = Finished (n + S k) l' w' /\
      elapsed_time l' = (clock w (now w + k) - t1 l)%float.
Proof.
  induction k as [|k IH]; intros fuel n l w Hfuel Hr He Hlt Hge.
  - destruct fuel as [|fuel]; [lia|].
    rewrite (LoggerFacts.while_step log10 fuel n l w He).
    destruct (LoggerRuns.body_runs log10 l w (Hr O)) as (l1 & w1 & E). rewrite E.
    destruct (LoggerRuns.body_ok log10 l l1 w w1 E)
      as (s1 & s2 & s3 & s4 & y1 & y2 & y3 & y4 & R).
    cbv zeta in R. destruct R as (_ & _ & _ & _ & Hel & _).
    rewrite Nat.add_0_r in Hge.
    exists l1, w1. split.
    + rewrite LoggerFacts.while_exit by (rewrite Hel; exact Hge).
      f_equal. lia.
    + rewrite Nat.add_0_r. exact Hel.
  - destruct fuel as [|fuel]; [lia|].
    rewrite (LoggerFacts.while_step log10 fuel n l w He).
    destruct (LoggerRuns.body_runs log10 l w (Hr O)) as (l1 & w1 & E). rewrite E.
    destruct (LoggerRuns.body_ok log10 l l1 w w1 E)
      as (s1 & s2 & s3 & s4 & y1 & y2 & y3 & y4 & R).
    cbv zeta in R.
    destruct R as (_ & (Hask & _ & Hans & Hclock & Hnow) & _ & Ht1 & Hel & _).
    destruct (IH fuel (S n) l1 w1) as (l' & w' & Hw & Hel').
    + lia.
    + intros m. apply (all_readable_ext (my4480 w) (my4480 w1) 4 _ Hans Hask).
      apply Hr.
    + rewrite Hel. specialize (Hlt O ltac:(lia)). rewrite Nat.add_0_r in Hlt. exact Hlt.
    + intros j Hj. rewrite Hclock, Hnow, Ht1.
      replace (S (now w) + j)%nat with (now w + S j)%nat by lia.
      apply Hlt. lia.
    + rewrite Hclock, Hnow, Ht1.
      replace (S (now w) + k)%nat with (now w + S k)%nat by lia. exact Hge.
    + exists l', w'. split.
      * rewrite Hw. f_equal. lia.
      * rewrite Hel', Hclock, Hnow, Ht1.
        replace (S (now w) + k)%nat with (now w + S k)%nat by lia. reflexivity.
Qed.

End LoggerLoop.

(** ** Milliseconds to hours, minutes and seconds: the value *)

(** The three quotients of [ms_to_hhmmss], taken from the rank [S] of the
    float [seconds]. *)
Lemma ms_to_hhmmss_ranked (ms : Z) :
  0 <= ms < 17592186044416000 ->
  exists S : Z,
    ms / 1000 * one64 <= S < (ms / 1000 + 1) * one64 /\
    Monitor.ms_to_hhmmss ms
      = Ok (format_02d (S / (3600 * one64)) ++ ":"
              ++ format_02d (S mod (3600 * one64) / (60 * one64)) ++ ":"
              ++ format_02d (S mod (60 * one64) / one64))%string.
Proof.
  intros Hms. pose proof one64_pos as Hone.
  assert (Hk : ms / 1000 < 2 ^ 44).
  { apply Z.div_lt_upper_bound; [lia|]. change (2 ^ 44) with 17592186044416. lia. }
  assert (Hk0 : 0 <= ms / 1000) by (apply Z.div_pos; lia).
  destruct (int_true_div_rank ms 1000 ltac:(lia) ltac:(lia) Hk) as (sec & Es & Fs & Bs).
  set (k := ms / 1000) in *. set (S := float_rank sec) in *.
  assert (H53 : 2 ^ 44 * 2 ^ 9 = 2 ^ prec) by reflexivity.
  assert (HS0 : 0 <= S) by nia.
  assert (HSlt : S < 2 ^ prec * one64).
  { apply Z.lt_le_trans with (m := (k + 1) * one64); [lia|].
    apply Z.mul_le_mono_nonneg_r; lia. }
  destruct (float_floordiv_rank sec 3600 3600 Fs HS0 HSlt finite_3600 rank_3600 ltac:(lia))
    as (h & Eh & Fh & Rh).
  destruct (float_mod_rank sec 3600 3600 Fs HS0 finite_3600 rank_3600 ltac:(lia))
    as (r & Er & Fr & Rr).
  fold S in Rh, Rr. rewrite rank_3600 in Rh, Rr.
  pose proof (Z.mod_pos_bound S (3600 * one64) ltac:(lia)) as Br.
  assert (Hr0 : 0 <= float_rank r) by (rewrite Rr; lia).
  assert (Hrlt : float_rank r < 2 ^ prec * one64).
  { rewrite Rr. apply Z.lt_le_trans with (m := 3600 * one64); [lia|].
    apply Z.mul_le_mono_nonneg_r; [lia|]. rewrite <- H53. lia. }
  destruct (float_floordiv_rank r 60 60 Fr Hr0 Hrlt finite_60 rank_60 ltac:(lia))
    as (m & Em & Fm & Rm).
  destruct (float_mod_rank sec 60 60 Fs HS0 finite_60 rank_60 ltac:(lia))
    as (s & Es2 & Fs2 & Rs2).
  fold S in Rs2. rewrite rank_60 in Rm, Rs2. rewrite Rr in Rm.
  pose proof (Z.mod_pos_bound S (60 * one64) ltac:(lia)) as Bs2.
  destruct (hms_decomposition S one64 k Hone Hk0 Bs) as (HH & HM & Hs & E).
  cbv zeta in HH, HM, Hs, E.
  assert (Ih : int_of_float h = Ok (S / (3600 * one64))).
  { rewrite int_of_float_rank by (try exact Fh; rewrite Rh; nia).
    rewrite Rh, Z.div_mul by lia. reflexivity. }
  assert (Im : int_of_float m = Ok (S mod (3600 * one64) / (60 * one64))).
  { rewrite int_of_float_rank by (try exact Fm; rewrite Rm; nia).
    rewrite Rm, Z.div_mul by lia. reflexivity. }
  assert (Is : int_of_float s = Ok (S mod (60 * one64) / one64)).
  { rewrite int_of_float_rank by (try exact Fs2; rewrite Rs2; lia).
    rewrite Rs2. reflexivity. }
  exists S. split; [exact Bs|].
  unfold Monitor.ms_to_hhmmss.
  rewrite Es. cbn [bind]. rewrite Eh. cbn [bind]. rewrite Ih. cbn [bind].
  rewrite Er. cbn [bind]. rewrite Em. cbn [bind]. rewrite Im. cbn [bind].
  rewrite Es2. cbn [bind]. rewrite Is. cbn [bind]. reflexivity.
Qed.

(** Hours, minutes and seconds are the digits of the whole seconds in the
    mixed base 60, 60. *)
Lemma hms_exact (S o k : Z) :
  0 < o -> 0 <= k -> k * o <= S < (k + 1) * o ->
  S / (3600 * o) = k / 3600 /\
  S mod (3600 * o) / (60 * o) = k mod 3600 / 60 /\
  S mod (60 * o) / o = k mod 60.
Proof.
  intros Ho Hk HS.
  destruct (hms_decomposition S o k Ho Hk HS) as (HH & HM & Hs & E).
  cbv zeta in HH, HM, Hs, E.
  set (H := S / (3600 * o)) in *.
  set (M := S mod (3600 * o) / (60 * o)) in *.
  set (s := S mod (60 * o) / o) in *.
  assert (E1 : k / 3600 = H).
  { symmetry. apply Z.div_unique with (r := M * 60 + s); lia. }
  assert (E2 : k mod 3600 = M * 60 + s).
  { symmetry. apply Z.mod_unique with (q := H); lia. }
  assert (E3 : k mod 60 = s).
  { symmetry. apply Z.mod_unique with (q := H * 60 + M); lia. }
  rewrite E1, E2, E3. repeat split.
  apply Z.div_unique with (r := s); lia.
Qed.

Lemma ms_to_hhmmss_value (ms : Z) :
  0 <= ms < 17592186044416000 ->
  Monitor.ms_to_hhmmss ms
    = Ok (format_02d (ms / 1000 / 3600) ++ ":"
            ++ format_02d (ms / 1000 mod 3600 / 60) ++ ":"
            ++ format_02d (ms / 1000 mod 60))%string.
Proof.
  intros Hms. destruct (ms_to_hhmmss_ranked ms Hms) as (S & HS & E).
  assert (Hk : 0 <= ms / 1000) by (apply Z.div_pos; lia).
  destruct (hms_exact S one64 (ms / 1000) one64_pos Hk HS) as (E1 & E2 & E3).
  rewrite E, E1, E2, E3. reflexivity.
Qed.

(** Two digits: the text of a number below 100. *)
Lemma format_02d_length (z : Z) :
  0 <= z < 100 -> String.length (format_02d z) = 2%nat.
Proof.
  intros Hz.
  assert (H : forallb (fun n => Nat.eqb (String.length (format_02d (Z.of_nat n))) 2)
                (seq 0 100) = true) by (vm_compute; reflexivity).
  rewrite forallb_forall in H.
  specialize (H (Z.to_nat z)). rewrite Z2Nat.id in H by lia.
  apply Nat.eqb_eq. apply H. apply in_seq. lia.
Qed.

Lemma length_append (a b : string) :
  String.length (a ++ b) = (String.length a + String.length b)%nat.
Proof. induction a as [|c a IH]; cbn; [reflexivity | rewrite IH; reflexivity]. Qed.

(** ** Rounding a reading to two decimals *)

Lemma scaled_round_nonneg (p : nat) (m : positive) (e : Z) : 0 <= scaled_round p m e.
Proof.
  unfold scaled_round.
  assert (H10 : 0 < 10 ^ Z.of_nat p) by (apply Z.pow_pos_nonneg; lia).
  destruct (Z.leb_spec 0 e).
  - assert (0 < 2 ^ e) by (apply Z.pow_pos_nonneg; lia). nia.
  - apply round_half_even_div_nonneg; [nia | apply Z.pow_pos_nonneg; lia].
Qed.

(** [round(x, 2)] in ranks: the number of hundredths that [format_f 2]
    prints, read back as a float. *)
Lemma py_round_rank (x : float) :
  finite x ->
  float_rank (py_round 2 x) = rnd64 (fixed_value 2 x * one64) 100 /\
  number (py_round 2 x).
Proof.
  intros F. pose proof one64_pos as Hone. pose proof top64_pos as Htop.
  unfold py_round, fixed_value, finite in *.
  destruct (Prim2SF x) as [s|s| |s m e] eqn:E; try discriminate F.
  - unfold float_rank, number. rewrite E. cbn [rank units is_nan_sf].
    rewrite Z.mul_0_l, rnd_0. auto.
  - pose proof (scaled_round_nonneg 2 m e) as Hn.
    unfold float_of_decimal, SF_of_decimal.
    destruct (scaled_round 2 m e) as [|n|n] eqn:En; try lia.
    + destruct (rank_SF2Prim (S754_zero s) eq_refl) as [R _].
      rewrite R. cbn [rank units]. unfold number.
      rewrite Prim2SF_SF2Prim by reflexivity.
      destruct s; cbn [cond_Zopp]; rewrite ?Z.mul_0_l, rnd_0; auto.
    + cbn [Z.of_nat Z.opp Z.leb Z.compare Pos.of_succ_nat Pos.succ].
      change (Z.to_pos (10 ^ 2)) with 100%positive.
      rewrite SFquot_pack.
      set (u := round_units prec (Zpos n * one64) 100).
      assert (Hf : fits prec u) by (apply round_units_fits; [b64 | nia | lia]).
      pose proof (pack_valid prec emax prec_gt_1_64 prec_lt_emax_64 s u Hf) as V.
      pose proof (pack_not_nan prec emax prec_gt_1_64 prec_lt_emax_64 s u Hf) as N.
      pose proof (rank_pack prec emax prec_gt_1_64 prec_lt_emax_64 s u Hf) as R.
      destruct (rank_SF2Prim _ V) as [R' _].
      split.
      * rewrite R', R. unfold rnd.
        destruct s; cbn [cond_Zopp].
        -- replace (- Zpos n * one64) with (- (Zpos n * one64)) by ring.
           rewrite Z.sgn_neg, Z.abs_neq by nia.
           rewrite Z.opp_involutive. fold u. lia.
        -- rewrite Z.sgn_pos, Z.abs_eq by nia. fold u. lia.
      * unfold number. rewrite Prim2SF_SF2Prim by exact V. exact N.
Qed.

Lemma rnd_one : rnd64 (100 * one64) 100 = one64.
Proof.
  pose proof one64_pos as Hone. pose proof top64_pos as Htop.
  rewrite (rnd_ratio prec emax prec_gt_1_64 prec_lt_emax_64
             (100 * one64) 100 one64 1 ltac:(lia) ltac:(lia) ltac:(ring)).
  apply rnd_id; rewrite Z.abs_eq by lia.
  - unfold one_units. apply fits_pow2; [b64|].
    apply Z.lt_le_incl, Z.opp_pos_neg, emin_neg; b64.
  - rewrite one64_eq, top64_eq. apply Z.pow_lt_mono_r; lia.
Qed.

(** Floats are discrete: between a float and its neighbours there is a gap
    of one unit in the last place. *)
Lemma multiples_gap (p a b : Z) :
  0 < p -> a mod p = 0 -> b mod p = 0 -> a < b -> a + p <= b.
Proof.
  intros Hp Ha Hb H.
  apply Z.div_exact in Ha; [|lia]. apply Z.div_exact in Hb; [|lia].
  set (qa := a / p) in *. set (qb := b / p) in *.
  assert (Hq : qa < qb) by (apply Z.mul_lt_mono_pos_l with (p := p); lia).
  rewrite Ha, Hb. replace (p * qa + p) with (p * (qa + 1)) by ring.
  apply Z.mul_le_mono_nonneg_l; lia.
Qed.

Lemma mod_pow2_weaken (a s t : Z) :
  0 <= s <= t -> a mod 2 ^ t = 0 -> a mod 2 ^ s = 0.
Proof.
  intros Hst H.
  assert (Hpt : 0 < 2 ^ t) by (apply Z.pow_pos_nonneg; lia).
  assert (Hps : 0 < 2 ^ s) by (apply Z.pow_pos_nonneg; lia).
  apply Z.div_exact in H; [|lia].
  rewrite H. replace t with ((t - s) + s) at 1 by lia.
  rewrite Z.pow_add_r by lia.
  replace (2 ^ (t - s) * 2 ^ s * (a / 2 ^ t)) with (2 ^ (t - s) * (a / 2 ^ t) * 2 ^ s) by ring.
  apply Z.mod_mul. lia.
Qed.

Lemma fits_above (X R : Z) :
  fits prec X -> fits prec R -> 0 < R < X ->
  R + 2 ^ Z.max (Zdigits2 R - prec) 0 <= X.
Proof.
  intros [_ HX] [_ HR] H.
  pose proof (Zdigits2_le R X ltac:(lia) ltac:(lia)) as Hd.
  apply multiples_gap; [apply Z.pow_pos_nonneg; lia | exact HR | | lia].
  apply mod_pow2_weaken with (t := Z.max (Zdigits2 X - prec) 0); [lia | exact HX].
Qed.

Lemma fits_below (X R : Z) :
  fits prec X -> fits prec R -> 0 <= X < R -> 2 ^ (Zdigits2 R - 1) < R ->
  X <= R - 2 ^ Z.max (Zdigits2 R - prec) 0.
Proof.
  intros [_ HX] [_ HR] H Hnp.
  pose proof prec_gt_1_64 as Hprec.
  pose proof (Zdigits2_le X R ltac:(lia) ltac:(lia)) as Hd.
  pose proof (Zdigits2_pos R ltac:(lia)) as HD.
  set (t := Z.max (Zdigits2 R - prec) 0) in *.
  assert (Hpt : 0 < 2 ^ t) by (apply Z.pow_pos_nonneg; lia).
  destruct (Z.eq_dec (Zdigits2 X) (Zdigits2 R)) as [E|E].
  - rewrite E in HX. fold t in HX.
    pose proof (multiples_gap (2 ^ t) X R Hpt HX HR ltac:(lia)). lia.
  - assert (Hpow : (2 ^ (Zdigits2 R - 1)) mod 2 ^ t = 0).
    { replace (Zdigits2 R - 1) with ((Zdigits2 R - 1 - t) + t) by lia.
      rewrite Z.pow_add_r by lia. apply Z.mod_mul. lia. }
    pose proof (multiples_gap (2 ^ t) _ R Hpt Hpow HR Hnp) as Hgap.
    destruct (Z.eq_dec X 0) as [->|Hx0].
    + assert (0 < 2 ^ (Zdigits2 R - 1)) by (apply Z.pow_pos_nonneg; lia). lia.
    + pose proof (Zdigits2_bounds X ltac:(lia)) as [_ Hhi].
      assert (2 ^ Zdigits2 X <= 2 ^ (Zdigits2 R - 1))
        by (apply Z.pow_le_mono_r; lia).
      lia.
Qed.

Lemma finite_rank_fits (x : float) :
  finite x -> 0 <= float_rank x -> fits prec (float_rank x).
Proof.
  intros F H.
  destruct (fits_rank prec emax prec_gt_1_64 prec_lt_emax_64 (Prim2SF x)
              (number_valid x) F) as [Hf _].
  fold (float_rank x) in Hf. rewrite Z.abs_eq in Hf by exact H. exact Hf.
Qed.

(** Where the rounding to two decimals changes its value, around 0.005 and
    around 1.005. *)
Lemma not_a_power_0005 :
  2 ^ (Zdigits2 (float_rank 0.005) - 1) < float_rank 0.005.
Proof. vm_compute. reflexivity. Qed.

Lemma hundredths_below_half :
  round_int ((float_rank 0.005 - 2 ^ Z.max (Zdigits2 (float_rank 0.005) - prec) 0)
             * 10 ^ 2) one64 = 0.
Proof. vm_compute. reflexivity. Qed.

Lemma hundredths_at_half : round_int (float_rank 0.005 * 10 ^ 2) one64 = 1.
Proof. vm_compute. reflexivity. Qed.

Lemma hundredths_at_1005 : round_int (float_rank 1.005 * 10 ^ 2) one64 = 100.
Proof. vm_compute. reflexivity. Qed.

Lemma hundredths_above_1005 :
  round_int ((float_rank 1.005 + 2 ^ Z.max (Zdigits2 (float_rank 1.005) - prec) 0)
             * 10 ^ 2) one64 = 101.
Proof. vm_compute. reflexivity. Qed.

Lemma one_hundredth_positive : 0 < rnd64 (1 * one64) 100.
Proof. vm_compute. reflexivity. Qed.

Lemma hundred_and_one_hundredths : one64 < rnd64 (101 * one64) 100.
Proof. vm_compute. reflexivity. Qed.

Lemma fixed_value_le (x : float) (R c : Z) :
  finite x -> float_rank x <= R -> round_int (R * 10 ^ 2) one64 = c ->
  fixed_value 2 x <= c.
Proof.
  intros F H <-. rewrite (fixed_value_rank 2 x F). pose proof one64_pos.
  change (Z.of_nat 2) with 2.
  apply round_int_mono; try lia.
  apply Z.mul_le_mono_nonneg_r; [lia|].
  apply Z.mul_le_mono_nonneg_r; lia.
Qed.

Lemma fixed_value_ge (x : float) (R c : Z) :
  finite x -> R <= float_rank x -> round_int (R * 10 ^ 2) one64 = c ->
  c <= fixed_value 2 x.
Proof.
  intros F H <-. rewrite (fixed_value_rank 2 x F). pose proof one64_pos.
  change (Z.of_nat 2) with 2.
  apply round_int_mono; try lia.
  apply Z.mul_le_mono_nonneg_r; [lia|].
  apply Z.mul_le_mono_nonneg_r; lia.
Qed.

Lemma py_round_infinite (x : float) :
  number x -> ~ finite x -> py_round 2 x = x.
Proof.
  intros N F. destruct (number_cases x N) as [F'|[E|E]]; [contradiction| |];
    unfold py_round; rewrite E; reflexivity.
Qed.

(** A reading below 0.005 rounds to a float that is not positive. *)
Lemma py_round_below_half (x : float) :
  (x <? 0.005)%float = true -> (py_round 2 x <=? 0)%float = true.
Proof.
  intros H. pose proof one64_pos as Hone.
  destruct (ltb_true_rank x 0.005 H) as (Nx & _ & Hr).
  destruct (number_cases x Nx) as [F|[E|E]].
  - destruct (py_round_rank x F) as [R N].
    apply rank_le_leb; [exact N | reflexivity |].
    rewrite rank_0, R.
    assert (Hv : fixed_value 2 x <= 0).
    { destruct (Z_lt_le_dec (float_rank x) 0) as [Hneg|Hpos].
      - apply (fixed_value_le x 0 0 F); [lia | reflexivity].
      - apply (fixed_value_le x _ 0 F) with (2 := hundredths_below_half).
        apply fits_below;
          [ apply finite_rank_fits; assumption
          | apply finite_rank_fits; [reflexivity | lia]
          | lia
          | exact not_a_power_0005 ]. }
    apply Z.le_trans with (m := rnd64 0 100); [|rewrite rnd_0; lia].
    apply rnd_mono; try b64; nia.
  - exfalso. unfold float_rank in Hr at 1. rewrite E in Hr.
    cbn [rank cond_Zopp] in Hr. pose proof (float_rank_bounds 0.005). lia.
  - unfold py_round. rewrite E.
    rewrite leb_spec, E. reflexivity.
Qed.

(** A reading of at least 0.005 rounds to a positive float. *)
Lemma py_round_from_half (x : float) :
  (0.005 <=? x)%float = true -> (0 <? py_round 2 x)%float = true.
Proof.
  intros H. pose proof one64_pos as Hone.
  destruct (leb_true_rank 0.005 x H) as (_ & Nx & Hr).
  destruct (number_cases x Nx) as [F|[E|E]].
  - destruct (py_round_rank x F) as [R N].
    rewrite ltb_rank by (exact N || reflexivity).
    apply Z.ltb_lt. rewrite rank_0, R.
    pose proof (fixed_value_ge x (float_rank 0.005) 1 F Hr hundredths_at_half) as Hv.
    apply Z.lt_le_trans with (1 := one_hundredth_positive).
    apply rnd_mono; try b64; nia.
  - unfold py_round. rewrite E. rewrite ltb_spec, E. reflexivity.
  - exfalso. unfold float_rank in Hr at 2. rewrite E in Hr.
    cbn [rank cond_Zopp] in Hr. pose proof (finite_rank_lt 0.005 eq_refl). lia.
Qed.

(** A reading of at most 1.005 (the float) rounds to at most 1. *)
Lemma py_round_to_one (x : float) :
  (x <=? 1.005)%float = true -> (py_round 2 x <=? 1)%float = true.
Proof.
  intros H. pose proof one64_pos as Hone.
  destruct (leb_true_rank x 1.005 H) as (Nx & _ & Hr).
  destruct (number_cases x Nx) as [F|[E|E]].
  - destruct (py_round_rank x F) as [R N].
    apply rank_le_leb; [exact N | reflexivity |].
    rewrite rank_1, R.
    pose proof (fixed_value_le x (float_rank 1.005) 100 F Hr hundredths_at_1005) as Hv.
    apply Z.le_trans with (m := rnd64 (100 * one64) 100); [|rewrite rnd_one; lia].
    apply rnd_mono; try b64; nia.
  - exfalso. unfold float_rank in Hr at 1. rewrite E in Hr.
    cbn [rank cond_Zopp] in Hr. pose proof (finite_rank_lt 1.005 eq_refl). lia.
  - unfold py_round. rewrite E. rewrite leb_spec, E. reflexivity.
Qed.

(** A reading above 1.005 (the float) rounds to more than 1. *)
Lemma py_round_above_one (x : float) :
  (1.005 <? x)%float = true -> (1 <? py_round 2 x)%float = true.
Proof.
  intros H. pose proof one64_pos as Hone.
  destruct (ltb_true_rank 1.005 x H) as (_ & Nx & Hr).
  assert (H1005 : 0 < float_rank 1.005) by reflexivity.
  destruct (number_cases x Nx) as [F|[E|E]].
  - destruct (py_round_rank x F) as [R N].
    rewrite ltb_rank by (exact N || reflexivity).
    apply Z.ltb_lt. rewrite rank_1, R.
    assert (Hv : 101 <= fixed_value 2 x).
    { apply (fixed_value_ge x _ 101 F) with (2 := hundredths_above_1005).
      apply fits_above;
        [ apply finite_rank_fits; [assumption | lia]
        | apply finite_rank_fits; [reflexivity | lia]
        | lia ]. }
    apply Z.lt_le_trans with (1 := hundred_and_one_hundredths).
    apply rnd_mono; try b64; nia.
  - unfold py_round. rewrite E. rewrite ltb_spec, E. reflexivity.
  - exfalso. unfold float_rank in Hr at 2. rewrite E in Hr.
    cbn [rank cond_Zopp] in Hr. pose proof (finite_rank_lt 1.005 eq_refl). lia.
Qed.

(** ** The reflection ratio is at most one *)

Lemma fits_one64 : fits prec one64.
Proof.
  unfold one_units. apply fits_pow2; [b64|].
  apply Z.lt_le_incl, Z.opp_pos_neg, emin_neg; b64.
Qed.

Lemma one64_lt_top64 : one64 < top64.
Proof. rewrite one64_eq, top64_eq. apply Z.pow_lt_mono_r; lia. Qed.

(** For a finite float above one, the ratio [(v - 1) / (v + 1)] is a float
    above zero and at most one. *)
Lemma reflection_ratio_range (v : float) :
  finite v -> (1 <? v)%float = true ->
  (0 <? (v - 1) / (v + 1))%float = true /\
  ((v - 1) / (v + 1) <=? 1)%float = true.
Proof.
  intros F H. pose proof one64_pos as Hone. pose proof top64_pos as Ht.
  pose proof one64_lt_top64 as Hot.
  destruct (ltb_true_rank 1 v H) as (_ & Nv & Hr). rewrite rank_1 in Hr.
  destruct (reflection_ratio_defined v H) as [_ Hpos].
  set (u := float_rank v) in *.
  pose proof (finite_rank_fits v F ltac:(fold u; lia)) as Hfit. fold u in Hfit.
  pose proof (finite_rank_lt v F) as Hlt. fold u in Hlt.
  destruct (sub_rank v 1 F finite_1) as [Rn Nn]. rewrite rank_1 in Rn. fold u in Rn.
  destruct (add_1_finite v F ltac:(fold u; lia)) as [Fd Rd]. fold u in Rd.
  assert (Rn_lo : 0 <= float_rank (v - 1)).
  { rewrite Rn. rewrite <- (rnd_0 prec emax 1). apply rnd_mono; try b64; lia. }
  assert (Rn_hi : float_rank (v - 1) <= u).
  { rewrite Rn. rewrite <- (rnd_id prec emax u) at 2;
      [| rewrite Z.abs_eq by lia; exact Hfit | rewrite Z.abs_eq by lia; lia].
    apply rnd_mono; try b64; lia. }
  assert (Fn : finite (v - 1)) by (apply rank_lt_finite; [exact Nn | lia]).
  assert (Rd_lo : u <= float_rank (v + 1)).
  { rewrite Rd. rewrite <- (round_units_id prec u Hfit) at 1.
    apply round_units_mono; try b64; lia. }
  destruct (div_rank (v - 1) (v + 1) Fn Fd ltac:(lia)) as [Rq Nq].
  split.
  - rewrite leb_rank in Hpos by (exact Nq || reflexivity).
    rewrite ltb_rank by (exact Nq || reflexivity).
    apply Z.leb_gt in Hpos. apply Z.ltb_lt. exact Hpos.
  - apply rank_le_leb; [exact Nq | reflexivity |].
    rewrite rank_1, Rq.
    apply Z.le_trans with (m := rnd64 one64 1).
    + apply rnd_mono; try b64; nia.
    + rewrite rnd_id; rewrite ?Z.abs_eq by lia; [lia | exact fits_one64 | lia].
Qed.

(** Minus twenty times a float that is not positive is not negative. *)
Lemma minus_twenty_times (l : float) :
  (l <=? 0)%float = true -> (0 <=? -20 * l)%float = true.
Proof.
  intros H. pose proof one64_pos as Hone.
  pose proof (mul_const_antimono (-20) l 0 finite_m20
                ltac:(rewrite rank_m20; lia) H) as Hm.
  destruct (leb_true_rank _ _ Hm) as (N0 & Nl & Hr).
  apply rank_le_leb; [reflexivity | exact Nl |].
  rewrite rank_0. apply Z.le_trans with (2 := Hr).
  vm_compute. discriminate.
Qed.

(** ** Sample runs *)

Lemma bench_iteration :
  Monitor.update_readings log10_sample (Monitor.start bench)
  = (Ok tt, snd (Monitor.update_readings log10_sample (Monitor.start bench))).
Proof.
  assert (H : fst (Monitor.update_readings log10_sample (Monitor.start bench)) = Ok tt)
    by (vm_compute; reflexivity).
  destruct (Monitor.update_readings log10_sample (Monitor.start bench)) as [r w].
  cbn [fst snd] in *. rewrite H. reflexivity.
Qed.

Ltac readable_reply :=
  match goal with
  | |- exists z, ?f = Ok z =>
      let E := fresh "E" in
      destruct f eqn:E; [eexists; reflexivity | vm_compute in E; discriminate E]
  end.

Lemma bench_monitor_readable :
  all_readable (Monitor.my4480 (Monitor.start bench)) 0 monitor_queries.
Proof.
  cbn [all_readable monitor_queries Monitor.start Monitor.my4480].
  repeat split; unfold readable; cbn; readable_reply.
Qed.

Lemma bench_logger_readable (d : instrument) (m : nat) :
  answer d = answer bench -> all_readable d m logger_queries.
Proof.
  intros Ha. cbn [all_readable logger_queries]. rewrite Ha.
  repeat split; unfold readable; cbn; readable_reply.
Qed.

Lemma slow_clock_first :
  forall j : nat, (j < 2)%nat ->
    (slow_clock (S j) - slow_clock 0 <? 1800)%float = true.
Proof.
  intros j Hj. destruct j as [|[|j]]; [vm_compute; reflexivity .. | lia].
Qed.

Lemma slow_clock_last :
  (slow_clock 3 - slow_clock 0 <? 1800)%float = false.
Proof. vm_compute. reflexivity. Qed.

(** ** Further properties of the scripts *)

(** *** [ms_to_hhmmss] *)

(** X1. For [0 <= ms < 2 ^ 44 * 1000], the three fields of the text are the
    digits of the whole seconds [ms // 1000] in the mixed base 60, 60: the
    hours are the seconds divided by 3600, the minutes what is left divided
    by 60, the seconds the remainder modulo 60. *)
Theorem ms_to_hhmmss_of_whole_seconds (ms : Z) :
  0 <= ms < 17592186044416000 ->
  Monitor.ms_to_hhmmss ms
    = Ok (format_02d (ms / 1000 / 3600) ++ ":"
            ++ format_02d (ms / 1000 mod 3600 / 60) ++ ":"
            ++ format_02d (ms / 1000 mod 60))%string.
Proof. exact (ms_to_hhmmss_value ms). Qed.

Lemma ms_to_hhmmss_of_whole_seconds_witness :
  Monitor.ms_to_hhmmss 86399999
    = Ok (format_02d (86399999 / 1000 / 3600) ++ ":"
            ++ format_02d (86399999 / 1000 mod 3600 / 60) ++ ":"
            ++ format_02d (86399999 / 1000 mod 60))%string.
Proof. apply (ms_to_hhmmss_of_whole_seconds 86399999). lia. Defined.

(** X2. Below a hundred hours ([0 <= ms < 360000000]) the text has exactly
    eight characters: two digits for each field and two colons. *)
Theorem ms_to_hhmmss_eight_characters (ms : Z) :
  0 <= ms < 360000000 ->
  exists s : string, Monitor.ms_to_hhmmss ms = Ok s /\ String.length s = 8%nat.
Proof.
  intros H. eexists. split; [apply ms_to_hhmmss_value; lia|].
  assert (Hk : 0 <= ms / 1000 < 360000).
  { split; [apply Z.div_pos; lia | apply Z.div_lt_upper_bound; lia]. }
  pose proof (Z.mod_pos_bound (ms / 1000) 3600 ltac:(lia)) as Hm.
  pose proof (Z.mod_pos_bound (ms / 1000) 60 ltac:(lia)) as Hs.
  assert (Hh : 0 <= ms / 1000 / 3600 < 100).
  { split; [apply Z.div_pos; lia | apply Z.div_lt_upper_bound; lia]. }
  assert (Hmin : 0 <= ms / 1000 mod 3600 / 60 < 100).
  { split; [apply Z.div_pos; lia | apply Z.div_lt_upper_bound; lia]. }
  rewrite !length_append.
  rewrite (format_02d_length _ Hh), (format_02d_length _ Hmin).
  rewrite (format_02d_length (ms / 1000 mod 60)) by lia.
  reflexivity.
Qed.

Lemma ms_to_hhmmss_eight_characters_witness :
  exists s : string, Monitor.ms_to_hhmmss 359999999 = Ok s /\ String.length s = 8%nat.
Proof. apply (ms_to_hhmmss_eight_characters 359999999). lia. Defined.

(** *** One iteration of the monitor *)

(** X3. An iteration of the monitor that runs to its end has read seven
    replies, in this order: the system time, the forward power, the
    reflected power, the VSWR, the temperature, the system time again, and
    the band. The row it appends holds, in the header's order: the band
    label, the two powers rounded to two decimals, their dBm values, the
    rounded VSWR, its return loss, the rounded temperature, the count, the
    second system time minus the first, and the first system time as
    [HH:MM:SS]. *)
Theorem monitor_row_content (log10 : float -> float) (w w' : Monitor.world) (u : unit) :
  Monitor.update_readings log10 w = (Ok u, w') ->
  exists (s0 s1 s2 s3 s4 s5 s6 hms : string) (t0 t1 b : Z) (y1 y2 y3 y4 : float),
    let d := Monitor.my4480 w in
    let fwd := py_round 2 y1 in
    let refl := py_round 2 y2 in
    let vswr := py_round 2 y3 in
    let temp := py_round 2 y4 in
    (answer d (asked d) "SYST:TIM?" = Reply s0 /\ int_of_string s0 = Ok t0 /\
     Monitor.ms_to_hhmmss t0 = Ok hms /\
     answer d (1 + asked d) "FETC:FORW?" = Reply s1 /\ float_of_string (strip s1) = Ok y1 /\
     answer d (2 + asked d) "FETC:REFL?" = Reply s2 /\ float_of_string (strip s2) = Ok y2 /\
     answer d (3 + asked d) "FETC:VSWR?" = Reply s3 /\ float_of_string (strip s3) = Ok y3 /\
     answer d (4 + asked d) "FETC:TEMP?" = Reply s4 /\ float_of_string (strip s4) = Ok y4 /\
     answer d (5 + asked d) "SYST:TIM?" = Reply s5 /\ int_of_string s5 = Ok t1 /\
     answer d (6 + asked d) "MEAS:BAND?" = Reply s6 /\ int_of_string s6 = Ok b) /\
    Monitor.csvfile w' = Monitor.csvfile w ++
      [[ Monitor.band_selection (PyInt b); PyFloat fwd; PyFloat refl;
         Monitor.watts_to_dbm log10 (PyFloat fwd);
         Monitor.watts_to_dbm log10 (PyFloat refl);
         PyFloat vswr; Monitor.vswr_to_return_loss log10 (PyFloat vswr); PyFloat temp;
         PyInt (Monitor.i w + 1); PyInt (t1 - t0); PyStr hms ]].
Proof.
  intros H.
  destruct (MonitorRuns.update_readings_ok log10 w w' u H)
    as (s0 & s1 & s2 & s3 & s4 & s5 & s6 & hms & t0 & t1 & b & y1 & y2 & y3 & y4 & R).
  cbv zeta in R. destruct R as (Hr & _ & Hrow & _).
  exists s0, s1, s2, s3, s4, s5, s6, hms, t0, t1, b, y1, y2, y3, y4.
  cbv zeta. split; assumption.
Qed.

Lemma monitor_row_content_witness :
  exists x : row,
    Monitor.csvfile (snd (Monitor.update_readings log10_sample (Monitor.start bench)))
    = Monitor.csvfile (Monitor.start bench) ++ [x].
Proof.
  destruct (monitor_row_content log10_sample (Monitor.start bench) _ tt bench_iteration)
    as (s0 & s1 & s2 & s3 & s4 & s5 & s6 & hms & t0 & t1 & b & y1 & y2 & y3 & y4 & R).
  cbv zeta in R. destruct R as (_ & Hrow).
  eexists. exact Hrow.
Defined.

(** X4. After an iteration that ran to its end, the window shows what the
    row holds: every text variable of the window has the value of its
    cell, the count and the test time as their decimal text. *)
Theorem panel_shows_logged_row (log10 : float -> float) (w w' : Monitor.world) (u : unit) :
  Monitor.update_readings log10 w = (Ok u, w') ->
  exists (band fdbm rdbm rl : pyval) (fwd refl vswr temp : float) (n tt : Z) (hms : string),
    Monitor.csvfile w' = Monitor.csvfile w ++
      [[ band; PyFloat fwd; PyFloat refl; fdbm; rdbm; PyFloat vswr; rl; PyFloat temp;
         PyInt n; PyInt tt; PyStr hms ]] /\
    Monitor.panel w' Monitor.band_var = band /\
    Monitor.panel w' Monitor.forward_power_var = PyFloat fwd /\
    Monitor.panel w' Monitor.reflected_power_var = PyFloat refl /\
    Monitor.panel w' Monitor.forward_power_dbm_var = fdbm /\
    Monitor.panel w' Monitor.reflected_power_dbm_var = rdbm /\
    Monitor.panel w' Monitor.vswr_var = PyFloat vswr /\
    Monitor.panel w' Monitor.return_loss_var = rl /\
    Monitor.panel w' Monitor.temp_var = PyFloat temp /\
    Monitor.panel w' Monitor.iteration_var = PyStr (str_of_Z n) /\
    Monitor.panel w' Monitor.test_time_var = PyStr (str_of_Z tt) /\
    Monitor.panel w' Monitor.system_time_var = PyStr hms.
Proof.
  intros H.
  destruct (MonitorRuns.update_readings_ok log10 w w' u H)
    as (s0 & s1 & s2 & s3 & s4 & s5 & s6 & hms & t0 & t1 & b & y1 & y2 & y3 & y4 & R).
  cbv zeta in R. destruct R as (_ & _ & Hrow & P).
  do 11 eexists. split; [exact Hrow|]. tauto.
Qed.

Lemma panel_shows_logged_row_witness :
  exists (x : row) (n : Z),
    Monitor.csvfile (snd (Monitor.update_readings log10_sample (Monitor.start bench)))
    = Monitor.csvfile (Monitor.start bench) ++ [x] /\
    nth_error x 8 = Some (PyInt n) /\
    Monitor.panel (snd (Monitor.update_readings log10_sample (Monitor.start bench)))
      Monitor.iteration_var = PyStr (str_of_Z n).
Proof.
  destruct (panel_shows_logged_row log10_sample (Monitor.start bench) _ tt bench_iteration)
    as (band & fdbm & rdbm & rl & fwd & refl & vswr & temp & n & t & hms & Hrow & P).
  eexists. exists n. split; [exact Hrow|]. split; [reflexivity | tauto].
Defined.

(** X5. An iteration of the monitor runs to its end, and appends its row,
    whenever the seven replies can be read as numbers, the system time is a
    number of milliseconds from 0 up to [2 ^ 44 * 1000], and [str] can
    write the count and the test time: both are below [10 ^ 4300] in
    absolute value. *)
Theorem monitor_iteration_completes (log10 : float -> float) (w : Monitor.world) :
  all_readable (Monitor.my4480 w) 0 monitor_queries ->
  (forall (s : string) (t : Z),
     answer (Monitor.my4480 w) (asked (Monitor.my4480 w)) "SYST:TIM?" = Reply s ->
     int_of_string s = Ok t -> 0 <= t < 17592186044416000) ->
  Z.abs (Monitor.i w + 1) < 10 ^ int_max_str_digits ->
  (forall (s s' : string) (t t' : Z),
     answer (Monitor.my4480 w) (asked (Monitor.my4480 w)) "SYST:TIM?" = Reply s ->
     int_of_string s = Ok t ->
     answer (Monitor.my4480 w) (5 + asked (Monitor.my4480 w)) "SYST:TIM?" = Reply s' ->
     int_of_string s' = Ok t' ->
     Z.abs (t' - t) < 10 ^ int_max_str_digits) ->
  exists w' x,
    Monitor.update_readings log10 w = (Ok tt, w') /\
    Monitor.csvfile w' = Monitor.csvfile w ++ [x].
Proof.
  intros Hr Ht Hcount Htime.
  destruct (MonitorRuns.all_readable_monitor _ Hr)
    as (s0 & s1 & s2 & s3 & s4 & s5 & s6 & t0 & t1 & b & y1 & y2 & y3 & y4 & R).
  destruct R as (A0 & P0 & A1 & P1 & A2 & P2 & A3 & P3 & A4 & P4 & A5 & P5 & A6 & P6).
  pose proof (ms_to_hhmmss_value t0 (Ht s0 t0 A0 P0)) as Hhms.
  pose proof (MonitorRuns.update_readings_runs log10 w s0 s1 s2 s3 s4 s5 s6 _ t0 t1 b
                y1 y2 y3 y4 Hcount A0 P0 Hhms A1 P1 A2 P2 A3 P3 A4 P4 A5 P5 A6 P6
                (Htime s0 s5 t0 t1 A0 P0 A5 P5)) as Hok.
  destruct (Monitor.update_readings log10 w) as [r w'] eqn:E.
  cbn [fst] in Hok. subst r.
  destruct (MonitorFacts.update_readings_one_row log10 w _ w' E) as (x & Hx).
  exists w', x. auto.
Qed.

Lemma monitor_iteration_completes_witness :
  exists w' x,
    Monitor.update_readings log10_sample (Monitor.start bench) = (Ok tt, w') /\
    Monitor.csvfile w' = Monitor.csvfile (Monitor.start bench) ++ [x].
Proof.
  apply (monitor_iteration_completes log10_sample (Monitor.start bench)).
  - exact bench_monitor_readable.
  - intros s t A P. cbn in A. inversion A; subst s.
    vm_compute in P. inversion P; subst t. lia.
  - vm_compute. reflexivity.
  - intros s s' t t' A P A' P'. cbn in A, A'. inversion A; subst s.
    inversion A'; subst s'.
    vm_compute in P, P'. inversion P; subst t. inversion P'; subst t'.
    vm_compute. reflexivity.
Defined.



(** *** The whole run of the monitor *)

(** X7. The monitor stops polling at the first iteration that raises: the
    results of the callbacks of a run are completed iterations, followed by
    at most one iteration that raised; after that one the timer is not
    armed, so no later callback runs. *)
Theorem monitor_stops_at_first_failure (log10 : float -> float) (n : nat)
    (d : instrument) :
  exists k : nat,
    fst (Monitor.main log10 n d) = repeat (Ok tt) k \/
    (exists e, fst (Monitor.main log10 n d) = repeat (Ok tt) k ++ [Raise e] /\
               Monitor.timer (snd (Monitor.main log10 n d)) = false).
Proof. exact (MonitorLoop.main_results log10 n d). Qed.

(** X8. Whatever the instrument replies and however long the monitor runs,
    its file is a table under the header row: every row has the eleven
    cells of the header, and the cell under [Measurment Count] numbers the
    rows 1, 2, 3, ... without a gap. *)
Theorem monitor_file_is_numbered_table (log10 : float -> float) (n : nat)
    (d : instrument) :
  table Monitor.fieldnames (Monitor.csvfile (snd (Monitor.main log10 n d))) /\
  numbered 8 (Monitor.data_rows (snd (Monitor.main log10 n d))) /\
  nth_error Monitor.fieldnames 8 = Some (PyStr "Measurment Count").
Proof.
  destruct (MonitorLoop.main_logged log10 n d) as (rows & Hf & Hn & Hl).
  split; [exists rows; auto|]. split; [|reflexivity].
  unfold Monitor.data_rows. rewrite Hf. exact Hn.
Qed.

(** *** One iteration of the logger *)

(** X9. An iteration of the logger that runs to its end has read four
    replies, in this order: the forward power, the reflected power, the
    VSWR and the temperature; then it has read the clock once. The row it
    appends holds the elapsed time with three decimals, the three readings
    rounded to two decimals, the return loss of the rounded VSWR, and the
    rounded temperature; the elapsed time it keeps is that clock reading
    minus the start. *)
Theorem logger_row_content (log10 : float -> float) (l l' : Logger.locals)
    (w w' : Logger.world) :
  Logger.body log10 l w = (Ok l', w') ->
  exists (s1 s2 s3 s4 : string) (y1 y2 y3 y4 : float),
    let d := Logger.my4480 w in
    let vswr := py_round 2 y3 in
    let elapsed := (Logger.clock w (Logger.now w) - Logger.t1 l)%float in
    (answer d (asked d) "FETC:FORW?" = Reply s1 /\ float_of_string (strip s1) = Ok y1 /\
     answer d (1 + asked d) "FETC:REFL?" = Reply s2 /\ float_of_string (strip s2) = Ok y2 /\
     answer d (2 + asked d) "FETC:VSWR?" = Reply s3 /\ float_of_string (strip s3) = Ok y3 /\
     answer d (3 + asked d) "FETC:TEMP?" = Reply s4 /\ float_of_string (strip s4) = Ok y4) /\
    Logger.file w' = Logger.file w ++
      [[ PyStr (format_f 3 elapsed); PyFloat (py_round 2 y1); PyFloat (py_round 2 y2);
         PyFloat vswr; Logger.vswr_to_return_loss log10 (PyFloat vswr);
         PyFloat (py_round 2 y4) ]] /\
    Logger.elapsed_time l' = elapsed /\
    Logger.now w' = S (Logger.now w).
Proof.
  intros H.
  destruct (LoggerRuns.body_ok log10 l l' w w' H)
    as (s1 & s2 & s3 & s4 & y1 & y2 & y3 & y4 & R).
  cbv zeta in R. destruct R as (Hr & (_ & _ & _ & _ & Hnow) & Hrow & _ & Hel & _).
  exists s1, s2, s3, s4, y1, y2, y3, y4. cbv zeta. auto.
Qed.

(** *** The whole run of the logger *)

(** X10. The logger runs until the first reading of the clock that is not
    less than 1800 seconds after the start: when every reply of the
    instrument can be read, and the clock reading of iteration [k + 1] is
    the first one that far from the start, the loop ends after exactly
    [k + 1] iterations, with [k + 1] rows below the header, and the script
    prints its last line. At least one iteration always runs. *)
Theorem logger_runs_until_duration (log10 : float -> float) (d : instrument)
    (c : nat -> float) (k fuel : nat) :
  (forall m, all_readable d m logger_queries) ->
  (forall j, (j < k)%nat -> (c (S j) - c O <? 1800)%float = true) ->
  (c (S k) - c O <? 1800)%float = false ->
  (k < fuel)%nat ->
  exists l' w',
    Logger.main log10 fuel (Logger.start d c) = Logger.Finished (S k) l' w' /\
    List.length (Logger.data_rows w') = S k /\
    Logger.elapsed_time l' = (c (S k) - c O)%float /\
    last (Logger.stdout w') EmptyString = "Testing ended!!!"%string.
Proof.
  intros Hr Hlt Hge Hfuel.
  unfold Logger.main. rewrite LoggerFacts.setup_spec.
  cbn [Logger.start Logger.clock Logger.now Logger.my4480 Logger.file Logger.stdout app].
  match goal with
  | |- context [Logger.while log10 fuel O ?l0 ?w0] =>
      destruct (LoggerLoop.while_runs log10 k fuel O l0 w0 Hfuel) as (l' & w' & Hw & Hel);
      [ intros m; cbn [Logger.my4480];
        apply (all_readable_ext d _ 3); [reflexivity | reflexivity | apply Hr]
      | reflexivity
      | exact Hlt
      | exact Hge
      | pose proof (LoggerFacts.while_rows log10 fuel O l0 w0) as Hrows ]
  end.
  rewrite Hw in Hrows. rewrite Hw.
  cbn [Logger.file List.length Nat.add] in Hrows.
  cbn [Logger.clock Logger.now Logger.t1 Nat.add] in Hel.
  eexists. eexists. split; [reflexivity|].
  cbn [Logger.print snd Logger.file Logger.stdout].
  split; [|split].
  - unfold Logger.data_rows. cbn [Logger.file].
    destruct (Logger.file w') as [|h t]; cbn [List.length tl] in *; lia.
  - exact Hel.
  - cbn [Logger.stdout]. apply last_last.
Qed.

Lemma logger_runs_until_duration_witness :
  exists l' w',
    Logger.main log10_sample 5 (Logger.start bench slow_clock)
      = Logger.Finished 3 l' w' /\
    List.length (Logger.data_rows w') = 3%nat /\
    Logger.elapsed_time l' = (slow_clock 3 - slow_clock 0)%float /\
    last (Logger.stdout w') EmptyString = "Testing ended!!!"%string.
Proof.
  apply (logger_runs_until_duration log10_sample bench slow_clock 2 5).
  - intros m. apply bench_logger_readable. reflexivity.
  - exact slow_clock_first.
  - exact slow_clock_last.
  - lia.
Defined.

Lemma logger_row_content_witness :
  exists (l' : Logger.locals) (w' : Logger.world) (x : row),
    Logger.body log10_sample
      {| Logger.t1 := 0; Logger.elapsed_time := 0; Logger.print_interval_flag := 60 |}
      (Logger.start bench slow_clock) = (Ok l', w') /\
    Logger.file w' = Logger.file (Logger.start bench slow_clock) ++ [x].
Proof.
  destruct (LoggerRuns.body_runs log10_sample
              {| Logger.t1 := 0; Logger.elapsed_time := 0; Logger.print_interval_flag := 60 |}
              (Logger.start bench slow_clock)
              (bench_logger_readable _ O eq_refl)) as (l' & w' & E).
  destruct (logger_row_content log10_sample _ l' _ w' E)
    as (s1 & s2 & s3 & s4 & y1 & y2 & y3 & y4 & R).
  cbv zeta in R. destruct R as (_ & Hrow & _).
  exists l', w'. eexists. split; [exact E | exact Hrow].
Defined.

(** X11. Whatever the instrument replies and however the run of the logger
    ends, the run appends a table to its output file, which it opens in
    append mode: the rows the file held before are kept, then comes the
    header row, and then rows of six cells each. On a new or empty file the
    output file as a whole is a table under the header row. *)
Theorem logger_file_is_table (log10 : float -> float) (fuel : nat) (w : Logger.world) :
  match Logger.main log10 fuel w with
  | Logger.Finished _ _ w' | Logger.Failed _ _ w' | Logger.Running _ _ w' =>
      (exists rows,
         Logger.file w' = Logger.file w ++ Logger.header :: rows /\
         Forall (fun r => List.length r = List.length Logger.header) rows) /\
      (Logger.file w = [] -> table Logger.header (Logger.file w'))
  end.
Proof.
  unfold Logger.main. rewrite LoggerFacts.setup_spec.
  match goal with
  | |- context [Logger.while log10 fuel O ?l0 ?w0] =>
      destruct (LoggerLoop.while_trace log10 fuel O l0 w0)
        as (rows & lines & tail & Hl & _ & _ & R);
      destruct (Logger.while log10 fuel O l0 w0) as [n l' w'|n e w'|n l' w']
  end;
    destruct R as (_ & _ & Hf & _); cbn [Logger.file] in Hf;
    rewrite <- app_assoc in Hf; cbn [app] in Hf;
    cbn [Logger.print snd Logger.file];
    (split;
     [ exists rows; auto
     | intros Hnew; rewrite Hnew in Hf; cbn [app] in Hf; exists rows; auto ]).
Qed.

(** X12. The messages the logger sends, in the order sent: the three
    commands of the set-up, [*RST], [*CLS] and [MEAS:BAND 0], and then for
    every iteration that ran to its end its four queries; when an iteration
    raised, the first [k] of its queries after them, for a [k] from 1 to 4.
    The logger sends nothing else to the instrument. *)
Theorem logger_message_sequence (log10 : float -> float) (fuel : nat) (d : instrument)
    (c : nat -> float) :
  match Logger.main log10 fuel (Logger.start d c) with
  | Logger.Finished n _ w' | Logger.Running n _ w' =>
      rev (sent (Logger.my4480 w')) =
        rev (sent d) ++ ["*RST"; "*CLS"; "MEAS:BAND 0"]%string
          ++ rounds n logger_queries
  | Logger.Failed n _ w' =>
      exists k : nat,
        (1 <= k <= 4)%nat /\
        rev (sent (Logger.my4480 w')) =
          rev (sent d) ++ ["*RST"; "*CLS"; "MEAS:BAND 0"]%string
            ++ rounds n logger_queries ++ firstn k logger_queries
  end.
Proof.
  unfold Logger.main. rewrite LoggerFacts.setup_spec.
  cbn [Logger.start Logger.clock Logger.now Logger.my4480 Logger.file Logger.stdout app].
  match goal with
  | |- context [Logger.while log10 fuel O ?l0 ?w0] =>
      destruct (LoggerLoop.while_trace log10 fuel O l0 w0)
        as (rows & lines & tail & _ & _ & _ & R);
      destruct (Logger.while log10 fuel O l0 w0) as [n l' w'|n e w'|n l' w']
  end.
  - destruct R as (-> & -> & _ & _ & Hs).
    cbn [Logger.print snd Logger.my4480 received sent Nat.add] in *.
    rewrite Hs, rev_app_distr, rev_involutive. cbn [rev app].
    rewrite <- !app_assoc. reflexivity.
  - destruct R as (-> & (k & Hk & ->) & _ & _ & Hs).
    cbn [Logger.my4480 received sent Nat.add] in *.
    exists k. split; [exact Hk|].
    rewrite Hs, rev_app_distr, rev_involutive. cbn [rev app].
    rewrite <- !app_assoc. reflexivity.
  - destruct R as (-> & -> & _ & _ & Hs).
    cbn [Logger.my4480 received sent Nat.add] in *.
    rewrite Hs, rev_app_distr, rev_involutive. cbn [rev app].
    rewrite <- !app_assoc. reflexivity.
Qed.

(** X13. What the logger prints: first [Testing started....], then at most
    one progress line per iteration that ran to its end, and
    [Testing ended!!!] as the last line exactly when the loop ended; a run
    that an exception left does not print it. *)
Theorem logger_printed_lines (log10 : float -> float) (fuel : nat) (d : instrument)
    (c : nat -> float) :
  match Logger.main log10 fuel (Logger.start d c) with
  | Logger.Finished n _ w' =>
      exists lines,
        Logger.stdout w' =
          ["Testing started...."%string] ++ lines ++ ["Testing ended!!!"%string] /\
        Forall progress_line lines /\ (List.length lines <= n)%nat
  | Logger.Failed n _ w' | Logger.Running n _ w' =>
      exists lines,
        Logger.stdout w' = ["Testing started...."%string] ++ lines /\
        Forall progress_line lines /\ (List.length lines <= n)%nat
  end.
Proof.
  unfold Logger.main. rewrite LoggerFacts.setup_spec.
  cbn [Logger.start Logger.clock Logger.now Logger.my4480 Logger.file Logger.stdout app].
  match goal with
  | |- context [Logger.while log10 fuel O ?l0 ?w0] =>
      destruct (LoggerLoop.while_trace log10 fuel O l0 w0)
        as (rows & lines & tail & _ & Hp & Hle & R);
      destruct (Logger.while log10 fuel O l0 w0) as [n l' w'|n e w'|n l' w']
  end;
    destruct R as (-> & _ & _ & Ho & _); cbn [Logger.stdout app Nat.add] in *;
    cbn [Logger.print snd Logger.stdout]; exists lines; rewrite Ho;
    cbn [app]; auto.
Qed.

(** *** The conversions of a rounded reading *)

(** X14. The dBm of a power reading, as the monitor computes it from the
    reading rounded to two decimals: a reading below 0.005 W rounds to a
    power that is not positive and is shown as ['N/A']; a reading of 0.005 W
    or more is shown as a number. *)
Theorem dbm_of_rounded_power (log10 : float -> float) (x : float) :
  ((x <? 0.005)%float = true ->
   Monitor.watts_to_dbm log10 (PyFloat (py_round 2 x)) = PyStr "N/A") /\
  ((0.005 <=? x)%float = true ->
   Monitor.watts_to_dbm log10 (PyFloat (py_round 2 x))
   = PyStr (format_f 2 (10 * log10 (py_round 2 x * 1000))%float)).
Proof.
  split; intros H.
  - apply (watts_to_dbm_not_positive log10 (PyFloat (py_round 2 x)) (py_round 2 x) eq_refl).
    apply py_round_below_half. exact H.
  - apply (watts_to_dbm_positive log10 (PyFloat (py_round 2 x)) (py_round 2 x) eq_refl).
    apply py_round_from_half. exact H.
Qed.

Lemma dbm_of_rounded_power_witness :
  Monitor.watts_to_dbm log10_sample (PyFloat (py_round 2 0.0049)) = PyStr "N/A" /\
  Monitor.watts_to_dbm log10_sample (PyFloat (py_round 2 0.0051))
  = PyStr (format_f 2 (10 * log10_sample (py_round 2 0.0051 * 1000))%float).
Proof.
  split.
  - apply (proj1 (dbm_of_rounded_power log10_sample 0.0049)). vm_compute. reflexivity.
  - apply (proj2 (dbm_of_rounded_power log10_sample 0.0051)). vm_compute. reflexivity.
Defined.

(** X15. The return loss of a VSWR reading, as both scripts compute it from
    the reading rounded to two decimals: a reading up to the float 1.005
    rounds to at most 1.00 and gives ['0'] in the monitor and the sentinel
    in the logger; a reading above it rounds to 1.01 or more and gives a
    number with two decimals. *)
Theorem return_loss_of_rounded_vswr (log10 : float -> float) (x : float) :
  ((x <=? 1.005)%float = true ->
   Monitor.vswr_to_return_loss log10 (PyFloat (py_round 2 x)) = PyStr "0" /\
   Logger.vswr_to_return_loss log10 (PyFloat (py_round 2 x)) = PyFloat Logger.sentinel) /\
  ((1.005 <? x)%float = true ->
   exists rl : float,
     Monitor.vswr_to_return_loss log10 (PyFloat (py_round 2 x)) = PyStr (format_f 2 rl) /\
     Logger.vswr_to_return_loss log10 (PyFloat (py_round 2 x)) = PyStr (format_f 2 rl)).
Proof.
  split; intros H.
  - apply (return_loss_at_most_one log10 (PyFloat (py_round 2 x)) (py_round 2 x) eq_refl).
    apply py_round_to_one. exact H.
  - eexists. apply (return_loss_above_one log10 (PyFloat (py_round 2 x)) (py_round 2 x) eq_refl).
    apply py_round_above_one. exact H.
Qed.

Lemma return_loss_of_rounded_vswr_witness :
  (Monitor.vswr_to_return_loss log10_sample (PyFloat (py_round 2 1.0049)) = PyStr "0" /\
   Logger.vswr_to_return_loss log10_sample (PyFloat (py_round 2 1.0049))
   = PyFloat Logger.sentinel) /\
  exists rl : float,
    Monitor.vswr_to_return_loss log10_sample (PyFloat (py_round 2 1.0051))
    = PyStr (format_f 2 rl) /\
    Logger.vswr_to_return_loss log10_sample (PyFloat (py_round 2 1.0051))
    = PyStr (format_f 2 rl).
Proof.
  split.
  - apply (proj1 (return_loss_of_rounded_vswr log10_sample 1.0049)).
    vm_compute. reflexivity.
  - apply (proj2 (return_loss_of_rounded_vswr log10_sample 1.0051)).
    vm_compute. reflexivity.
Defined.

(** X16. The return loss is never negative: for a finite VSWR above 1 the
    ratio [(VSWR - 1) / (VSWR + 1)] that the scripts compute is a float
    above 0 and at most 1, so that, for a C library whose [log10] is not
    positive on such arguments, the value that is formatted is not below
    zero. *)
Theorem return_loss_not_negative (log10 : float -> float)
    (log10_le_0 : forall q : float,
       (0 <? q)%float = true -> (q <=? 1)%float = true ->
       (log10 q <=? 0)%float = true)
    (v : float) :
  finite v -> (1 <? v)%float = true ->
  (0 <? (v - 1) / (v + 1))%float = true /\
  ((v - 1) / (v + 1) <=? 1)%float = true /\
  exists rl : float,
    Monitor.vswr_to_return_loss log10 (PyFloat v) = PyStr (format_f 2 rl) /\
    Logger.vswr_to_return_loss log10 (PyFloat v) = PyStr (format_f 2 rl) /\
    (0 <=? rl)%float = true.
Proof.
  intros F H. destruct (reflection_ratio_range v F H) as [Hpos Hle].
  split; [exact Hpos|]. split; [exact Hle|].
  destruct (return_loss_above_one log10 (PyFloat v) v eq_refl H) as [Hm Hl].
  eexists. split; [exact Hm|]. split; [exact Hl|].
  apply minus_twenty_times. apply log10_le_0; assumption.
Qed.

Lemma log10_sample_not_positive (q : float) :
  (0 <? q)%float = true -> (q <=? 1)%float = true ->
  (log10_sample q <=? 0)%float = true.
Proof.
  intros _ _. unfold log10_sample.
  destruct (q <? 0x1.e04ee348c0e31p-1)%float; vm_compute; reflexivity.
Qed.

Lemma return_loss_not_negative_witness :
  (0 <? (1.5 - 1) / (1.5 + 1))%float = true /\
  ((1.5 - 1) / (1.5 + 1) <=? 1)%float = true /\
  exists rl : float,
    Monitor.vswr_to_return_loss log10_sample (PyFloat 1.5) = PyStr (format_f 2 rl) /\
    Logger.vswr_to_return_loss log10_sample (PyFloat 1.5) = PyStr (format_f 2 rl) /\
    (0 <=? rl)%float = true.
Proof.
  apply (return_loss_not_negative log10_sample log10_sample_not_positive 1.5);
    vm_compute; reflexivity.
Defined.

(** *** One iteration of the logger, again *)

(** X17. An iteration of the logger runs to its end, and appends its row,
    whenever its four replies can be read as numbers: nothing else in the
    loop body can raise. *)
Theorem logger_iteration_completes (log10 : float -> float) (l : Logger.locals)
    (w : Logger.world) :
  all_readable (Logger.my4480 w) 0 logger_queries ->
  exists l' w' x,
    Logger.body log10 l w = (Ok l', w') /\
    Logger.file w' = Logger.file w ++ [x].
Proof.
  intros Hr. destruct (LoggerRuns.body_runs log10 l w Hr) as (l' & w' & E).
  destruct (LoggerFacts.body_one_row log10 l w _ w' E) as (x & Hx).
  exists l', w', x. auto.
Qed.

Lemma logger_iteration_completes_witness :
  exists l' w' x,
    Logger.body log10_sample
      {| Logger.t1 := 0; Logger.elapsed_time := 0; Logger.print_interval_flag := 60 |}
      (Logger.start bench slow_clock) = (Ok l', w') /\
    Logger.file w' = Logger.file (Logger.start bench slow_clock) ++ [x].
Proof.
  apply (logger_iteration_completes log10_sample).
  apply bench_logger_readable. reflexivity.
Defined.

(** *** Monotonicity of the dBm value *)

(** X18. For a C library whose [log10] is monotone, [watts_to_dbm] is
    monotone on the positive floats: of two positive floats [w1 < w2], the
    second gives the larger or the same dBm value, both as the float that
    is formatted and as the number with two decimals that is printed; and
    an input that is at most 0 gives the sentinel. Nothing in the script
    makes the condition on [log10] hold: it is a property of the platform. *)
Theorem watts_to_dbm_monotone (log10 : float -> float)
    (log10_mono : forall x y : float,
       (0 <? x)%float = true -> (x <=? y)%float = true ->
       (log10 x <=? log10 y)%float = true) :
  (forall w1 w2 : float,
     (0 <? w1)%float = true -> (w1 <? w2)%float = true ->
     exists dbm1 dbm2 : float,
       Monitor.watts_to_dbm log10 (PyFloat w1) = PyStr (format_f 2 dbm1) /\
       Monitor.watts_to_dbm log10 (PyFloat w2) = PyStr (format_f 2 dbm2) /\
       (dbm1 <=? dbm2)%float = true /\
       (finite dbm1 -> finite dbm2 -> fixed_value 2 dbm1 <= fixed_value 2 dbm2)) /\
  (forall w : float,
     (w <=? 0)%float = true ->
     Monitor.watts_to_dbm log10 (PyFloat w) = PyStr "N/A").
Proof.
  pose proof one64_pos as Hone.
  split.
  - intros w1 w2 Hpos Hlt.
    destruct (ltb_true_rank 0 w1 Hpos) as (_ & N1 & R1).
    destruct (ltb_true_rank w1 w2 Hlt) as (_ & N2 & R12).
    assert (Hpos2 : (0 <? w2)%float = true).
    { rewrite ltb_rank by (assumption || reflexivity). apply Z.ltb_lt. lia. }
    assert (Hle : (w1 <=? w2)%float = true) by (apply rank_le_leb; assumption || lia).
    exists (10 * log10 (w1 * 1000))%float, (10 * log10 (w2 * 1000))%float.
    split; [|split].
    + apply (watts_to_dbm_positive log10 (PyFloat w1) w1 eq_refl Hpos).
    + apply (watts_to_dbm_positive log10 (PyFloat w2) w2 eq_refl Hpos2).
    + assert (Hdb : (10 * log10 (w1 * 1000) <=? 10 * log10 (w2 * 1000))%float = true).
      { apply mul_const_mono; [exact finite_10 | rewrite rank_10; lia |].
        apply log10_mono.
        - rewrite mul_comm. apply mul_const_pos; try assumption;
            [exact finite_1000 | rewrite rank_1000; lia].
        - rewrite !(mul_comm _ 1000).
          apply mul_const_mono; [exact finite_1000 | rewrite rank_1000; lia | exact Hle]. }
      split; [exact Hdb|].
      intros F1 F2. apply fixed_value_mono; assumption.
  - intros w H.
    exact (watts_to_dbm_not_positive log10 (PyFloat w) w eq_refl H).
Qed.


Lemma watts_to_dbm_monotone_witness :
  exists dbm1 dbm2 : float,
    Monitor.watts_to_dbm log10_decades (PyFloat 0.1) = PyStr (format_f 2 dbm1) /\
    Monitor.watts_to_dbm log10_decades (PyFloat 1) = PyStr (format_f 2 dbm2) /\
    (dbm1 <=? dbm2)%float = true /\
    (finite dbm1 -> finite dbm2 -> fixed_value 2 dbm1 <= fixed_value 2 dbm2).
Proof.
  apply (proj1 (watts_to_dbm_monotone log10_decades log10_decades_mono) 0.1%float 1%float);
    vm_compute; reflexivity.
Defined.

(** The two values of the witness, as the monitor shows them. *)
Example watts_to_dbm_decades :
  Monitor.watts_to_dbm log10_decades (PyFloat 0.1) = PyStr "20.00" /\
  Monitor.watts_to_dbm log10_decades (PyFloat 1) = PyStr "30.00".
Proof. split; vm_compute; reflexivity. Qed.
